(** * vscode-swift: test discovery, reconciliation and run coordination

    A shallow embedding of the test explorer core of the extension
    (src/TestExplorer/LSPTestDiscovery.ts, TestDiscovery.ts, TestRunner.ts)
    and the properties its specification states about it.

    Conventions.
    - A JavaScript value that may be [undefined] is an [option].
    - A call that may throw returns a [Completion].
    - Strings are [string]; the operations used ([endsWith], [===],
      concatenation, [replace] with an anchored pattern) do not depend on
      the encoding.
    - Numbers that are indices or exit codes are [Z]; timestamps and
      durations are IEEE-754 doubles, Rocq's primitive [float], with the
      arithmetic of the machine. A decimal literal stands for the double
      nearest to it, as in JavaScript. *)

From Stdlib Require Import ZArith Lia Ascii.
From Stdlib Require Import Floats.PrimFloat.
From stdpp Require Import base option list strings gmap.

Set Warnings "-register-all".
Set Warnings "-inexact-float".

Local Open Scope string_scope.
Local Open Scope list_scope.
Local Open Scope Z_scope.

(** ** JavaScript basics *)

Module Js.

(** What a [throw] (or a promise rejection) can carry in the modelled code:
    an [Error] object, a [TypeError] raised by the language itself, a bare
    number ([reject(code)]) or nothing ([reject()]). *)
Inductive JsError : Type :=
| ErrorObject (message : string)
| TypeErrorObject (message : string)
| ThrownNumber (n : Z)
| ThrownUndefined.

Inductive Completion (A : Type) : Type :=
| Returned (a : A)
| Thrown (e : JsError).
Arguments Returned {A} a.
Arguments Thrown {A} e.

#[global] Instance JsError_eq_dec : EqDecision JsError.
Proof. solve_decision. Defined.

(** [Array.prototype.findIndex]: the index of the first element that
    satisfies the callback, or -1. *)
Fixpoint findIndexFrom {A : Type} (f : A → bool) (i : Z) (l : list A) : Z :=
  match l with
  | [] => -1
  | x :: l' => if f x then i else findIndexFrom f (i + 1) l'
  end.

Definition findIndex {A : Type} (f : A → bool) (l : list A) : Z :=
  findIndexFrom f 0 l.

(** [String.prototype.endsWith]. *)
Fixpoint endsWith (s suffix : string) : bool :=
  if String.eqb s suffix then true
  else match s with
       | EmptyString => false
       | String _ s' => endsWith s' suffix
       end.

(** [s.replace(/\(\)$/, "")]: the pattern is anchored at the end of the
    input, so the only possible match is a final ["()"], which is removed. *)
Fixpoint dropTrailingParens (s : string) : string :=
  match s with
  | EmptyString => EmptyString
  | String c s' =>
      if String.eqb s "()" then EmptyString
      else String c (dropTrailingParens s')
  end.

(** [s.replace(/^\./, "")]: a leading dot is removed. *)
Definition dropLeadingDot (s : string) : string :=
  match s with
  | String "."%char s' => s'
  | _ => s
  end.

(** [s[i]] for a string: the character at index [i] or [undefined]. *)
Definition charAt (s : string) (i : nat) : option Ascii.ascii := String.get i s.

End Js.
Import Js.

(** ** Shared data: locations, discovered test items, the package *)

Record Position := { line : Z; character : Z }.
Record Range := { range_start : Position; range_end : Position }.

(** [vscode.Location]; the uri is represented by its [fsPath]. *)
Record Location := { fsPath : string; range : Range }.

(** The location as the language server sends it (a document uri). *)
Record LSPLocation := { lsp_uri : string; lsp_range : Range }.

(** [LSPTestItem] (sourcekit-lsp/lspExtensions): tags are [{ id }] objects
    and are represented by their id. *)
Inductive LSPTestItem : Type := mkLSPTestItem {
  lsp_id : string;
  lsp_label : string;
  lsp_disabled : bool;
  lsp_style : string;
  lsp_location : LSPLocation;
  lsp_children : list LSPTestItem;
  lsp_tags : list string
}.

(** [TestClass] (TestDiscovery.ts): an [LSPTestItem] whose location is an
    optional [vscode.Location] and whose children are [TestClass]es. *)
Inductive TestClass : Type := mkTestClass {
  tc_id : string;
  tc_label : string;
  tc_disabled : bool;
  tc_style : string;
  tc_location : option Location;
  tc_children : list TestClass;
  tc_tags : list string
}.

Inductive TargetType : Type := executable | test | library.

#[global] Instance TargetType_eq_dec : EqDecision TargetType.
Proof. solve_decision. Defined.

(** [Target] (SwiftPackage.ts). *)
Record Target := {
  name : string;
  path : string;
  sources : list string;
  type : TargetType
}.

(** The part of [SwiftPackage] that the test explorer reads. Targets are
    objects compared by reference in the source; a target is identified
    here by its position in [targets]. *)
Record SwiftPackage := {
  targets : list Target
}.

(** [SwiftPackage.getTargets(type)]: the targets of one type, each with its
    identity. *)
Definition getTargets (pkg : SwiftPackage) (ty : TargetType) : list (nat * Target) :=
  List.filter (λ it, bool_decide (type it.2 = ty)) (imap pair (targets pkg)).

(** ** LSPTestDiscovery.ts *)

Module LSPTestDiscovery.

(** The entry of [capabilities.experimental] for one request method. *)
Record TestCapability := { version : option Z }.

(** The language client as the discovery code reads it:
    [client.initializeResult?.capabilities.experimental[method]].
    [initializeResult] is absent before the server has answered;
    [capabilities.experimental] is an optional member of the server's
    capabilities, an object from method names to capability entries when
    it is there. *)
Record InitializeResult := { experimental : option (gmap string TestCapability) }.
Record LanguageClient := { initializeResult : option InitializeResult }.

Definition notSupported : JsError :=
  ErrorObject "workspace/tests requests not supported".

(** Reading a property of [undefined]. *)
Definition cannotRead (property : string) : JsError :=
  TypeErrorObject ("Cannot read properties of undefined (reading '" +:+ property +:+ "')").

(** [workspaceTestCaps?.version >= 2]: [undefined >= 2] is false. *)
Definition versionAtLeast2 (caps : option TestCapability) : bool :=
  match caps with
  | Some c => match version c with
              | Some v => bool_decide (2 ≤ v)
              | None => false
              end
  | None => false
  end.

(** [client.initializeResult?.capabilities.experimental[method]]: the
    optional chain gives [undefined] without an [initializeResult]; with
    one, [experimental] is indexed, which throws when it is [undefined]. *)
Definition capabilityFor (client : LanguageClient) (method : string)
  : Completion (option TestCapability) :=
  match initializeResult client with
  | Some r =>
      match experimental r with
      | Some capabilities => Returned (capabilities !! method)
      | None => Thrown (cannotRead method)
      end
  | None => Returned None
  end.

Section Discovery.

(** Collaborators that are not part of the repository's sources:
    - the method names of the two requests,
    - [protocol2CodeConverter.asLocation],
    - [SwiftPackage.getTarget(file)], which returns the target owning a
      file (as its identity) or [undefined],
    - node's [path.relative]. *)
Variable textDocumentTestsMethod : string.
Variable workspaceTestsMethod : string.
Variable asLocation : LSPLocation → Location.
Variable getTarget : SwiftPackage → string → option nat.
Variable path_relative : string → string → string.

(** [isPathInsidePath]: true unless the relative path starts with [".."]. *)
Definition isPathInsidePath (subfolder folder : string) : bool :=
  let relativePath := path_relative folder subfolder in
  negb (bool_decide (charAt relativePath 0 = Some "."%char))
  || negb (bool_decide (charAt relativePath 1 = Some "."%char)).

(** [transformId]. *)
Definition transformId (item : LSPTestItem) (location : Location)
    (swiftPackage : SwiftPackage) : string :=
  if String.eqb (lsp_style item) "XCTest" then
    let target :=
      List.find (λ it, bool_decide (getTarget swiftPackage (fsPath location) = Some it.1))
                (getTargets swiftPackage test) in
    let id := match target with
              | Some it => name it.2 +:+ "."
              | None => ""
              end in
    id +:+ dropTrailingParens (lsp_id item)
  else lsp_id item.

(** [transform]: the items converted recursively, ids rewritten. *)
Fixpoint transform (swiftPackage : SwiftPackage) (item : LSPTestItem) : TestClass :=
  let location := asLocation (lsp_location item) in
  {| tc_id := transformId item location swiftPackage;
     tc_label := lsp_label item;
     tc_disabled := lsp_disabled item;
     tc_style := lsp_style item;
     tc_location := Some location;
     tc_children := List.map (transform swiftPackage) (lsp_children item);
     tc_tags := lsp_tags item |}.

Definition transformAll (swiftPackage : SwiftPackage) (input : list LSPTestItem)
  : list TestClass :=
  List.map (transform swiftPackage) input.

(** [getDocumentTests]: the body run with the language client.
    [sendRequest] is the outcome of the [textDocument/tests] request, used
    only when the request is made. *)
Definition getDocumentTests (client : LanguageClient)
    (sendRequest : Completion (list LSPTestItem))
    (swiftPackage : SwiftPackage) : Completion (list TestClass) :=
  match capabilityFor client textDocumentTestsMethod with
  | Thrown e => Thrown e
  | Returned workspaceTestCaps =>
      if versionAtLeast2 workspaceTestCaps then
        match sendRequest with
        | Returned testsInDocument =>
            Returned (transformAll swiftPackage testsInDocument)
        | Thrown e => Thrown e
        end
      else Thrown notSupported
  end.

(** [getWorkspaceTests]: as above, with the items outside the workspace
    root filtered out first. *)
Definition getWorkspaceTests (client : LanguageClient)
    (sendRequest : Completion (list LSPTestItem))
    (swiftPackage : SwiftPackage) (workspaceRoot : string)
  : Completion (list TestClass) :=
  match capabilityFor client workspaceTestsMethod with
  | Thrown e => Thrown e
  | Returned workspaceTestCaps =>
      if versionAtLeast2 workspaceTestCaps then
        match sendRequest with
        | Returned tests =>
            let testsInWorkspace :=
              List.filter (λ item,
                isPathInsidePath (fsPath (asLocation (lsp_location item)))
                                 workspaceRoot)
                tests in
            Returned (transformAll swiftPackage testsInWorkspace)
        | Thrown e => Thrown e
        end
      else Thrown notSupported
  end.

End Discovery.

End LSPTestDiscovery.

(** ** The catalog: vscode.TestItem *)

(** [vscode.TestItem]. [ref] is the identity of the object: it is chosen by
    [createTestItem] and never changes, so two items with the same [ref] are
    the same object. [uri] is the [fsPath] of the item's uri; tags are
    represented by their id. [children] is the item's
    [TestItemCollection], in insertion order. *)
Inductive TestItem : Type := mkTestItem {
  ref : nat;
  id : string;
  uri : option string;
  label : string;
  tags : list string;
  item_range : option Range;
  children : list TestItem
}.

(** [vscode.TestMessage]. *)
Record TestMessage := { message : string; msg_location : option Location }.

(** ** TestRunner.ts: the test item finders *)

Module DarwinTestItemFinder.

Definition getIndex (testItems : list TestItem) (id_ : string) : Z :=
  findIndex (λ item, String.eqb (id item) id_) testItems.

End DarwinTestItemFinder.

Module NonDarwinTestItemFinder.

Section Finder.

(** [item.parent] as the tree has it when the lookup is made, node's
    [path.join] and [path.relative], and the folder of the package. *)
Variable parent : TestItem → option TestItem.
Variable path_join : string → string → string.
Variable path_relative : string → string → string.
Variable folder : string.
Variable swiftPackage : SwiftPackage.

(** [isTestWithFilenameInTarget]. *)
Definition isTestWithFilenameInTarget (testName filename : string) (item : TestItem)
  : bool :=
  if negb (endsWith (id item) testName) then false
  else
    match parent item ≫= parent with
    | None => false
    | Some targetTestItem =>
        match List.find (λ t, String.eqb (label targetTestItem) (name t))
                        (targets swiftPackage) with
        | Some target =>
            let fileErrorIsIn := filename in
            let targetPath := path_join folder (path target) in
            let relativePath := path_relative targetPath fileErrorIsIn in
            match List.find (λ source, String.eqb source relativePath)
                            (sources target) with
            | Some _ => true
            | None => false
            end
        | None => false
        end
    end.

(** A [filename] is used only when it is truthy: present and not empty. *)
Definition truthy (filename : option string) : option string :=
  match filename with
  | Some EmptyString => None
  | other => other
  end.

(** [getIndex]. *)
Definition getIndex (testItems : list TestItem) (id_ : string)
    (filename : option string) : Z :=
  let testIndex :=
    match truthy filename with
    | Some f => findIndex (isTestWithFilenameInTarget id_ f) testItems
    | None => -1
    end in
  if bool_decide (testIndex = -1)
  then findIndex (λ item, endsWith (id item) id_) testItems
  else testIndex.

End Finder.

End NonDarwinTestItemFinder.

(** ** TestRunner.ts: TestRunProxy *)

(** What reaches the [vscode.TestRun] once it has been created. A test item
    read from [testItems] at an index out of range is [undefined]. *)
Inductive SinkEvent : Type :=
| SinkEnqueued (test : TestItem)
| SinkStarted (test : option TestItem)
| SinkSkipped (test : option TestItem)
| SinkPassed (test : option TestItem) (duration : float)
| SinkFailed (test : option TestItem) (messages : list TestMessage) (duration : float)
| SinkErrored (test : option TestItem) (messages : list TestMessage) (duration : float)
| SinkAppendOutput (output : string)
| SinkEnd.

(** The state of a [TestRunProxy]. [testRun] is the [vscode.TestRun], absent
    until [testRunStarted] creates it, represented by the calls made on it
    so far. [endCalls] is a ghost counter of the invocations of the proxy's
    own [end()]. *)
Record TestRunProxy := {
  testRun : option (list SinkEvent);
  runStarted : bool;
  queuedOutput : list string;
  testItems : list TestItem;
  failedItems : list (option TestItem);
  passedItems : list (option TestItem);
  skippedItems : list (option TestItem);
  erroredItems : list (option TestItem);
  endCalls : nat
}.

Module TestRunProxy.

(** The proxy as its constructor leaves it. *)
Definition create (items : list TestItem) : TestRunProxy :=
  {| testRun := None; runStarted := false; queuedOutput := [];
     testItems := items; failedItems := []; passedItems := [];
     skippedItems := []; erroredItems := []; endCalls := 0 |}.

(** [this.testRun?.method(...)]. *)
Definition send (ev : SinkEvent) (p : TestRunProxy) : TestRunProxy :=
  {| testRun := (λ evs, evs ++ [ev]) <$> testRun p;
     runStarted := runStarted p; queuedOutput := queuedOutput p;
     testItems := testItems p; failedItems := failedItems p;
     passedItems := passedItems p; skippedItems := skippedItems p;
     erroredItems := erroredItems p; endCalls := endCalls p |}.

Definition started (test : option TestItem) (p : TestRunProxy) : TestRunProxy :=
  send (SinkStarted test) p.

Definition skipped (test : option TestItem) (p : TestRunProxy) : TestRunProxy :=
  send (SinkSkipped test)
    {| testRun := testRun p; runStarted := runStarted p;
       queuedOutput := queuedOutput p; testItems := testItems p;
       failedItems := failedItems p; passedItems := passedItems p;
       skippedItems := skippedItems p ++ [test];
       erroredItems := erroredItems p; endCalls := endCalls p |}.

Definition passed (test : option TestItem) (duration : float) (p : TestRunProxy)
  : TestRunProxy :=
  send (SinkPassed test duration)
    {| testRun := testRun p; runStarted := runStarted p;
       queuedOutput := queuedOutput p; testItems := testItems p;
       failedItems := failedItems p; passedItems := passedItems p ++ [test];
       skippedItems := skippedItems p;
       erroredItems := erroredItems p; endCalls := endCalls p |}.

Definition failed (test : option TestItem) (messages : list TestMessage)
    (duration : float) (p : TestRunProxy) : TestRunProxy :=
  send (SinkFailed test messages duration)
    {| testRun := testRun p; runStarted := runStarted p;
       queuedOutput := queuedOutput p; testItems := testItems p;
       failedItems := failedItems p ++ [test]; passedItems := passedItems p;
       skippedItems := skippedItems p;
       erroredItems := erroredItems p; endCalls := endCalls p |}.

Definition errored (test : option TestItem) (messages : list TestMessage)
    (duration : float) (p : TestRunProxy) : TestRunProxy :=
  send (SinkErrored test messages duration)
    {| testRun := testRun p; runStarted := runStarted p;
       queuedOutput := queuedOutput p; testItems := testItems p;
       failedItems := failedItems p; passedItems := passedItems p;
       skippedItems := skippedItems p;
       erroredItems := erroredItems p ++ [test]; endCalls := endCalls p |}.

(** [appendOutput]: forwarded to the run, or queued until there is one. *)
Definition appendOutput (output : string) (p : TestRunProxy) : TestRunProxy :=
  match testRun p with
  | Some _ => send (SinkAppendOutput output) p
  | None =>
      {| testRun := testRun p; runStarted := runStarted p;
         queuedOutput := queuedOutput p ++ [output]; testItems := testItems p;
         failedItems := failedItems p; passedItems := passedItems p;
         skippedItems := skippedItems p;
         erroredItems := erroredItems p; endCalls := endCalls p |}
  end.

(** [testRunStarted]: creates the run once, forwards the queued output and
    enqueues every test item. [added] are the test items made for the
    parameterized test cases registered so far. *)
Definition testRunStarted (added : list TestItem) (p : TestRunProxy) : TestRunProxy :=
  if runStarted p then p
  else
    let items := testItems p ++ added in
    {| testRun := Some ((SinkAppendOutput <$> queuedOutput p)
                        ++ (SinkEnqueued <$> items));
       runStarted := true; queuedOutput := [];
       testItems := items; failedItems := failedItems p;
       passedItems := passedItems p; skippedItems := skippedItems p;
       erroredItems := erroredItems p; endCalls := endCalls p |}.

(** [end]: nothing to do without a run; otherwise the coverage is computed
    (a collaborator that may throw, [computeCoverage] is its outcome) and the
    run is ended. *)
Definition end_ (computeCoverage : Completion unit) (p : TestRunProxy)
  : Completion unit * TestRunProxy :=
  let p := {| testRun := testRun p; runStarted := runStarted p;
              queuedOutput := queuedOutput p; testItems := testItems p;
              failedItems := failedItems p; passedItems := passedItems p;
              skippedItems := skippedItems p;
              erroredItems := erroredItems p; endCalls := S (endCalls p) |} in
  match testRun p with
  | None => (Returned (), p)
  | Some _ =>
      match computeCoverage with
      | Thrown e => (Thrown e, p)
      | Returned _ => (Returned (), send SinkEnd p)
      end
  end.

End TestRunProxy.

(** ** TestRunner.ts: TestRunnerTestRunState *)

(** The [timing] argument of [completed]: [{ duration }] or [{ timestamp }]. *)
Inductive Timing : Type :=
| Duration (duration : float)
| Timestamp (timestamp : float).

Record TestRunnerTestRunState := {
  proxy : TestRunProxy;
  currentTestItem : option TestItem;
  lastTestItem : option TestItem;
  startTimes : gmap Z (option float);
  issues : gmap Z (list TestMessage)
}.

Module TestRunnerTestRunState.

Definition create (p : TestRunProxy) : TestRunnerTestRunState :=
  {| proxy := p; currentTestItem := None; lastTestItem := None;
     startTimes := ∅; issues := ∅ |}.

(** [testItems[index]]: [undefined] out of range. *)
Definition itemAt (testItems_ : list TestItem) (index : Z) : option TestItem :=
  if bool_decide (0 ≤ index) then testItems_ !! Z.to_nat index else None.

(** [started(index, startTime?)]. *)
Definition started (index : Z) (startTime : option float) (s : TestRunnerTestRunState)
  : TestRunnerTestRunState :=
  let testItem := itemAt (testItems (proxy s)) index in
  {| proxy := TestRunProxy.started testItem (proxy s);
     currentTestItem := testItem;
     lastTestItem := lastTestItem s;
     startTimes := <[index := startTime]> (startTimes s);
     issues := issues s |}.

Definition timestampWithoutStart : JsError :=
  ErrorObject "Timestamp was provided on test completion, but there was no startTime set when the test was started.".

(** The duration [completed] reports: a timestamp needs the start time saved
    by [started]. The subtraction and the multiplication are those of
    doubles, each rounded to the nearest double. *)
Definition completedDuration (startTime : option float) (timing : Timing)
  : Completion float :=
  match timing with
  | Timestamp timestamp =>
      match startTime with
      | None => Thrown timestampWithoutStart
      | Some startTime => Returned ((timestamp - startTime) * 1000)%float
      end
  | Duration duration => Returned (duration * 1000)%float
  end.

(** [completed(index, timing)]. *)
Definition completed (index : Z) (timing : Timing) (s : TestRunnerTestRunState)
  : Completion unit * TestRunnerTestRunState :=
  let test := itemAt (testItems (proxy s)) index in
  let startTime := mjoin (startTimes s !! index) in
  match completedDuration startTime timing with
  | Thrown e => (Thrown e, s)
  | Returned duration =>
      let issueList := default [] (issues s !! index) in
      let p := if bool_decide (0 < length issueList)%nat
               then TestRunProxy.failed test issueList duration (proxy s)
               else TestRunProxy.passed test duration (proxy s) in
      (Returned (),
       {| proxy := p;
          currentTestItem := None;
          lastTestItem := currentTestItem s;
          startTimes := startTimes s;
          issues := issues s |})
  end.

(** [recordIssue(index, message, location?)]. *)
Definition recordIssue (index : Z) (msg : string) (location : option Location)
    (s : TestRunnerTestRunState) : TestRunnerTestRunState :=
  let issueList := default [] (issues s !! index) in
  {| proxy := proxy s; currentTestItem := currentTestItem s;
     lastTestItem := lastTestItem s; startTimes := startTimes s;
     issues := <[index := issueList ++ [{| message := msg; msg_location := location |}]]>
                 (issues s) |}.

(** [skipped(index)]. *)
Definition skipped (index : Z) (s : TestRunnerTestRunState) : TestRunnerTestRunState :=
  {| proxy := TestRunProxy.skipped (itemAt (testItems (proxy s)) index) (proxy s);
     currentTestItem := None;
     lastTestItem := currentTestItem s;
     startTimes := startTimes s;
     issues := issues s |}.

End TestRunnerTestRunState.

(** ** TestDiscovery.ts *)

(** [vscode.TestController]: the root [items] collection, and the identity
    the next [createTestItem] hands out. *)
Record TestController := {
  items : list TestItem;
  nextRef : nat
}.

(** [vscode.TestItemCollection], in insertion order; ids are unique within a
    collection because the collection is keyed by id. *)
Module TestItemCollection.

Definition get (collection : list TestItem) (id_ : string) : option TestItem :=
  List.find (λ e, String.eqb (id e) id_) collection.

(** [add]: an item whose id is already there takes the place of the old
    entry, a new id goes last. *)
Fixpoint add (item : TestItem) (collection : list TestItem) : list TestItem :=
  match collection with
  | [] => [item]
  | e :: rest =>
      if String.eqb (id e) (id item) then item :: rest
      else e :: add item rest
  end.

End TestItemCollection.

Module TestDiscovery.

Import TestItemCollection.

(** [testController.createTestItem(id, label, uri)]. *)
Definition createTestItem (r : nat) (id_ label_ : string) (uri_ : option string)
  : TestItem :=
  {| ref := r; id := id_; uri := uri_; label := label_; tags := [];
     item_range := None; children := [] |}.

(** [!filterFile || location?.uri.fsPath === filterFile.fsPath]. *)
Definition inFilterFile (filterFile : option string) (file : option string) : bool :=
  match filterFile with
  | None => true
  | Some f => bool_decide (file = Some f)
  end.

(** [createIncomingTestLookup]: [traverse] records an item under its id and
    descends, unless a filter file is given and the item is not in it. *)
Fixpoint traverse (filterFile : option string) (testItem : TestClass)
    (dictionary : gmap string TestClass) : gmap string TestClass :=
  if inFilterFile filterFile (fsPath <$> tc_location testItem) then
    fold_left (λ d item, traverse filterFile item d) (tc_children testItem)
              (<[tc_id testItem := testItem]> dictionary)
  else dictionary.

Definition createIncomingTestLookup (collection : list TestClass)
    (filterFile : option string) : gmap string TestClass :=
  fold_left (λ d item, traverse filterFile item d) collection ∅.

(** The condition under which [removeOldTests] deletes an item. *)
Definition shouldRemove (incomingTestsLookup : gmap string TestClass)
    (filterFile : option string) (testItem : TestItem) : bool :=
  negb (bool_decide (is_Some (incomingTestsLookup !! id testItem)))
  && inFilterFile filterFile (uri testItem).

Definition withChildren (testItem : TestItem) (kids : list TestItem) : TestItem :=
  {| ref := ref testItem; id := id testItem; uri := uri testItem;
     label := label testItem; tags := tags testItem;
     item_range := item_range testItem; children := kids |}.

(** [removeOldTests]: the children are visited first (each may be deleted
    from this item's collection), then the item itself is deleted from the
    collection that holds it when [shouldRemove] says so. The result is the
    item as it is afterwards, or [None] when it was deleted, and the items
    deleted on the way, in the order of the ["Removing test"] log lines.
    Ids are unique within a collection, so [delete(testItem.id)] removes the
    visited item and nothing else. *)
Fixpoint removeOldTests (incomingTestsLookup : gmap string TestClass)
    (filterFile : option string) (testItem : TestItem)
  : option TestItem * list TestItem :=
  let visited := List.map (removeOldTests incomingTestsLookup filterFile)
                          (children testItem) in
  let testItem' := withChildren testItem (omap fst visited) in
  let removed := concat (List.map snd visited) in
  if shouldRemove incomingTestsLookup filterFile testItem
  then (None, removed ++ [testItem'])
  else (Some testItem', removed).

(** [collection.forEach(removeOldTests)]. *)
Definition removeOldTestsIn (incomingTestsLookup : gmap string TestClass)
    (filterFile : option string) (collection : list TestItem)
  : list TestItem * list TestItem :=
  let visited := List.map (removeOldTests incomingTestsLookup filterFile) collection in
  (omap fst visited, concat (List.map snd visited)).

(** The fields [upsertTestItem] writes on the item it found or created. The
    item is an object: the upserts of the children change its [children] in
    place, so the collection ends up holding it with [kids]. *)
Definition updated (testItem : TestClass) (newItem : TestItem)
    (kids : list TestItem) : TestItem :=
  {| ref := ref newItem; id := id newItem; uri := uri newItem;
     label := tc_label testItem;
     tags := tc_style testItem :: List.map dropLeadingDot (tc_tags testItem);
     item_range := range <$> tc_location testItem;
     children := kids |}.

(** [upsertTestItem(testController, testItem, parent)], on the collection it
    works on ([testController.items] or [parent.children]) and the
    controller's next identity. *)
Fixpoint upsertTestItem (testItem : TestClass) (st : list TestItem * nat)
  : list TestItem * nat :=
  if String.eqb (tc_style testItem) "swift-testing" then st
  else
    let found := get st.1 (tc_id testItem) in
    let newItem :=
      default (createTestItem st.2 (tc_id testItem) (tc_label testItem)
                              (fsPath <$> tc_location testItem)) found in
    let n := match found with Some _ => st.2 | None => S st.2 end in
    let below := fold_left (λ acc child, upsertTestItem child acc)
                           (tc_children testItem) (children newItem, n) in
    (add (updated testItem newItem below.1) st.1, below.2).

Definition upsertAll (testItems : list TestClass) (st : list TestItem * nat)
  : list TestItem * nat :=
  fold_left (λ acc testItem, upsertTestItem testItem acc) testItems st.

(** [updateTests(testController, testItems, filterFile)]: the controller
    afterwards and the items removed. *)
Definition updateTests (testController : TestController)
    (testItems : list TestClass) (filterFile : option string)
  : TestController * list TestItem :=
  let incomingTestsLookup := createIncomingTestLookup testItems None in
  let pruned :=
    if bool_decide (length (items testController) ≠ 0%nat)
    then removeOldTestsIn incomingTestsLookup filterFile (items testController)
    else (items testController, []) in
  let upserted := upsertAll testItems (pruned.1, nextRef testController) in
  let refreshed := fold_left (λ c item, add item c) upserted.1 upserted.1 in
  ({| items := refreshed; nextRef := upserted.2 |}, pruned.2).

(** [updateTestsFromClasses]: one [TestClass] per test target, holding the
    items located in it. [getTarget] is [SwiftPackage.getTarget]. *)
Definition updateTestsFromClasses (getTarget : SwiftPackage → string → option nat)
    (swiftPackage : SwiftPackage) (testController : TestController)
    (testItems : list TestClass) : TestController * list TestItem :=
  let targets :=
    List.map (λ target : nat * Target,
      let filteredItems :=
        List.filter (λ testItem,
          match tc_location testItem with
          | Some location =>
              bool_decide (getTarget swiftPackage (fsPath location) = Some target.1)
          | None => false
          end) testItems in
      {| tc_id := name target.2; tc_label := name target.2;
         tc_disabled := false; tc_style := "test-target";
         tc_location := None; tc_children := filteredItems; tc_tags := [] |})
      (getTargets swiftPackage test) in
  updateTests testController targets None.

End TestDiscovery.

(** ** TestRunner.ts: the run coordinator *)

Module TestRunner.

Inductive TestKind : Type := standard | parallel | coverage.

#[global] Instance TestKind_eq_dec : EqDecision TestKind.
Proof. solve_decision. Defined.

Inductive Platform : Type := darwin | win32 | linux.

#[global] Instance Platform_eq_dec : EqDecision Platform.
Proof. solve_decision. Defined.

(** *** Asynchronous code over the run state

    An awaited computation resolves, rejects, or stays pending for ever
    (a spawned process or a debug session that never ends). The state it
    works on is the run state of [runHandler], which holds the proxy. *)

Inductive Outcome (A : Type) : Type :=
| Resolved (a : A)
| Rejected (e : JsError)
| Pending.
Arguments Resolved {A} a.
Arguments Rejected {A} e.
Arguments Pending {A}.

Definition M (A : Type) : Type :=
  TestRunnerTestRunState → Outcome A * TestRunnerTestRunState.

#[global] Instance M_ret : MRet M := λ A a s, (Resolved a, s).

#[global] Instance M_bind : MBind M := λ A B f m s,
  match m s with
  | (Resolved a, s') => f a s'
  | (Rejected e, s') => (Rejected e, s')
  | (Pending, s') => (Pending, s')
  end.

Definition throw {A : Type} (e : JsError) : M A := λ s, (Rejected e, s).

Definition pending {A : Type} : M A := λ s, (Pending, s).

(** [try { body } catch (error) { handler(error) }]. *)
Definition tryCatch {A : Type} (body : M A) (handler : JsError → M A) : M A :=
  λ s, match body s with
       | (Rejected e, s') => handler e s'
       | other => other
       end.

(** The outcome of awaiting a collaborator. *)
Definition await {A : Type} (o : Completion A) : M A :=
  match o with
  | Returned a => mret a
  | Thrown e => throw e
  end.

(** A step that changes the run state and cannot fail. *)
Definition modify (f : TestRunnerTestRunState → TestRunnerTestRunState) : M unit :=
  λ s, (Resolved (), f s).

(** A call on the proxy. *)
Definition onProxy (f : TestRunProxy → TestRunProxy) : M unit :=
  λ s, (Resolved (),
        {| proxy := f (proxy s); currentTestItem := currentTestItem s;
           lastTestItem := lastTestItem s; startTimes := startTimes s;
           issues := issues s |}).

Definition appendOutput (output : string) : M unit :=
  onProxy (TestRunProxy.appendOutput output).

(** [await this.testRun.end()]. *)
Definition endRun (computeCoverage : nat → Completion unit) : M unit :=
  λ s, let r := TestRunProxy.end_ (computeCoverage (endCalls (proxy s))) (proxy s) in
       (match r.1 with Returned a => Resolved a | Thrown e => Rejected e end,
        {| proxy := r.2; currentTestItem := currentTestItem s;
           lastTestItem := lastTestItem s; startTimes := startTimes s;
           issues := issues s |}).

(** *** What the output parsers do

    The parsers are handed the run state and can only call its
    [ITestRunState] methods. *)
Inductive RunStateCall : Type :=
| CallStarted (index : Z) (startTime : option float)
| CallCompleted (index : Z) (timing : Timing)
| CallRecordIssue (index : Z) (msg : string) (location : option Location)
| CallSkipped (index : Z).

Definition applyCall (c : RunStateCall) (s : TestRunnerTestRunState)
  : Completion unit * TestRunnerTestRunState :=
  match c with
  | CallStarted index startTime =>
      (Returned (), TestRunnerTestRunState.started index startTime s)
  | CallCompleted index timing => TestRunnerTestRunState.completed index timing s
  | CallRecordIssue index msg location =>
      (Returned (), TestRunnerTestRunState.recordIssue index msg location s)
  | CallSkipped index => (Returned (), TestRunnerTestRunState.skipped index s)
  end.

(** The calls a parser makes for one text, in order. A call that throws
    ends the parsing: the exception leaves the parser, the calls after it
    are not made. *)
Fixpoint applyCalls (cs : list RunStateCall) (s : TestRunnerTestRunState)
  : Completion unit * TestRunnerTestRunState :=
  match cs with
  | [] => (Returned (), s)
  | c :: cs' =>
      match applyCall c s with
      | (Returned _, s') => applyCalls cs' s'
      | (Thrown e, s') => (Thrown e, s')
      end
  end.

(** [parser.parseResult(text, runState)], by the calls the parser makes on
    the run state it is handed. *)
Definition parseResult (calls : TestRunnerTestRunState → list RunStateCall) : M unit :=
  λ s, match applyCalls (calls s) s with
       | (Returned _, s') => (Resolved (), s')
       | (Thrown e, s') => (Rejected e, s')
       end.

Definition CRLF : string := String "013"%char (String "010"%char "").

(** [text.replace(/\n/g, "\r\n")]. *)
Fixpoint crlf (text : string) : string :=
  match text with
  | EmptyString => EmptyString
  | String c rest =>
      if Ascii.eqb c "010"%char
      then String "013"%char (String "010"%char (crlf rest))
      else String c (crlf rest)
  end.

(** [str.replace(pattern, "")] for a non-empty literal pattern: the first
    occurrence is removed. *)
Fixpoint removeFirst (pattern str : string) : string :=
  match str with
  | EmptyString => EmptyString
  | String c rest =>
      if String.prefix pattern str
      then String.substring (String.length pattern)
                            (String.length str - String.length pattern) str
      else String c (removeFirst pattern rest)
  end.

(** What happens while a spawned test process runs: output, an error of
    the process, its end, and, for swift-testing, event lines read from the
    named pipe. *)
Inductive SessionEvent : Type :=
| DidWrite (str : string)
| DidThrowError (message : string)
| DidClose (code : option Z)
| PipeData (chunk : string).

(** One debug session as the debugger reports it. *)
Inductive StartDebugging : Type :=
| Started
| NotStarted
| StartRejected (reason : JsError).

Record DebugRun := {
  startDebugging : StartDebugging;
  consoleOutput : list string;
  terminated : bool
}.

Record XUnitResults := { tests : Z; failures : Z; errors : Z }.

Inductive XUnitCall : Type :=
| PassTest (id_ : string) (duration : float)
| FailTest (id_ : string) (duration : float) (msg : option string)
| SkipTest (id_ : string).

(** *** The collaborators of one run

    Everything [runHandler] consumes from outside the class: the build
    queue, the launch configurations, the spawned processes, the debugger,
    the parsers, the coverage collaborator, the report file. A launch
    configuration matters only by being [null] or not. *)
Record Env := {
  platform : Platform;
  now : string;
  getErrorDescription : JsError → string;
  numberToString : Z → string;
  diagnostics : bool;
  hasSwiftTestingTests : bool;
  hasXCTests : bool;
  getBuildAllTask : Completion unit;
  queueOperation : Completion (option Z);
  mkfifo : Completion unit;
  swiftTestingConfig : option unit;
  xcTestConfig : option unit;
  cancelledBeforeSwiftTesting : bool;
  cancelledBeforeXCTest : bool;
  watch : Completion unit;
  swiftTestingProcess : list SessionEvent;
  xcTestProcess : list SessionEvent;
  xcTestParse : string → TestRunnerTestRunState → list RunStateCall;
  swiftTestingParse : string → TestRunnerTestRunState → list RunStateCall;
  addedTestItems : list TestItem;
  captureCoverage : Completion unit;
  computeCoverage : nat → Completion unit;
  readReport : Completion string;
  parseReport : string → Completion (list XUnitCall * option XUnitResults);
  getIndex : list TestItem → string → Z;
  debugRuns : nat → DebugRun
}.

Section Run.

Variable env : Env.

(** ["> Test run started at ${new Date().toLocaleString()} <\r\n\r\n"]. *)
Definition startedLine : string :=
  "> Test run started at " +:+ now env +:+ " <" +:+ CRLF +:+ CRLF.

(** ["\r\nError: ${getErrorDescription(error)}"]. *)
Definition errorText (e : JsError) : string :=
  CRLF +:+ "Error: " +:+ getErrorDescription env e.

(** [error !== 1]. *)
Definition isNot1 (e : JsError) : bool := negb (bool_decide (e = ThrownNumber 1)).

(** [!code]: [undefined] and [0] are falsy. *)
Definition falsy (code : option Z) : bool :=
  match code with
  | None => true
  | Some c => bool_decide (c = 0)
  end.

(** The [write] callbacks of the two output streams of [runSession], up to
    their [next()]: both forward the text to the run; the XCTest one then
    parses it. A callback resolves when it reaches its [next()]; the one of
    the XCTest stream rejects when the parser throws, and [next()] is then
    not called. *)
Definition outputStream (text : string) : M unit :=
  appendOutput (crlf text).

Definition parsedOutputStream (text : string) : M unit :=
  _ ← appendOutput (crlf text);
  parseResult (xcTestParse env text).

(** A line of events from the pipe: the first one starts the run. An
    exception of the parser surfaces in the reader of the pipe, which is
    not awaited: it reaches no promise of the run, and the next line is
    handled as usual. *)
Definition pipeData (chunk : string) : M unit :=
  _ ← onProxy (TestRunProxy.testRunStarted (addedTestItems env));
  tryCatch (parseResult (swiftTestingParse env chunk)) (λ _, mret ()).

(** [runStandardSession] while the process runs, for an output stream made
    with the callback [write]. [outputStream.write(chunk)] runs the callback
    at once, unless a callback is still under way ([writing]): a
    [stream.Writable] is busy from the call of its callback until the
    callback calls [next()], and buffers what is written to it meanwhile. A
    callback that throws before its [next()] therefore leaves the stream
    busy for good: the exception leaves the [onDidWrite] handler and
    surfaces in the emitter of the process, which is not awaited, and every
    later chunk is buffered and reaches neither the run nor the parser.

    The promise settles with the first error or close of the process (a
    close resolves it for a falsy code and rejects it with the code
    otherwise); nothing awaits what the process does after that, and
    [didError] only silences the close that follows an error. Without either
    event the promise stays pending. *)
Fixpoint runStandardSessionFrom (write : string → M unit) (writing : bool)
    (events : list SessionEvent) : M unit :=
  match events with
  | [] => pending
  | DidWrite str :: rest =>
      if writing then runStandardSessionFrom write true rest
      else
        λ s, match write (removeFirst "[1/1] Planning build" str) s with
             | (Resolved _, s') => runStandardSessionFrom write false rest s'
             | (_, s') => runStandardSessionFrom write true rest s'
             end
  | PipeData chunk :: rest =>
      _ ← pipeData chunk;
      runStandardSessionFrom write writing rest
  | DidThrowError message :: _ => throw (ErrorObject message)
  | DidClose code :: _ =>
      if falsy code then mret ()
      else throw (ThrownNumber (default 0 code))
  end.

(** [runStandardSession]. The stream it is handed has just been made by
    [runSession] and nothing has been written to it: it is given by its
    callback. *)
Definition runStandardSession (write : string → M unit) (events : list SessionEvent)
  : M unit :=
  runStandardSessionFrom write false events.

(** [runCoverageSession]. *)
Definition runCoverageSession (write : string → M unit) (events : list SessionEvent)
  : M unit :=
  _ ← tryCatch (runStandardSession write events)
               (λ error, if isNot1 error then throw error else mret ());
  await (captureCoverage env).

(** The three methods of [TestRunnerXUnitTestState]. *)
Definition applyXUnitCall (testItems_ : list TestItem) (c : XUnitCall)
    (p : TestRunProxy) : TestRunProxy :=
  match c with
  | PassTest id_ duration =>
      let index := getIndex env testItems_ id_ in
      if bool_decide (index ≠ -1)
      then TestRunProxy.passed (TestRunnerTestRunState.itemAt testItems_ index)
                               duration p
      else p
  | FailTest id_ duration msg =>
      let index := getIndex env testItems_ id_ in
      if bool_decide (index ≠ -1)
      then TestRunProxy.failed
             (TestRunnerTestRunState.itemAt testItems_ index)
             [{| message := default "Failed" msg; msg_location := None |}]
             duration p
      else p
  | SkipTest id_ =>
      let index := getIndex env testItems_ id_ in
      if bool_decide (index ≠ -1)
      then TestRunProxy.skipped (TestRunnerTestRunState.itemAt testItems_ index) p
      else p
  end.

(** The end of [runParallelSession], once the process has ended: the xUnit
    report is read and parsed, the parser calls the xUnit state for every
    test case, and the totals are appended to the output. [requested] are
    the test items of the request ([testArgs.testItems]), in which the xUnit
    state looks ids up. *)
Definition reportResults (requested : list TestItem) : M unit :=
  buffer ← await (readReport env);
  parsed ← await (parseReport env buffer);
  _ ← onProxy (λ p, fold_left (λ p c, applyXUnitCall requested c p) parsed.1 p);
  match parsed.2 with
  | Some results =>
      appendOutput
        (CRLF +:+ "Executed "
         +:+ numberToString env (tests results) +:+ " tests, with "
         +:+ numberToString env (failures results) +:+ " failures and "
         +:+ numberToString env (errors results) +:+ " errors." +:+ CRLF)
  | None => mret ()
  end.

(** [runParallelSession]. *)
Definition runParallelSession (requested : list TestItem)
    (write : string → M unit) (events : list SessionEvent) : M unit :=
  _ ← onProxy (TestRunProxy.testRunStarted (addedTestItems env));
  _ ← tryCatch (runStandardSession write events)
               (λ error, if isNot1 error then throw error else mret ());
  reportResults requested.

(** [launchTests]. The [finally] block ends the output stream, which
    nothing is written to afterwards. *)
Definition launchTests (requested : list TestItem) (testKind : TestKind)
    (write : string → M unit) (events : list SessionEvent) : M unit :=
  _ ← appendOutput startedLine;
  tryCatch
    (match testKind with
     | coverage => runCoverageSession write events
     | parallel => runParallelSession requested write events
     | standard => runStandardSession write events
     end)
    (λ error,
       (* Test failures result in error code 1 *)
       if isNot1 error then appendOutput (errorText error) else mret ()).

(** [runSession]. *)
Definition runSession (requested : list TestItem) (testKind : TestKind) : M unit :=
  _ ← (if hasSwiftTestingTests env then
         _ ← (if bool_decide (platform env ≠ win32) then await (mkfifo env) else mret ());
         match swiftTestingConfig env with
         | None => mret ()
         | Some _ =>
             if cancelledBeforeSwiftTesting env then mret ()
             else
               _ ← await (watch env);
               launchTests requested
                 (if bool_decide (testKind = parallel) then standard else testKind)
                 outputStream (swiftTestingProcess env)
         end
       else mret ());
  if hasXCTests env then
    match xcTestConfig env with
    | None => mret ()
    | Some _ =>
        if cancelledBeforeXCTest env then mret ()
        else
          _ ← onProxy (TestRunProxy.testRunStarted (addedTestItems env));
          launchTests requested testKind parsedOutputStream (xcTestProcess env)
    end
  else mret ().

(** The callback [debugSession] sets on the debug adapter tracker, for the
    output of one session. An exception of the parser leaves the callback
    and surfaces in the tracker; the next output is handled as usual. *)
Fixpoint consoleOutputs (outputs : list string) : M unit :=
  match outputs with
  | [] => mret ()
  | output :: rest =>
      _ ← appendOutput output;
      _ ← tryCatch (parseResult (xcTestParse env output)) (λ _, mret ());
      consoleOutputs rest
  end.

(** One debug run of [debugSession]: the promise resolves when the session
    that started terminates, and rejects when it does not start. *)
Definition debugRun (first : bool) (r : DebugRun) : M unit :=
  match startDebugging r with
  | Started =>
      _ ← (if first then appendOutput startedLine else mret ());
      _ ← consoleOutputs (consoleOutput r);
      if terminated r then mret () else pending
  | NotStarted => throw ThrownUndefined
  | StartRejected reason => throw reason
  end.

(** [debugRuns.reduce((p, fn) => p.then(() => fn()), Promise.resolve())]. *)
Fixpoint runSequentially (i : nat) (count : nat) : M unit :=
  match count with
  | O => mret ()
  | S count' =>
      _ ← debugRun (bool_decide (i = 0%nat)) (debugRuns env i);
      runSequentially (S i) count'
  end.

(** [debugSession]. *)
Definition debugSession : M unit :=
  _ ← (if bool_decide (platform env ≠ win32) then await (mkfifo env) else mret ());
  if hasSwiftTestingTests env then
    swiftConfigs ←
      match swiftTestingConfig env with
      | Some _ =>
          if diagnostics env then
            _ ← await (watch env);
            mret 1%nat
          else mret 0%nat
      | None => mret 0%nat
      end;
    let xcConfigs :=
      if hasXCTests env then
        match xcTestConfig env with Some _ => 1%nat | None => 0%nat end
      else 0%nat in
    runSequentially 0 (swiftConfigs + xcConfigs)
  else mret ().

(** [runHandler]. *)
Definition runHandler (requested : list TestItem) (shouldDebug : bool)
    (testKind : TestKind) : M unit :=
  finished ←
    tryCatch
      (exitCode ←
         (if bool_decide (testKind ≠ coverage) then
            _ ← await (getBuildAllTask env);
            exitCode ← await (queueOperation env);
            mret (Some exitCode)
          else mret None);
       match exitCode with
       | Some code =>
           (* if build failed then exit *)
           if bool_decide (code ≠ Some 0) then
             _ ← endRun (computeCoverage env);
             mret true
           else
             _ ← (if shouldDebug then debugSession else runSession requested testKind);
             mret false
       | None =>
           _ ← (if shouldDebug then debugSession else runSession requested testKind);
           mret false
       end)
      (λ error,
         _ ← appendOutput (errorText error);
         mret false);
  if (finished : bool) then mret () else endRun (computeCoverage env).

End Run.

(** The state in which a new [TestRunner] enters [runHandler]: a proxy just
    constructed, and the run state made from it. *)
Definition initial (requested : list TestItem) : TestRunnerTestRunState :=
  TestRunnerTestRunState.create (TestRunProxy.create requested).

End TestRunner.

(** * Vocabulary of the properties *)

(** [i] is the index of the first element of [l] that satisfies [P]. *)
Definition firstIndex {A : Type} (P : A → Prop) (l : list A) (i : Z) : Prop :=
  0 ≤ i ∧
  ∃ x, l !! Z.to_nat i = Some x ∧ P x ∧
       ∀ (j : nat) y, (j < Z.to_nat i)%nat → l !! j = Some y → ¬ P y.

(** The client advertises version [v] of the capability for [method]. *)
Definition advertises (client : LSPTestDiscovery.LanguageClient) (method : string)
    (v : Z) : Prop :=
  ∃ c, LSPTestDiscovery.capabilityFor client method = Returned (Some c)
       ∧ LSPTestDiscovery.version c = Some v.






(** The target that owns [item] contains the file [filename]: the item's
    grandparent in the tree is labelled with the name of a target of the
    package, and the file, relative to that target's folder, is one of the
    target's sources. *)
Definition owningTargetContains (parent : TestItem → option TestItem)
    (path_join path_relative : string → string → string) (folder : string)
    (swiftPackage : SwiftPackage) (item : TestItem) (filename : string) : Prop :=
  ∃ targetTestItem target,
    parent item ≫= parent = Some targetTestItem
    ∧ List.find (λ t, String.eqb (label targetTestItem) (name t))
                (targets swiftPackage) = Some target
    ∧ path_relative (path_join folder (path target)) filename ∈ sources target.

(** ** Sample data *)

Module Sample.

Definition noRange : Range :=
  {| range_start := {| line := 0; character := 0 |};
     range_end := {| line := 0; character := 0 |} |}.

Definition package : SwiftPackage :=
  {| targets :=
       [ {| name := "Library"; path := "Sources/Library";
            sources := ["Library.swift"]; type := library |};
         {| name := "PackageTests"; path := "Tests/PackageTests";
            sources := ["PassingTests.swift"]; type := test |} ] |}.

Definition getTarget (pkg : SwiftPackage) (file : string) : option nat :=
  if String.eqb file "/pkg/Tests/PackageTests/PassingTests.swift" then Some 1%nat
  else None.

Definition lspItem : LSPTestItem :=
  {| lsp_id := "PassingXCTestSuite/testPassing()"; lsp_label := "testPassing()";
     lsp_disabled := false; lsp_style := "XCTest";
     lsp_location := {| lsp_uri := "file:///pkg/Tests/PackageTests/PassingTests.swift";
                        lsp_range := noRange |};
     lsp_children := []; lsp_tags := [] |}.

Definition location : Location :=
  {| fsPath := "/pkg/Tests/PackageTests/PassingTests.swift"; range := noRange |}.

Definition clientWithVersion (method : string) (v : Z) : LSPTestDiscovery.LanguageClient :=
  {| LSPTestDiscovery.initializeResult :=
       Some {| LSPTestDiscovery.experimental :=
                 Some {[ method := {| LSPTestDiscovery.version := Some v |} ]} |} |}.


Definition targetItem : TestItem :=
  {| ref := 0; id := "PackageTests"; uri := None; label := "PackageTests";
     tags := ["test-target"]; item_range := None; children := [] |}.

Definition suiteItem : TestItem :=
  {| ref := 1; id := "PackageTests.PassingXCTestSuite";
     uri := Some "/pkg/Tests/PackageTests/PassingTests.swift";
     label := "PassingXCTestSuite"; tags := ["XCTest"]; item_range := None;
     children := [] |}.

Definition testItem : TestItem :=
  {| ref := 2; id := "PackageTests.PassingXCTestSuite/testPassing";
     uri := Some "/pkg/Tests/PackageTests/PassingTests.swift";
     label := "testPassing"; tags := ["XCTest"]; item_range := None;
     children := [] |}.

Definition parent (item : TestItem) : option TestItem :=
  if bool_decide (ref item = 2%nat) then Some suiteItem
  else if bool_decide (ref item = 1%nat) then Some targetItem
  else None.

Definition path_join (a b : string) : string := a +:+ "/" +:+ b.

(** Enough of [path.relative] for the sample: the part of [file] below
    [folder/]. *)
Definition path_relative (folder file : string) : string :=
  if String.prefix (folder +:+ "/") file
  then String.substring (S (String.length folder))
         (String.length file - S (String.length folder)) file
  else file.

End Sample.

(** ** The catalog as a tree *)

(** An item and everything below it, and the same for a collection. *)
Fixpoint descendants (e : TestItem) : list TestItem :=
  e :: flat_map descendants (children e).

Definition allItems (collection : list TestItem) : list TestItem :=
  flat_map descendants collection.

(** [P] holds of an item and of every item below it. *)
Inductive Everywhere (P : TestItem → Prop) : TestItem → Prop :=
| Everywhere_intro (e : TestItem) :
    P e → Forall (Everywhere P) (children e) → Everywhere P e.

(** The ids of a collection are unique, at every level of the tree: what a
    [TestItemCollection], keyed by id, guarantees. *)
Inductive uniqueIds : list TestItem → Prop :=
| uniqueIds_intro (collection : list TestItem) :
    NoDup (List.map id collection) →
    Forall (λ e, uniqueIds (children e)) collection →
    uniqueIds collection.

(** The style of an item of the catalog: the tag [upsertTestItem] puts
    first. *)
Definition styleTag (e : TestItem) : option string := head (tags e).

(** [e] is in the collection, or below items of it that the pruning rule
    keeps. *)
Inductive keptPath (lookup : gmap string TestClass) (filterFile : option string)
  : list TestItem → TestItem → Prop :=
| keptPath_here (collection : list TestItem) (e : TestItem) :
    In e collection → keptPath lookup filterFile collection e
| keptPath_below (collection : list TestItem) (p e : TestItem) :
    In p collection →
    TestDiscovery.shouldRemove lookup filterFile p = false →
    keptPath lookup filterFile (children p) e →
    keptPath lookup filterFile collection e.

(** ** Incoming snapshots *)

(** An incoming item that [upsertTestItem] does not skip. *)
Definition active (t : TestClass) : bool :=
  negb (String.eqb (tc_style t) "swift-testing").

(** The incoming items of a list that are upserted under id [x], and their
    children. *)
Definition group (testItems : list TestClass) (x : string) : list TestClass :=
  List.filter (λ t, active t && String.eqb (tc_id t) x) testItems.

Definition kids (testItems : list TestClass) (x : string) : list TestClass :=
  flat_map tc_children (group testItems x).

(** The number of items in a snapshot. *)
Fixpoint weight (t : TestClass) : nat :=
  S (list_sum (List.map weight (tc_children t))).

Definition weights (testItems : list TestClass) : nat :=
  list_sum (List.map weight testItems).

(** The children of the item with id [x] in a collection, none when there
    is no such item. *)
Definition below (collection : list TestItem) (x : string) : list TestItem :=
  from_option children [] (TestItemCollection.get collection x).

(** [Run testItems c c']: upserting the items in order takes the
    collection [c] to [c'], whatever identities the new items get. *)
Inductive Run : list TestClass → list TestItem → list TestItem → Prop :=
| Run_nil (c : list TestItem) : Run [] c c
| Run_cons (t : TestClass) (rest : list TestClass) (c : list TestItem) (n : nat)
           (c'' : list TestItem) :
    Run rest (TestDiscovery.upsertTestItem t (c, n)).1 c'' →
    Run (t :: rest) c c''.

(** The collection has an item for [t] and, below it, for the children of
    [t], as far as they are not skipped. *)
Inductive covers : TestClass → list TestItem → Prop :=
| covers_skipped (t : TestClass) (c : list TestItem) :
    active t = false → covers t c
| covers_active (t : TestClass) (c : list TestItem) (e : TestItem) :
    TestItemCollection.get c (tc_id t) = Some e →
    Forall (λ child, covers child (children e)) (tc_children t) →
    covers t c.

(** All the incoming items of a snapshot, at every depth. *)
Fixpoint incoming (t : TestClass) : list TestClass :=
  t :: flat_map incoming (tc_children t).

(** The item an upsert works on: the one found under the id, or a new one. *)
Definition target (t : TestClass) (c : list TestItem) (n : nat) : TestItem :=
  default (TestDiscovery.createTestItem n (tc_id t) (tc_label t) (fsPath <$> tc_location t))
          (TestItemCollection.get c (tc_id t)).

Definition afterTarget (t : TestClass) (c : list TestItem) (n : nat) : nat :=
  match TestItemCollection.get c (tc_id t) with Some _ => n | None => S n end.

(** What the items upserted under id [x] leave behind: the fields of the
    last of them, on the object that was there before if there was one, and
    below it the result of upserting their children in order. *)
Definition settled (testItems_ : list TestClass) (c c' : list TestItem)
    (x : string) : Prop :=
  match last (group testItems_ x) with
  | None => TestItemCollection.get c' x = TestItemCollection.get c x
  | Some tl =>
      ∃ e', TestItemCollection.get c' x = Some e'
            ∧ id e' = x
            ∧ label e' = tc_label tl
            ∧ tags e' = tc_style tl :: List.map dropLeadingDot (tc_tags tl)
            ∧ item_range e' = range <$> tc_location tl
            ∧ Run (kids testItems_ x) (below c x) (children e')
            ∧ ∀ e, TestItemCollection.get c x = Some e → ref e' = ref e ∧ uri e' = uri e
  end.

(** ** Sample catalog: a suite in one file with a test in another *)

Module Sample2.

Definition fileA : string := "/pkg/Tests/PackageTests/A.swift".
Definition fileB : string := "/pkg/Tests/PackageTests/B.swift".

Definition testInB : TestItem :=
  {| ref := 1; id := "PackageTests.Suite/testB"; uri := Some fileB;
     label := "testB"; tags := ["XCTest"]; item_range := None; children := [] |}.

Definition suiteInA : TestItem :=
  {| ref := 0; id := "PackageTests.Suite"; uri := Some fileA;
     label := "Suite"; tags := ["XCTest"]; item_range := None;
     children := [testInB] |}.

Definition controller : TestController :=
  {| items := [suiteInA]; nextRef := 2 |}.

Definition incomingSuite : TestClass :=
  {| tc_id := "PackageTests.Suite"; tc_label := "Suite"; tc_disabled := false;
     tc_style := "XCTest";
     tc_location := Some {| fsPath := fileA; range := Sample.noRange |};
     tc_children :=
       [ {| tc_id := "PackageTests.Suite/testA"; tc_label := "testA";
            tc_disabled := false; tc_style := "XCTest";
            tc_location := Some {| fsPath := fileA; range := Sample.noRange |};
            tc_children := []; tc_tags := [".fast"] |} ];
     tc_tags := [] |}.

Definition swiftTestingItem : TestClass :=
  {| tc_id := "PackageTests.topLevelTestPassing()";
     tc_label := "topLevelTestPassing()"; tc_disabled := false;
     tc_style := "swift-testing";
     tc_location := Some {| fsPath := fileA; range := Sample.noRange |};
     tc_children := []; tc_tags := [] |}.

End Sample2.

(** ** Runs *)

(** The number of [end()] calls that reached the [vscode.TestRun]. *)
Definition isEnd (ev : SinkEvent) : bool :=
  match ev with SinkEnd => true | _ => false end.

Definition sinkEnds (p : TestRunProxy) : nat :=
  from_option (λ evs, length (List.filter isEnd evs)) 0%nat (testRun p).

(** The proxy has a [vscode.TestRun] only once the run has started. *)
Definition consistent (p : TestRunProxy) : Prop :=
  runStarted p = false → testRun p = None.

(** [f] neither calls the proxy's [end()] nor ends the [vscode.TestRun]. *)
Definition quiet (f : TestRunProxy → TestRunProxy) : Prop :=
  ∀ p, consistent p →
       consistent (f p) ∧ endCalls (f p) = endCalls p ∧ sinkEnds (f p) = sinkEnds p.

(** The same for a step of a run. *)
Definition quietly {A : Type} (m : TestRunner.M A) : Prop :=
  ∀ s, consistent (proxy s) →
       consistent (proxy (m s).2)
       ∧ endCalls (proxy (m s).2) = endCalls (proxy s)
       ∧ sinkEnds (proxy (m s).2) = sinkEnds (proxy s).

(** Events of a process that is still running: output and pipe data. *)
Definition isOutput (ev : TestRunner.SessionEvent) : bool :=
  match ev with
  | TestRunner.DidWrite _ | TestRunner.PipeData _ => true
  | _ => false
  end.

(** The process ends: after some output it closes or reports an error. *)
Definition terminates (events : list TestRunner.SessionEvent) : Prop :=
  ∃ pre ev rest, events = pre ++ ev :: rest
                 ∧ forallb isOutput pre = true ∧ isOutput ev = false.

(** Nothing has been ended yet. *)
Definition clean (s : TestRunnerTestRunState) : Prop :=
  consistent (proxy s) ∧ endCalls (proxy s) = 0%nat ∧ sinkEnds (proxy s) = 0%nat.

(** The state in which a run is left: the proxy's [end()] was called once,
    unless the run is stuck; the [vscode.TestRun] was ended at most once, and
    once if it exists and [end()] returned. *)
Definition endedOnce (r : TestRunner.Outcome unit * TestRunnerTestRunState) : Prop :=
  (r.1 ≠ TestRunner.Pending → endCalls (proxy r.2) = 1%nat)
  ∧ (sinkEnds (proxy r.2) ≤ 1)%nat
  ∧ (r.1 = TestRunner.Resolved () →
     sinkEnds (proxy r.2)
     = match testRun (proxy r.2) with Some _ => 1%nat | None => 0%nat end).

(** A step of a run that does not stay pending. *)
Definition settles {A : Type} (m : TestRunner.M A) : Prop :=
  ∀ s, (m s).1 ≠ TestRunner.Pending.

(** A step of a run that always resolves. *)
Definition succeeds {A : Type} (m : TestRunner.M A) : Prop :=
  ∀ s, ∃ a, (m s).1 = TestRunner.Resolved a.

(** The run state in which the handlers of [runStandardSession] leave a
    process that has written [pre] and is still running. *)
Definition whileRunning (env : TestRunner.Env) (write : string → TestRunner.M unit)
    (pre : list TestRunner.SessionEvent) (s : TestRunnerTestRunState)
  : TestRunnerTestRunState :=
  (TestRunner.runStandardSession env write pre s).2.





(** ** Sample run *)

Module Sample3.

Definition env (build : option Z) (process : list TestRunner.SessionEvent)
  : TestRunner.Env :=
  {| TestRunner.platform := TestRunner.linux;
     TestRunner.now := "11/3/2026, 9:00:00 AM";
     TestRunner.getErrorDescription :=
       λ e, match e with
            | ErrorObject m => m
            | TypeErrorObject m => m
            | ThrownNumber _ => "exit code"
            | ThrownUndefined => "undefined"
            end;
     TestRunner.numberToString := λ _, "n";
     TestRunner.diagnostics := false;
     TestRunner.hasSwiftTestingTests := false;
     TestRunner.hasXCTests := true;
     TestRunner.getBuildAllTask := Returned ();
     TestRunner.queueOperation := Returned build;
     TestRunner.mkfifo := Returned ();
     TestRunner.swiftTestingConfig := Some ();
     TestRunner.xcTestConfig := Some ();
     TestRunner.cancelledBeforeSwiftTesting := false;
     TestRunner.cancelledBeforeXCTest := false;
     TestRunner.watch := Returned ();
     TestRunner.swiftTestingProcess := [];
     TestRunner.xcTestProcess := process;
     TestRunner.xcTestParse :=
       λ text _, if String.eqb text "passed" then
                   [TestRunner.CallStarted 0 None;
                    TestRunner.CallCompleted 0 (Duration 0.006%float)]
                 else [];
     TestRunner.swiftTestingParse := λ _ _, [];
     TestRunner.addedTestItems := [];
     TestRunner.captureCoverage := Returned ();
     TestRunner.computeCoverage := λ _, Returned ();
     TestRunner.readReport := Returned "";
     TestRunner.parseReport := λ _, Returned ([], None);
     TestRunner.getIndex := DarwinTestItemFinder.getIndex;
     TestRunner.debugRuns :=
       λ _, {| TestRunner.startDebugging := TestRunner.Started;
               TestRunner.consoleOutput := [];
               TestRunner.terminated := true |} |}.

(** The run state of a new runner after the start of test 0 was recorded
    with the timestamp 10.0. *)
Definition startedAt10 : TestRunnerTestRunState :=
  TestRunnerTestRunState.started 0 (Some 10.0%float)
    (TestRunner.initial [Sample.testItem]).

End Sample3.

(** * The rest of the test explorer and its neighbours

    Vocabulary for further properties of the code above, and embeddings of
    the functions around it: the platform's test item finder, the coverage
    renderer's [combineRanges], [getRepositoryName], the loading of the
    package description, and the symbol-based test discovery. *)

(** ** The proxy seen from the run *)

(** The calls made on the [vscode.TestRun] so far: none before it exists. *)
Definition reported (p : TestRunProxy) : list SinkEvent := default [] (testRun p).

Definition outputOf (ev : SinkEvent) : option string :=
  match ev with SinkAppendOutput output => Some output | _ => None end.

Definition passedOf (ev : SinkEvent) : option (option TestItem) :=
  match ev with SinkPassed tst _ => Some tst | _ => None end.

Definition failedOf (ev : SinkEvent) : option (option TestItem) :=
  match ev with SinkFailed tst _ _ => Some tst | _ => None end.

Definition skippedOf (ev : SinkEvent) : option (option TestItem) :=
  match ev with SinkSkipped tst => Some tst | _ => None end.

Definition erroredOf (ev : SinkEvent) : option (option TestItem) :=
  match ev with SinkErrored tst _ _ => Some tst | _ => None end.

(** The output handed to the proxy, in the order in which the run shows it:
    what the run has received, then what is queued for it. *)
Definition outputs (p : TestRunProxy) : list string :=
  omap outputOf (reported p) ++ queuedOutput p.

(** The public methods of [TestRunProxy], as calls. *)
Inductive ProxyCall : Type :=
| ProxyTestRunStarted (added : list TestItem)
| ProxyStarted (tst : option TestItem)
| ProxySkipped (tst : option TestItem)
| ProxyPassed (tst : option TestItem) (duration : float)
| ProxyFailed (tst : option TestItem) (messages : list TestMessage) (duration : float)
| ProxyErrored (tst : option TestItem) (messages : list TestMessage) (duration : float)
| ProxyAppendOutput (output : string)
| ProxyEnd (computeCoverage : Completion unit).

Definition applyProxyCall (c : ProxyCall) (p : TestRunProxy) : TestRunProxy :=
  match c with
  | ProxyTestRunStarted added => TestRunProxy.testRunStarted added p
  | ProxyStarted tst => TestRunProxy.started tst p
  | ProxySkipped tst => TestRunProxy.skipped tst p
  | ProxyPassed tst duration => TestRunProxy.passed tst duration p
  | ProxyFailed tst messages duration => TestRunProxy.failed tst messages duration p
  | ProxyErrored tst messages duration => TestRunProxy.errored tst messages duration p
  | ProxyAppendOutput output => TestRunProxy.appendOutput output p
  | ProxyEnd computeCoverage => (TestRunProxy.end_ computeCoverage p).2
  end.

Definition applyProxyCalls (calls : list ProxyCall) (p : TestRunProxy) : TestRunProxy :=
  fold_left (λ p c, applyProxyCall c p) calls p.

(** The proxy has a [vscode.TestRun] exactly when the run has started, and
    then nothing is queued. *)
Definition orderly (p : TestRunProxy) : Prop :=
  (runStarted p = false → testRun p = None)
  ∧ (runStarted p = true → is_Some (testRun p) ∧ queuedOutput p = []).

(** What the run state records and what has reached the run. *)
Definition recorded (p : TestRunProxy) : Prop :=
  omap passedOf (reported p) `suffix_of` passedItems p
  ∧ omap failedOf (reported p) `suffix_of` failedItems p
  ∧ omap skippedOf (reported p) `suffix_of` skippedItems p
  ∧ omap erroredOf (reported p) `suffix_of` erroredItems p.

(** The [vscode.TestMessage] that [recordIssue] makes. *)
Definition issueOf (m : string * option Location) : TestMessage :=
  {| message := m.1; msg_location := m.2 |}.

(** What a process writes before it closes or fails. *)
Fixpoint written (events : list TestRunner.SessionEvent) : list string :=
  match events with
  | TestRunner.DidWrite str :: rest => str :: written rest
  | TestRunner.PipeData _ :: rest => written rest
  | _ => []
  end.

(** A chunk as the run shows it: the planning line removed by
    [runStandardSession], the line ends converted by the stream. *)
Definition shown (str : string) : string :=
  TestRunner.crlf (TestRunner.removeFirst "[1/1] Planning build" str).

(** A stream of [runSession]: its callback hands the proxy the text, with
    its line ends converted, and no other output, whether or not it reaches
    its [next()]. *)
Definition streams (write : string → TestRunner.M unit) : Prop :=
  ∀ text s, orderly (proxy s) →
            orderly (proxy (write text s).2)
            ∧ outputs (proxy (write text s).2)
              = outputs (proxy s) ++ [TestRunner.crlf text].

(** The parser of the XCTest output makes no call that throws. *)
Definition parserNeverThrows (env : TestRunner.Env) : Prop :=
  ∀ text s, (TestRunner.applyCalls (TestRunner.xcTestParse env text s) s).1
            = Returned ().

(** ** LSPTestDiscovery.ts: what [transform] keeps *)

(** The test class mirrors the item of the language server: same label,
    style, tags and disabled flag, the location converted, the id kept
    unless the style is "XCTest", and children that mirror the children of
    the item, one by one. *)
Inductive mirrors (asLocation : LSPLocation → Location)
  : LSPTestItem → TestClass → Prop :=
| mirrors_intro (item : LSPTestItem) (t : TestClass) :
    tc_label t = lsp_label item →
    tc_disabled t = lsp_disabled item →
    tc_style t = lsp_style item →
    tc_tags t = lsp_tags item →
    tc_location t = Some (asLocation (lsp_location item)) →
    (lsp_style item ≠ "XCTest" → tc_id t = lsp_id item) →
    Forall2 (mirrors asLocation) (lsp_children item) (tc_children t) →
    mirrors asLocation item t.

(** ** TestRunner.ts: the test item finder of the platform *)

Module TestItemFinder.

Section Finder.

Variable parent : TestItem → option TestItem.
Variable path_join : string → string → string.
Variable path_relative : string → string → string.
Variable folder : string.
Variable swiftPackage : SwiftPackage.

(** [get testItemFinder()] followed by [getIndex(id, filename)]: the Darwin
    finder ignores the file name. *)
Definition getIndex (platform : TestRunner.Platform) (testItems : list TestItem)
    (id_ : string) (filename : option string) : Z :=
  if bool_decide (platform = TestRunner.darwin)
  then DarwinTestItemFinder.getIndex testItems id_
  else NonDarwinTestItemFinder.getIndex parent path_join path_relative folder
         swiftPackage testItems id_ filename.

End Finder.

End TestItemFinder.

(** The test items that a finder takes for the test with the reported id
    when there is no file name: on Darwin those with that id, elsewhere those
    whose id ends with it. *)
Definition reportedAs (platform : TestRunner.Platform) (id_ : string)
    (item : TestItem) : bool :=
  if bool_decide (platform = TestRunner.darwin)
  then String.eqb (id item) id_
  else endsWith (id item) id_.

(** The collaborators of a run with another outcome of the build. *)
Definition withBuild (task : Completion unit) (operation : Completion (option Z))
    (env : TestRunner.Env) : TestRunner.Env :=
  {| TestRunner.platform := TestRunner.platform env;
     TestRunner.now := TestRunner.now env;
     TestRunner.getErrorDescription := TestRunner.getErrorDescription env;
     TestRunner.numberToString := TestRunner.numberToString env;
     TestRunner.diagnostics := TestRunner.diagnostics env;
     TestRunner.hasSwiftTestingTests := TestRunner.hasSwiftTestingTests env;
     TestRunner.hasXCTests := TestRunner.hasXCTests env;
     TestRunner.getBuildAllTask := task;
     TestRunner.queueOperation := operation;
     TestRunner.mkfifo := TestRunner.mkfifo env;
     TestRunner.swiftTestingConfig := TestRunner.swiftTestingConfig env;
     TestRunner.xcTestConfig := TestRunner.xcTestConfig env;
     TestRunner.cancelledBeforeSwiftTesting := TestRunner.cancelledBeforeSwiftTesting env;
     TestRunner.cancelledBeforeXCTest := TestRunner.cancelledBeforeXCTest env;
     TestRunner.watch := TestRunner.watch env;
     TestRunner.swiftTestingProcess := TestRunner.swiftTestingProcess env;
     TestRunner.xcTestProcess := TestRunner.xcTestProcess env;
     TestRunner.xcTestParse := TestRunner.xcTestParse env;
     TestRunner.swiftTestingParse := TestRunner.swiftTestingParse env;
     TestRunner.addedTestItems := TestRunner.addedTestItems env;
     TestRunner.captureCoverage := TestRunner.captureCoverage env;
     TestRunner.computeCoverage := TestRunner.computeCoverage env;
     TestRunner.readReport := TestRunner.readReport env;
     TestRunner.parseReport := TestRunner.parseReport env;
     TestRunner.getIndex := TestRunner.getIndex env;
     TestRunner.debugRuns := TestRunner.debugRuns env |}.

(** The same with another finder. *)
Definition withFinder (finder : list TestItem → string → Z)
    (env : TestRunner.Env) : TestRunner.Env :=
  {| TestRunner.platform := TestRunner.platform env;
     TestRunner.now := TestRunner.now env;
     TestRunner.getErrorDescription := TestRunner.getErrorDescription env;
     TestRunner.numberToString := TestRunner.numberToString env;
     TestRunner.diagnostics := TestRunner.diagnostics env;
     TestRunner.hasSwiftTestingTests := TestRunner.hasSwiftTestingTests env;
     TestRunner.hasXCTests := TestRunner.hasXCTests env;
     TestRunner.getBuildAllTask := TestRunner.getBuildAllTask env;
     TestRunner.queueOperation := TestRunner.queueOperation env;
     TestRunner.mkfifo := TestRunner.mkfifo env;
     TestRunner.swiftTestingConfig := TestRunner.swiftTestingConfig env;
     TestRunner.xcTestConfig := TestRunner.xcTestConfig env;
     TestRunner.cancelledBeforeSwiftTesting := TestRunner.cancelledBeforeSwiftTesting env;
     TestRunner.cancelledBeforeXCTest := TestRunner.cancelledBeforeXCTest env;
     TestRunner.watch := TestRunner.watch env;
     TestRunner.swiftTestingProcess := TestRunner.swiftTestingProcess env;
     TestRunner.xcTestProcess := TestRunner.xcTestProcess env;
     TestRunner.xcTestParse := TestRunner.xcTestParse env;
     TestRunner.swiftTestingParse := TestRunner.swiftTestingParse env;
     TestRunner.addedTestItems := TestRunner.addedTestItems env;
     TestRunner.captureCoverage := TestRunner.captureCoverage env;
     TestRunner.computeCoverage := TestRunner.computeCoverage env;
     TestRunner.readReport := TestRunner.readReport env;
     TestRunner.parseReport := TestRunner.parseReport env;
     TestRunner.getIndex := finder;
     TestRunner.debugRuns := TestRunner.debugRuns env |}.

(** The same with another parser of the XCTest output. *)
Definition withParser
    (parse : string → TestRunnerTestRunState → list TestRunner.RunStateCall)
    (env : TestRunner.Env) : TestRunner.Env :=
  {| TestRunner.platform := TestRunner.platform env;
     TestRunner.now := TestRunner.now env;
     TestRunner.getErrorDescription := TestRunner.getErrorDescription env;
     TestRunner.numberToString := TestRunner.numberToString env;
     TestRunner.diagnostics := TestRunner.diagnostics env;
     TestRunner.hasSwiftTestingTests := TestRunner.hasSwiftTestingTests env;
     TestRunner.hasXCTests := TestRunner.hasXCTests env;
     TestRunner.getBuildAllTask := TestRunner.getBuildAllTask env;
     TestRunner.queueOperation := TestRunner.queueOperation env;
     TestRunner.mkfifo := TestRunner.mkfifo env;
     TestRunner.swiftTestingConfig := TestRunner.swiftTestingConfig env;
     TestRunner.xcTestConfig := TestRunner.xcTestConfig env;
     TestRunner.cancelledBeforeSwiftTesting := TestRunner.cancelledBeforeSwiftTesting env;
     TestRunner.cancelledBeforeXCTest := TestRunner.cancelledBeforeXCTest env;
     TestRunner.watch := TestRunner.watch env;
     TestRunner.swiftTestingProcess := TestRunner.swiftTestingProcess env;
     TestRunner.xcTestProcess := TestRunner.xcTestProcess env;
     TestRunner.xcTestParse := parse;
     TestRunner.swiftTestingParse := TestRunner.swiftTestingParse env;
     TestRunner.addedTestItems := TestRunner.addedTestItems env;
     TestRunner.captureCoverage := TestRunner.captureCoverage env;
     TestRunner.computeCoverage := TestRunner.computeCoverage env;
     TestRunner.readReport := TestRunner.readReport env;
     TestRunner.parseReport := TestRunner.parseReport env;
     TestRunner.getIndex := TestRunner.getIndex env;
     TestRunner.debugRuns := TestRunner.debugRuns env |}.

(** ** coverage/TestCoverageRenderer.ts: combineRanges *)

Module TestCoverageRenderer.

(** [a.isBefore(b)] on positions. *)
Definition isBefore (a b : Position) : bool :=
  bool_decide (line a < line b ∨ (line a = line b ∧ character a < character b)).

(** [new vscode.Range(start, end)]: when [start] is not before or equal to
    [end], the two are swapped. *)
Definition newRange (start end_ : Position) : Range :=
  if isBefore end_ start
  then {| range_start := end_; range_end := start |}
  else {| range_start := start; range_end := end_ |}.

(** The loop of [combineRanges] over the ranges that are left, with the
    range being grown and the ranges pushed so far. *)
Fixpoint combineFrom (ranges : list Range) (lastRange : Range)
    (combinedRanges : list Range) : list Range :=
  match ranges with
  | [] => combinedRanges ++ [lastRange]
  | r :: rest =>
      if bool_decide (line (range_start r) = line (range_end lastRange) + 1)
      then combineFrom rest
             (newRange {| line := line (range_start lastRange); character := 0 |}
                       {| line := line (range_end r); character := 0 |})
             combinedRanges
      else combineFrom rest r (combinedRanges ++ [lastRange])
  end.

(** [combineRanges(ranges)]. *)
Definition combineRanges (ranges : list Range) : list Range :=
  match ranges with
  | [] => ranges
  | lastRange :: rest =>
      (* if ranges length is less than 2 there aren't any ranges to combine *)
      if bool_decide (length ranges < 2)%nat then ranges
      else combineFrom rest lastRange []
  end.

End TestCoverageRenderer.

(** A range as [vscode.Range] objects are: lines are not negative and the
    start is not after the end. *)
Definition wellFormed (r : Range) : Prop :=
  0 ≤ line (range_start r) ∧ line (range_start r) ≤ line (range_end r).

(** Some range of the list spans the line. *)
Definition coversLine (ranges : list Range) (l : Z) : Prop :=
  ∃ r, r ∈ ranges ∧ line (range_start r) ≤ l ≤ line (range_end r).

(** No range of the list starts on the line that follows the end of the
    range before it. *)
Definition apart (ranges : list Range) : Prop :=
  ∀ (i : nat) r1 r2, ranges !! i = Some r1 → ranges !! S i = Some r2 →
                     line (range_start r2) ≠ line (range_end r1) + 1.

(** The range of one whole line, as [render] makes it for a line of the
    coverage report. *)
Definition lineRange (l : Z) : Range :=
  {| range_start := {| line := l; character := 0 |};
     range_end := {| line := l; character := 0 |} |}.

(** ** utilities/utilities.ts: getRepositoryName *)

Module Utilities.

(** The longest prefix without a slash, and the rest. *)
Fixpoint component (s : string) : string * string :=
  match s with
  | EmptyString => (EmptyString, EmptyString)
  | String c rest =>
      if Ascii.eqb c "/"%char then (EmptyString, s)
      else let r := component rest in (String c r.1, r.2)
  end.

(** The pattern of [getRepositoryName] (a group of any number of characters
    that are not a slash, optionally followed by a slash, at the end of the
    input) tried at the start of [s]: the group takes the longest prefix
    without a slash (a shorter one is followed by a character that is
    neither a slash nor the end), and what follows must be the end of the
    input or one slash and the end. *)
Definition matchHere (s : string) : option string :=
  let r := component s in
  if String.eqb r.2 "" || String.eqb r.2 "/" then Some r.1 else None.

(** [url.match(pattern)![1]]: the group of the leftmost match. There is
    always a match, at the end of the input if nowhere before. *)
Fixpoint lastPathComponent (url : string) : string :=
  match matchHere url with
  | Some group => group
  | None =>
      match url with
      | EmptyString => EmptyString
      | String _ rest => lastPathComponent rest
      end
  end.

(** [s.replace(pattern, "")] for the pattern that matches a final [".git"]. *)
Fixpoint dropTrailingGit (s : string) : string :=
  match s with
  | EmptyString => EmptyString
  | String c s' =>
      if String.eqb s ".git" then EmptyString
      else String c (dropTrailingGit s')
  end.

(** [getRepositoryName(url)]. *)
Definition getRepositoryName (url : string) : string :=
  let lastPathComponent := lastPathComponent url in
  if endsWith lastPathComponent ".git"
  then dropTrailingGit lastPathComponent
  else lastPathComponent.

End Utilities.

(** The string has no slash. *)
Fixpoint noSlash (s : string) : bool :=
  match s with
  | EmptyString => true
  | String c rest => negb (Ascii.eqb c "/"%char) && noSlash rest
  end.

(** ** SwiftPackage.ts: loading the package description *)

Module PackageState.

(** [Product], [Dependency] and [PackageContents] as
    [swift package describe --type json] gives them. The description is
    what [JSON.parse] returns for a text that starts with a brace: an
    object, any member of which may be missing. *)
Record ProductType := {
  pt_executable : option unit;
  pt_library : option (list string)
}.

Record Product := {
  product_name : string;
  product_targets : list string;
  product_type : ProductType
}.

Record Dependency := {
  identity : string;
  dependency_type : option string;
  dependency_url : option string;
  dependency_path : option string
}.

Record PackageContents := {
  contents_name : option string;
  contents_products : option (list Product);
  contents_dependencies : option (list Dependency);
  contents_targets : option (list Target)
}.

(** [SwiftPackageState]: the contents, the [Error] made when the package
    could not be loaded, or [undefined] when no package was found. *)
Inductive SwiftPackageState : Type :=
| Contents (contents : PackageContents)
| LoadError (message : string)
| NotFound.

(** What [execSwift] rejects with, as far as [loadPackage] looks at it: the
    [stderr] member if there is one, and what [getErrorDescription] makes of
    the value. *)
Record ExecFailure := {
  stderr : option string;
  description : string
}.

Inductive ExecOutcome : Type :=
| ExecOk (stdout : string)
| ExecFailed (failure : ExecFailure).

(** [stdout.indexOf("\n")] and [stdout.slice(firstNewLine + 1)]: what
    follows the first line feed. Without a line feed the index is -1 and
    the slice is the whole text. *)
Fixpoint afterFirstNewline (stdout : string) : option string :=
  match stdout with
  | EmptyString => None
  | String c rest =>
      if Ascii.eqb c "010"%char then Some rest else afterFirstNewline rest
  end.

Definition dropLine (stdout : string) : string :=
  default stdout (afterFirstNewline stdout).

(** The loop that removes lines until the text starts with a brace. [fuel]
    bounds the number of turns; the result is [None] when the loop has not
    ended within them. *)
Fixpoint skipToBrace (fuel : nat) (stdout : string) : option string :=
  if String.prefix "{" stdout then Some stdout
  else match fuel with
       | O => None
       | S fuel' => skipToBrace fuel' (dropLine stdout)
       end.

Section Loading.

(** [JSON.parse]: the object, or the description of the [SyntaxError]. *)
Variable jsonParse : string → PackageContents + string.

(** [loadPackage], given what [execSwift] did. *)
Definition loadPackage (fuel : nat) (exec : ExecOutcome) : option SwiftPackageState :=
  match exec with
  | ExecOk stdout =>
      match skipToBrace fuel stdout with
      | Some text =>
          Some match jsonParse text with
               | inl contents => Contents contents
               | inr syntaxError => LoadError syntaxError
               end
      | None => None
      end
  | ExecFailed failure =>
      Some match stderr failure with
           | Some message =>
               if String.prefix "error: root manifest" message
                  || String.prefix "error: Could not find Package.swift" message
               then NotFound
               else LoadError (description failure)
           | None => LoadError (description failure)
           end
  end.

End Loading.

(** [isPackage(state)]: reading [products] of [undefined] throws. *)
Definition isPackage (state : SwiftPackageState) : Completion bool :=
  match state with
  | Contents contents => Returned (bool_decide (is_Some (contents_products contents)))
  | LoadError _ => Returned false
  | NotFound => Thrown (LSPTestDiscovery.cannotRead "products")
  end.

Definition isValid (state : SwiftPackageState) : Completion bool := isPackage state.

(** [get error()]: the message of the error. *)
Definition error (state : SwiftPackageState) : option string :=
  match state with
  | LoadError message => Some message
  | _ => None
  end.

Definition foundPackage (state : SwiftPackageState) : bool :=
  match state with
  | NotFound => false
  | _ => true
  end.

(** [get name()]: an [Error] object has a [name], which is ["Error"]. *)
Definition name (state : SwiftPackageState) : string :=
  match state with
  | Contents contents => default "" (contents_name contents)
  | LoadError _ => "Error"
  | NotFound => ""
  end.

Definition products (state : SwiftPackageState) : list Product :=
  match state with
  | Contents contents => default [] (contents_products contents)
  | _ => []
  end.

Definition dependencies (state : SwiftPackageState) : list Dependency :=
  match state with
  | Contents contents => default [] (contents_dependencies contents)
  | _ => []
  end.

Definition targets (state : SwiftPackageState) : list Target :=
  match state with
  | Contents contents => default [] (contents_targets contents)
  | _ => []
  end.

Definition executableProducts (state : SwiftPackageState) : list Product :=
  List.filter (λ product, bool_decide (is_Some (pt_executable (product_type product))))
              (products state).

Definition libraryProducts (state : SwiftPackageState) : list Product :=
  List.filter (λ product, bool_decide (is_Some (pt_library (product_type product))))
              (products state).

(** [getTargets(type)]. *)
Definition getTargets (state : SwiftPackageState) (ty : TargetType) : list Target :=
  List.filter (λ target, bool_decide (type target = ty)) (targets state).

End PackageState.

(** The first line of the text that starts with a brace, with the lines
    that follow it. *)
Fixpoint scanLines (atLineStart : bool) (s : string) : option string :=
  match s with
  | EmptyString => None
  | String c rest =>
      if atLineStart && Ascii.eqb c "{"%char then Some s
      else scanLines (Ascii.eqb c "010"%char) rest
  end.

Definition firstBraceLine (s : string) : option string := scanLines true s.

(** ** An earlier LSPTestDiscovery.ts: the tests of a document from its symbols *)

Module DocumentSymbolDiscovery.

(** [vscode.SymbolKind], as far as the code tells the kinds apart. *)
Inductive SymbolKind : Type := ClassKind | NamespaceKind | MethodKind | OtherKind.

#[global] Instance SymbolKind_eq_dec : EqDecision SymbolKind.
Proof. solve_decision. Defined.

(** [vscode.DocumentSymbol]. *)
Inductive DocumentSymbol : Type := mkDocumentSymbol {
  symbol_name : string;
  symbol_kind : SymbolKind;
  symbol_range : Range;
  symbol_children : list DocumentSymbol
}.

(** The test class of that version of [TestDiscovery]: a name, a location
    if it is known, and the test functions. *)
Record TestFunction := {
  function_name : string;
  function_location : Location
}.

Record TestClass := {
  class_name : string;
  class_location : option Location;
  class_extension : bool;
  class_functions : list TestFunction
}.

(** [s.indexOf(c)]. *)
Fixpoint indexOfFrom (c : ascii) (i : Z) (s : string) : Z :=
  match s with
  | EmptyString => -1
  | String a rest => if Ascii.eqb a c then i else indexOfFrom c (i + 1) rest
  end.

Definition indexOf (c : ascii) (s : string) : Z := indexOfFrom c 0 s.

(** [s.slice(0, end)]: a negative [end] counts from the end of the string. *)
Definition sliceTo (s : string) (end_ : Z) : string :=
  let len := Z.of_nat (String.length s) in
  let k := if bool_decide (end_ < 0) then Z.max (len + end_) 0 else Z.min end_ len in
  String.substring 0 (Z.to_nat k) s.

(** The name of a test function: the name of the symbol up to its first
    opening bracket. The index of the bracket is used when it is truthy,
    which -1 is and 0 is not. *)
Definition funcName (name_ : string) : string :=
  let openBrackets := indexOf "("%char name_ in
  if bool_decide (openBrackets ≠ 0) then sliceTo name_ openBrackets else name_.

Section GetTests.

(** The test of a method name against the pattern of the source: the name
    starts with [test] and has [()] further on. *)
Variable isTestName : string → bool.

Definition testFunctions (uri_ : string) (symbol : DocumentSymbol) : list TestFunction :=
  List.map (λ func, {| function_name := funcName (symbol_name func);
                       function_location := {| fsPath := uri_;
                                               range := symbol_range func |} |})
    (List.filter (λ func, isTestName (symbol_name func))
       (List.filter (λ func, bool_decide (symbol_kind func = MethodKind))
          (symbol_children symbol))).

Definition toTestClass (uri_ : string) (symbol : DocumentSymbol) : TestClass :=
  {| class_name := symbol_name symbol;
     class_location :=
       if bool_decide (symbol_kind symbol = ClassKind)
       then Some {| fsPath := uri_; range := symbol_range symbol |}
       else None;
     class_extension := true;
     class_functions := testFunctions uri_ symbol |}.

(** The callback of [reduce]: a class whose name is already in the result is
    merged into the entry of that name, another one is added at the end. *)
Definition merge (result : list TestClass) (current : TestClass) : list TestClass :=
  let index := findIndex (λ item, String.eqb (class_name item) (class_name current))
                         result in
  if bool_decide (index ≠ -1) then
    alter (λ item,
             {| class_name := class_name item;
                class_location := match class_location item with
                                  | Some location => Some location
                                  | None => class_location current
                                  end;
                class_extension := class_extension item || class_extension current;
                class_functions := class_functions item ++ class_functions current |})
          (Z.to_nat index) result
  else result ++ [current].

(** [getTests(symbols, uri)]. *)
Definition getTests (symbols : list DocumentSymbol) (uri_ : string) : list TestClass :=
  fold_left merge
    (List.map (toTestClass uri_)
       (List.filter (λ symbol, bool_decide (symbol_kind symbol = ClassKind)
                               || bool_decide (symbol_kind symbol = NamespaceKind))
                    symbols))
    [].

End GetTests.

(** The classes of a list that have the name, and the one class they make
    together: the first location among them, the functions of all of them
    in order. *)
Definition classesNamed (classes : list TestClass) (n : string) : list TestClass :=
  List.filter (λ c, String.eqb (class_name c) n) classes.

Definition combined (classes : list TestClass) (n : string) : TestClass :=
  {| class_name := n;
     class_location := head (omap class_location (classesNamed classes n));
     class_extension := existsb class_extension (classesNamed classes n);
     class_functions := concat (List.map class_functions (classesNamed classes n)) |}.

(** The names of a list, each once, in the order of their first
    appearance. *)
Fixpoint firstNames (seen : list string) (names : list string) : list string :=
  match names with
  | [] => []
  | n :: rest =>
      if bool_decide (n ∈ seen) then firstNames seen rest
      else n :: firstNames (n :: seen) rest
  end.

End DocumentSymbolDiscovery.

(** The character does not occur in the string. *)
Fixpoint without (c : ascii) (s : string) : bool :=
  match s with
  | EmptyString => true
  | String a rest => negb (Ascii.eqb a c) && without c rest
  end.

(** ** Sample data for the further properties *)

Module Sample4.

(** The collaborators of [Sample3] with the finder of Linux. *)
Definition finder (testItems_ : list TestItem) (id_ : string) : Z :=
  TestItemFinder.getIndex Sample.parent Sample.path_join Sample.path_relative
    "/pkg" Sample.package TestRunner.linux testItems_ id_ None.

Definition env : TestRunner.Env := withFinder finder (Sample3.env (Some 0) []).

(** An XCTest in a file that belongs to no target of the sample package. *)
Definition strayItem : LSPTestItem :=
  {| lsp_id := "StrayTests/testStray()"; lsp_label := "testStray()";
     lsp_disabled := false; lsp_style := "XCTest";
     lsp_location := {| lsp_uri := "file:///elsewhere/StrayTests.swift";
                        lsp_range := Sample.noRange |};
     lsp_children := []; lsp_tags := [] |}.

Definition strayLocation : Location :=
  {| fsPath := "/elsewhere/StrayTests.swift"; range := Sample.noRange |}.

Definition asLocation (l : LSPLocation) : Location :=
  {| fsPath := String.substring 7 (String.length (lsp_uri l) - 7) (lsp_uri l);
     range := lsp_range l |}.

(** A test class of the sample package's test target. *)
Definition passingSuite : TestClass :=
  {| tc_id := "PackageTests.PassingXCTestSuite"; tc_label := "PassingXCTestSuite";
     tc_disabled := false; tc_style := "XCTest";
     tc_location := Some Sample.location; tc_children := []; tc_tags := [] |}.

(** The collaborators of [Sample3] with a parser that, for the chunk
    ["bad"], reports a completion by timestamp of a test that was never
    started. *)
Definition throwingParse (text : string) (s : TestRunnerTestRunState)
  : list TestRunner.RunStateCall :=
  if String.eqb text "bad" then [TestRunner.CallCompleted 0 (Timestamp 10.006%float)]
  else if String.eqb text "passed" then
    [TestRunner.CallStarted 0 None; TestRunner.CallCompleted 0 (Duration 0.006%float)]
  else [].

Definition throwingEnv : TestRunner.Env :=
  withParser throwingParse (Sample3.env (Some 0) []).

Definition emptyController : TestController := {| items := []; nextRef := 0 |}.

(** Covered lines 1, 2 and 4. *)
Definition lines : list Range := [lineRange 1; lineRange 2; lineRange 4].

End Sample4.

(** * Properties *)

(** ** Strings and arrays *)

Lemma append_cons (c : ascii) (s x : string) :
  String c s +:+ x = String c (s +:+ x).
Proof. reflexivity. Qed.

Lemma append_nil_l (x : string) : "" +:+ x = x.
Proof. reflexivity. Qed.

Lemma append_assoc (a b c : string) : (a +:+ b) +:+ c = a +:+ (b +:+ c).
Proof.
  induction a as [|ch a IH]; [done|].
  rewrite !append_cons. by f_equal.
Qed.

Lemma endsWith_refl (x : string) : endsWith x x = true.
Proof. destruct x; cbn [endsWith]; by rewrite String.eqb_refl. Qed.

Lemma endsWith_app (k x : string) : endsWith (k +:+ x) x = true.
Proof.
  induction k as [|c k IH]; [apply endsWith_refl|].
  rewrite append_cons. cbn [endsWith].
  destruct (String.eqb (String c (k +:+ x)) x); [done|]. exact IH.
Qed.

Lemma endsWith_inv (s x : string) : endsWith s x = true → ∃ k, s = k +:+ x.
Proof.
  induction s as [|c s IH]; cbn [endsWith].
  - destruct (String.eqb "" x) eqn:E; [|done].
    apply String.eqb_eq in E. subst. by exists "".
  - destruct (String.eqb (String c s) x) eqn:E.
    + apply String.eqb_eq in E. subst. by exists "".
    + intros H. destruct (IH H) as [k ->]. by exists (String c k).
Qed.

Lemma dropTrailingParens_app (base : string) :
  dropTrailingParens (base +:+ "()") = base.
Proof.
  induction base as [|c base IH]; [done|].
  rewrite append_cons. cbn [dropTrailingParens].
  destruct (String.eqb (String c (base +:+ "()")) "()") eqn:E.
  - apply String.eqb_eq in E. injection E as _ E.
    destruct base as [|? [|? ?]]; discriminate.
  - by rewrite IH.
Qed.

Lemma findIndexFrom_lower {A} (f : A → bool) (l : list A) (i : Z) :
  findIndexFrom f i l = -1 ∨ i ≤ findIndexFrom f i l.
Proof.
  revert i. induction l as [|x l IH]; intros i; simpl; [by left|].
  destruct (f x); [right; lia|]. destruct (IH (i + 1)); [by left|right; lia].
Qed.

Lemma findIndexFrom_none {A} (f : A → bool) (l : list A) (i : Z) :
  0 ≤ i → (findIndexFrom f i l = -1 ↔ ∀ x, x ∈ l → f x = false).
Proof.
  revert i. induction l as [|x l IH]; intros i Hi; simpl.
  - split; [|done]. intros _ x Hx. by apply elem_of_nil in Hx.
  - destruct (f x) eqn:E.
    + split; [lia|]. intros H. specialize (H x (list_elem_of_here _ _)). congruence.
    + rewrite IH by lia. split.
      * intros H y Hy. apply elem_of_cons in Hy as [->|Hy]; auto.
      * intros H y Hy. apply H. by apply list_elem_of_further.
Qed.

Lemma findIndexFrom_first {A} (f : A → bool) (l : list A) (i : Z) :
  findIndexFrom f i l ≠ -1 → 0 ≤ i →
  ∃ k x, findIndexFrom f i l = i + Z.of_nat k ∧ l !! k = Some x ∧ f x = true
         ∧ ∀ (j : nat) y, (j < k)%nat → l !! j = Some y → f y = false.
Proof.
  revert i. induction l as [|x l IH]; intros i; simpl; [done|].
  destruct (f x) eqn:E; intros H Hi.
  - exists 0%nat, x. repeat split; [lia|done|]. intros j y Hj. lia.
  - destruct (IH (i + 1) H ltac:(lia)) as (k & y & Hk & Hy & Hfy & Hmin).
    exists (S k), y. repeat split; [lia|done|done|].
    intros [|j] z Hj Hz; simpl in Hz; [congruence|]. apply (Hmin j); [lia|done].
Qed.

Lemma findIndex_none {A} (f : A → bool) (l : list A) :
  findIndex f l = -1 ↔ ∀ x, x ∈ l → f x = false.
Proof. by apply findIndexFrom_none. Qed.

Lemma findIndex_first {A} (f : A → bool) (l : list A) :
  (∃ x, x ∈ l ∧ f x = true) → firstIndex (λ x, f x = true) l (findIndex f l).
Proof.
  intros (x & Hx & Hfx).
  assert (findIndex f l ≠ -1) as Hne.
  { intros H. rewrite findIndex_none in H. specialize (H x Hx). congruence. }
  destruct (findIndexFrom_first f l 0 Hne ltac:(lia)) as (k & y & Hk & Hy & Hfy & Hmin).
  unfold firstIndex, findIndex. rewrite Hk. split; [lia|].
  exists y. replace (Z.to_nat (0 + Z.of_nat k)) with k by lia.
  repeat split; [done|done|]. intros j z Hj Hz. rewrite (Hmin j z Hj Hz). done.
Qed.

Lemma firstIndex_iff {A} (P Q : A → Prop) (l : list A) (i : Z) :
  (∀ x, P x ↔ Q x) → firstIndex P l i → firstIndex Q l i.
Proof.
  intros H (Hi & x & Hx & HP & Hmin). split; [done|].
  exists x. repeat split; [done|by apply H|].
  intros j y Hj Hy HQ. apply (Hmin j y Hj Hy). by apply H.
Qed.

(** ** LSPTestDiscovery *)

Section DiscoveryProperties.

Variable textDocumentTestsMethod : string.
Variable workspaceTestsMethod : string.
Variable asLocation : LSPLocation → Location.
Variable getTarget : SwiftPackage → string → option nat.
Variable path_relative : string → string → string.



Lemma supported_version (client : LSPTestDiscovery.LanguageClient) (method : string) (v : Z) :
  advertises client method v → 2 ≤ v →
  ∃ caps, LSPTestDiscovery.capabilityFor client method = Returned caps
          ∧ LSPTestDiscovery.versionAtLeast2 caps = true.
Proof.
  intros (c & Hc & Hv) Hle. eexists. split; [done|]. simpl. rewrite Hv.
  by apply bool_decide_eq_true.
Qed.





Lemma getTargets_find (pkg : SwiftPackage) (ty : TargetType) (i : nat) (t : Target)
    (o : option nat) :
  o = Some i → targets pkg !! i = Some t → type t = ty →
  List.find (λ it : nat * Target, bool_decide (o = Some it.1)) (getTargets pkg ty)
  = Some (i, t).
Proof.
  intros -> Ht Hty. unfold getTargets.
  destruct (List.find _ _) as [[j u]|] eqn:E.
  - apply List.find_some in E as [Hin Hp]. apply bool_decide_eq_true in Hp.
    simpl in Hp. injection Hp as ->.
    apply List.filter_In in Hin as [Hin _]. apply list_elem_of_In in Hin.
    apply elem_of_lookup_imap in Hin as (k & y & Heq & Hk).
    injection Heq as -> ->. congruence.
  - exfalso. eapply List.find_none with (x := (i, t)) in E.
    + apply bool_decide_eq_false in E. by apply E.
    + apply List.filter_In. split.
      * apply list_elem_of_In, elem_of_lookup_imap. by exists i, t.
      * by apply bool_decide_eq_true.
Qed.

(** C7. For an item of style "XCTest" whose id is [base ++ "()"] and whose
    file belongs to the test target [t] of the package, [transformId]
    returns [name t ++ "." ++ base]; for an item of any other style it
    returns the id unchanged. *)
Theorem transformId_execution_id (item : LSPTestItem) (location : Location)
    (swiftPackage : SwiftPackage) :
  (∀ (base : string) (i : nat) (t : Target),
     lsp_style item = "XCTest" →
     lsp_id item = base +:+ "()" →
     getTarget swiftPackage (fsPath location) = Some i →
     targets swiftPackage !! i = Some t →
     type t = test →
     LSPTestDiscovery.transformId getTarget item location swiftPackage
     = name t +:+ "." +:+ base)
  ∧ (lsp_style item ≠ "XCTest" →
     LSPTestDiscovery.transformId getTarget item location swiftPackage = lsp_id item).
Proof.
  unfold LSPTestDiscovery.transformId. split.
  - intros base i t Hstyle Hid Hget Ht Hty.
    rewrite Hstyle, String.eqb_refl.
    rewrite (getTargets_find _ _ i t _ Hget Ht Hty). simpl.
    rewrite Hid, dropTrailingParens_app. apply append_assoc.
  - intros Hstyle. apply String.eqb_neq in Hstyle. by rewrite Hstyle.
Qed.

End DiscoveryProperties.




Lemma transformId_execution_id_witness :
  LSPTestDiscovery.transformId Sample.getTarget Sample.lspItem Sample.location
    Sample.package
  = "PackageTests.PassingXCTestSuite/testPassing".
Proof.
  apply (proj1 (transformId_execution_id Sample.getTarget Sample.lspItem
                  Sample.location Sample.package)
           "PassingXCTestSuite/testPassing" 1%nat
           {| name := "PackageTests"; path := "Tests/PackageTests";
              sources := ["PassingTests.swift"]; type := test |});
    reflexivity.
Defined.

(** ** The id resolver for platforms that do not qualify ids *)

Section FinderProperties.

Variable parent : TestItem → option TestItem.
Variable path_join : string → string → string.
Variable path_relative : string → string → string.
Variable folder : string.
Variable swiftPackage : SwiftPackage.

Local Abbreviation isTestWithFilenameInTarget :=
  (NonDarwinTestItemFinder.isTestWithFilenameInTarget
     parent path_join path_relative folder swiftPackage).
Local Abbreviation getIndex :=
  (NonDarwinTestItemFinder.getIndex
     parent path_join path_relative folder swiftPackage).
Local Abbreviation inOwningTarget :=
  (owningTargetContains parent path_join path_relative folder swiftPackage).

Lemma find_source (relativePath : string) (l : list string) :
  (∃ s, List.find (λ source, String.eqb source relativePath) l = Some s)
  ↔ relativePath ∈ l.
Proof.
  split.
  - intros [s H]. apply List.find_some in H as [Hin Heq].
    apply String.eqb_eq in Heq. subst. by apply list_elem_of_In.
  - intros H. destruct (List.find _ l) eqn:E; [by eexists|].
    apply list_elem_of_In in H.
    apply (List.find_none _ _ E) in H. by rewrite String.eqb_refl in H.
Qed.

Lemma isTestWithFilenameInTarget_spec (testName filename : string) (item : TestItem) :
  isTestWithFilenameInTarget testName filename item = true
  ↔ endsWith (id item) testName = true ∧ inOwningTarget item filename.
Proof.
  unfold NonDarwinTestItemFinder.isTestWithFilenameInTarget, owningTargetContains.
  destruct (endsWith (id item) testName); simpl;
    [|split; [done|intros [? _]; done]].
  destruct (parent item ≫= parent) as [targetTestItem|];
    [|split; [done|intros (_ & ? & ? & ? & _); done]].
  destruct (List.find _ (targets swiftPackage)) as [target|] eqn:Ef;
    [|split; [done|intros (_ & ? & ? & Ht & ? & _); injection Ht as <-; congruence]].
  destruct (List.find _ (sources target)) as [s|] eqn:E.
  - split; [|done]. intros _. split; [done|].
    exists targetTestItem, target. split; [done|]. split; [done|].
    apply find_source. by exists s.
  - split; [done|]. intros (_ & t' & tg' & Ht & Htg & Hin).
    injection Ht as <-. rewrite Ef in Htg. injection Htg as <-.
    apply find_source in Hin as [s Hs]. congruence.
Qed.

(** C8. [getIndex] on the platforms whose reported ids lack the target:
    - with a (non-empty) filename and an item that ends with the reported id
      and whose owning target contains the file, the result is the index of
      the first such item;
    - without a filename, or when no item passes that check, the result is
      the index of the first item whose id ends with the reported id, if
      there is one;
    - the result is -1 exactly when no item's id ends with the reported
      id. *)
Theorem getIndex_suffix_with_context (testItems_ : list TestItem) (id_ : string)
    (filename : option string) :
  (∀ f, filename = Some f → f ≠ "" →
     (∃ item, item ∈ testItems_ ∧ endsWith (id item) id_ = true
              ∧ inOwningTarget item f) →
     firstIndex (λ item, endsWith (id item) id_ = true ∧ inOwningTarget item f)
                testItems_ (getIndex testItems_ id_ filename))
  ∧ ((filename = None ∨ filename = Some ""
      ∨ ∃ f, filename = Some f
             ∧ ∀ item, item ∈ testItems_ →
                 ¬ (endsWith (id item) id_ = true ∧ inOwningTarget item f)) →
     (∃ item, item ∈ testItems_ ∧ endsWith (id item) id_ = true) →
     firstIndex (λ item, endsWith (id item) id_ = true)
                testItems_ (getIndex testItems_ id_ filename))
  ∧ (getIndex testItems_ id_ filename = -1
     ↔ ∀ item, item ∈ testItems_ → endsWith (id item) id_ = false).
Proof.
  unfold NonDarwinTestItemFinder.getIndex. split; [|split].
  - intros f -> Hf (item & Hin & Hitem).
    assert (NonDarwinTestItemFinder.truthy (Some f) = Some f) as ->
      by (destruct f; done).
    assert (firstIndex (λ x, isTestWithFilenameInTarget id_ f x = true) testItems_
              (findIndex (isTestWithFilenameInTarget id_ f) testItems_)) as Hfirst.
    { apply findIndex_first. exists item. split; [done|].
      by apply isTestWithFilenameInTarget_spec. }
    rewrite bool_decide_eq_false_2 by (destruct Hfirst; lia).
    eapply firstIndex_iff; [|exact Hfirst].
    intros x. apply isTestWithFilenameInTarget_spec.
  - intros Hfile Hsuffix.
    assert (match NonDarwinTestItemFinder.truthy filename with
            | Some f => findIndex (isTestWithFilenameInTarget id_ f) testItems_
            | None => -1
            end = -1) as ->.
    { destruct Hfile as [->| [->|(f & -> & Hnone)]]; [done|done|].
      destruct f as [|c f]; [done|]. cbn [NonDarwinTestItemFinder.truthy].
      apply findIndex_none. intros x Hx. apply not_true_iff_false. intros E.
      apply isTestWithFilenameInTarget_spec in E. exact (Hnone x Hx E). }
    rewrite bool_decide_eq_true_2 by done.
    by apply findIndex_first.
  - destruct (NonDarwinTestItemFinder.truthy filename) as [f|] eqn:Ef.
    + case_bool_decide as Hidx.
      * apply findIndex_none.
      * split; [done|]. intros Hnone. exfalso. apply Hidx.
        apply findIndex_none. intros x Hx.
        destruct (isTestWithFilenameInTarget id_ f x) eqn:E; [|done].
        apply isTestWithFilenameInTarget_spec in E as [E _].
        rewrite (Hnone x Hx) in E. done.
    + rewrite bool_decide_eq_true_2 by done. apply findIndex_none.
Qed.

End FinderProperties.

Lemma getIndex_suffix_with_context_witness :
  firstIndex
    (λ item, endsWith (id item) "PassingXCTestSuite/testPassing" = true
             ∧ owningTargetContains Sample.parent Sample.path_join
                 Sample.path_relative "/pkg" Sample.package item
                 "/pkg/Tests/PackageTests/PassingTests.swift")
    [Sample.suiteItem; Sample.testItem]
    (NonDarwinTestItemFinder.getIndex Sample.parent Sample.path_join
       Sample.path_relative "/pkg" Sample.package
       [Sample.suiteItem; Sample.testItem] "PassingXCTestSuite/testPassing"
       (Some "/pkg/Tests/PackageTests/PassingTests.swift")).
Proof.
  apply (proj1 (getIndex_suffix_with_context Sample.parent Sample.path_join
                  Sample.path_relative "/pkg" Sample.package
                  [Sample.suiteItem; Sample.testItem]
                  "PassingXCTestSuite/testPassing"
                  (Some "/pkg/Tests/PackageTests/PassingTests.swift"))
           "/pkg/Tests/PackageTests/PassingTests.swift").
  - reflexivity.
  - discriminate.
  - exists Sample.testItem. split; [|split].
    + apply list_elem_of_further, list_elem_of_here.
    + reflexivity.
    + exists Sample.targetItem,
        {| name := "PackageTests"; path := "Tests/PackageTests";
           sources := ["PassingTests.swift"]; type := test |}.
      split; [reflexivity|]. split; [reflexivity|].
      vm_compute. apply list_elem_of_here.
Defined.

Example getIndex_sample :
  NonDarwinTestItemFinder.getIndex Sample.parent Sample.path_join
    Sample.path_relative "/pkg" Sample.package
    [Sample.suiteItem; Sample.testItem] "PassingXCTestSuite/testPassing"
    (Some "/pkg/Tests/PackageTests/PassingTests.swift") = 1.
Proof. reflexivity. Qed.

(** ** The run state: durations *)

Lemma completed_reports (index : Z) (timing : Timing) (s : TestRunnerTestRunState)
    (d : float) :
  TestRunnerTestRunState.completedDuration (mjoin (startTimes s !! index)) timing
  = Returned d →
  ∃ s', TestRunnerTestRunState.completed index timing s = (Returned (), s')
        ∧ proxy s' =
            let test := TestRunnerTestRunState.itemAt (testItems (proxy s)) index in
            let issueList := default [] (issues s !! index) in
            if bool_decide (0 < length issueList)%nat
            then TestRunProxy.failed test issueList d (proxy s)
            else TestRunProxy.passed test d (proxy s).
Proof.
  intros H. unfold TestRunnerTestRunState.completed. rewrite H.
  eexists. split; reflexivity.
Qed.

Lemma started_records_start_time (index : Z) (startTime : option float)
    (s : TestRunnerTestRunState) :
  startTimes (TestRunnerTestRunState.started index startTime s) !! index
  = Some startTime.
Proof. apply lookup_insert_eq. Qed.

(** Two doubles that the comparison of the machine tells apart are not the
    same double. *)
Lemma float_apart (a b : float) :
  PrimFloat.eqb a b = false → PrimFloat.eqb b b = true → a ≠ b.
Proof. intros H1 H2 ->. congruence. Qed.

(** C2, corrected. When the start of a test was recorded with timestamp
    [T0], a completion in timestamp form computes the duration
    [(timestamp - T0) * 1000] in doubles: the scaling by 1000 of the
    explicit-duration form, applied to the double [timestamp - T0], and this
    is the duration reported for the test. For [T0 = 10.0] and
    [timestamp = 10.006] the duration is 6.000000000000227 (the double
    6 + 2^-42), not the 6 that the explicit form computes for 0.006 seconds:
    the subtraction rounds. The two differ by less than 1e-12. *)
Theorem completed_timestamp_duration (index : Z) (s : TestRunnerTestRunState)
    (T0 timestamp : float) :
  startTimes s !! index = Some (Some T0) →
  TestRunnerTestRunState.completedDuration (mjoin (startTimes s !! index))
    (Timestamp timestamp)
  = Returned ((timestamp - T0) * 1000)%float
  ∧ TestRunnerTestRunState.completed index (Timestamp timestamp) s
    = TestRunnerTestRunState.completed index (Duration (timestamp - T0)%float) s
  ∧ (∃ s', TestRunnerTestRunState.completed index (Timestamp timestamp) s
           = (Returned (), s')
           ∧ proxy s' =
               let test := TestRunnerTestRunState.itemAt (testItems (proxy s)) index in
               let issueList := default [] (issues s !! index) in
               if bool_decide (0 < length issueList)%nat
               then TestRunProxy.failed test issueList
                      ((timestamp - T0) * 1000)%float (proxy s)
               else TestRunProxy.passed test ((timestamp - T0) * 1000)%float (proxy s))
  ∧ (T0 = 10.0%float → timestamp = 10.006%float →
     ∃ d d', TestRunnerTestRunState.completedDuration
               (mjoin (startTimes s !! index)) (Timestamp timestamp) = Returned d
             ∧ TestRunnerTestRunState.completedDuration
                 (mjoin (startTimes s !! index)) (Duration 0.006%float) = Returned d'
             ∧ d = 6.000000000000227%float ∧ d = 0x1.80000000001p+2%float
             ∧ d' = 6%float ∧ d ≠ d'
             ∧ PrimFloat.ltb (PrimFloat.abs (d - d')) 1e-12 = true).
Proof.
  intros Hstart.
  assert (TestRunnerTestRunState.completedDuration (mjoin (startTimes s !! index))
            (Timestamp timestamp) = Returned ((timestamp - T0) * 1000)%float) as Hd.
  { by rewrite Hstart. }
  split; [exact Hd|]. split; [|split].
  - unfold TestRunnerTestRunState.completed. by rewrite Hd.
  - by apply completed_reports.
  - intros -> ->. eexists _, _. split; [exact Hd|]. split; [reflexivity|].
    repeat split; try reflexivity. by apply float_apart.
Qed.

(** C9. A completion in timestamp form for an index without a recorded
    start time throws the "no startTime" error and leaves the run state as
    it was; a completion in explicit-duration form returns normally whether
    or not a start time was recorded. *)
Theorem completed_timestamp_without_start (index : Z) (s : TestRunnerTestRunState)
    (timestamp duration : float) :
  (mjoin (startTimes s !! index) = None →
   TestRunnerTestRunState.completed index (Timestamp timestamp) s
   = (Thrown TestRunnerTestRunState.timestampWithoutStart, s))
  ∧ (∃ s', TestRunnerTestRunState.completed index (Duration duration) s
           = (Returned (), s')).
Proof.
  split.
  - intros H. unfold TestRunnerTestRunState.completed. by rewrite H.
  - destruct (completed_reports index (Duration duration) s (duration * 1000)%float)
      as (s' & H' & _); [done|]. by exists s'.
Qed.

(** ** The catalog: collections *)

Section CatalogProperties.

Import TestItemCollection TestDiscovery.

Lemma TestClass_ind' (P : TestClass → Prop) :
  (∀ t, Forall P (tc_children t) → P t) → ∀ t, P t.
Proof.
  intros H. fix IH 1. intros t. apply H.
  destruct t as [? ? ? ? ? ch ?]. simpl.
  induction ch as [|c ch IHch]; constructor; [apply IH|exact IHch].
Qed.

Lemma TestItem_ind' (P : TestItem → Prop) :
  (∀ e, Forall P (children e) → P e) → ∀ e, P e.
Proof.
  intros H. fix IH 1. intros e. apply H.
  destruct e as [? ? ? ? ? ? ch]. simpl.
  induction ch as [|c ch IHch]; constructor; [apply IH|exact IHch].
Qed.

Lemma get_Some_id (c : list TestItem) (x : string) (e : TestItem) :
  get c x = Some e → id e = x ∧ In e c.
Proof.
  intros H. apply List.find_some in H as [Hin Heq].
  by apply String.eqb_eq in Heq.
Qed.

Lemma get_None (c : list TestItem) (x : string) :
  get c x = None ↔ ¬ In x (List.map id c).
Proof.
  unfold get. induction c as [|e c IH]; simpl; [tauto|].
  destruct (String.eqb (id e) x) eqn:E.
  - apply String.eqb_eq in E. split; [done|]. intros H. exfalso. auto.
  - apply String.eqb_neq in E. rewrite IH. tauto.
Qed.

Lemma get_is_Some (c : list TestItem) (x : string) :
  is_Some (get c x) ↔ In x (List.map id c).
Proof.
  destruct (get c x) eqn:E.
  - split; [|by eauto]. intros _. apply get_Some_id in E as [<- Hin].
    by apply List.in_map.
  - split; [by intros [? ?]|]. intros H. by apply get_None in E.
Qed.

Lemma get_add_eq (item : TestItem) (c : list TestItem) :
  get (add item c) (id item) = Some item.
Proof.
  unfold get. induction c as [|e c IH]; simpl.
  - by rewrite String.eqb_refl.
  - destruct (String.eqb (id e) (id item)) eqn:E; simpl.
    + by rewrite String.eqb_refl.
    + by rewrite E.
Qed.

Lemma get_add_ne (item : TestItem) (c : list TestItem) (x : string) :
  id item ≠ x → get (add item c) x = get c x.
Proof.
  intros Hne. apply String.eqb_neq in Hne.
  unfold get. induction c as [|e c IH]; simpl.
  - by rewrite Hne.
  - destruct (String.eqb (id e) (id item)) eqn:E; simpl.
    + apply String.eqb_eq in E. rewrite E. by rewrite Hne.
    + by rewrite IH.
Qed.

Lemma ids_add (item : TestItem) (c : list TestItem) :
  List.map id (add item c)
  = match get c (id item) with
    | Some _ => List.map id c
    | None => List.map id c ++ [id item]
    end.
Proof.
  unfold get. induction c as [|e c IH]; simpl; [done|].
  destruct (String.eqb (id e) (id item)) eqn:E; simpl.
  - apply String.eqb_eq in E. by rewrite E.
  - rewrite IH. by destruct (List.find _ c).
Qed.

Lemma Forall_add (P : TestItem → Prop) (item : TestItem) (c : list TestItem) :
  P item → Forall P c → Forall P (add item c).
Proof.
  intros Hi Hc. induction Hc as [|e c He Hc IH]; simpl.
  - by constructor.
  - destruct (String.eqb (id e) (id item)); by constructor.
Qed.

Lemma NoDup_ids_add (item : TestItem) (c : list TestItem) :
  NoDup (List.map id c) → NoDup (List.map id (add item c)).
Proof.
  intros H. rewrite ids_add. destruct (get c (id item)) eqn:E; [done|].
  apply get_None in E. apply NoDup_app. repeat split; [done| |apply NoDup_singleton].
  intros x Hx Hx'. apply list_elem_of_In in Hx.
  apply list_elem_of_singleton in Hx'. by subst.
Qed.

Lemma add_present (item : TestItem) (c : list TestItem) :
  NoDup (List.map id c) → In item c → add item c = c.
Proof.
  induction c as [|e c IH]; simpl; [done|].
  intros Hnd [->|Hin].
  - by rewrite String.eqb_refl.
  - apply NoDup_cons in Hnd as [Hnotin Hnd].
    destruct (String.eqb (id e) (id item)) eqn:E.
    + apply String.eqb_eq in E. exfalso. apply Hnotin.
      rewrite E. apply list_elem_of_In. by apply List.in_map.
    + by rewrite IH.
Qed.

Lemma refresh_id (c : list TestItem) :
  NoDup (List.map id c) → fold_left (λ c item, add item c) c c = c.
Proof.
  intros Hnd.
  assert (∀ l, (∀ x, In x l → In x c) → fold_left (λ c item, add item c) l c = c)
    as H.
  { induction l as [|x l IH]; simpl; [done|]. intros Hl.
    rewrite add_present; [|done|by apply Hl; left]. apply IH.
    intros y Hy. apply Hl. by right. }
  by apply H.
Qed.

(** Two collections with the same ids in the same order, which are unique,
    and the same item under each id are equal. *)
Lemma collection_eq (c c' : list TestItem) :
  NoDup (List.map id c) → List.map id c' = List.map id c →
  (∀ x, get c' x = get c x) → c' = c.
Proof.
  revert c'. induction c as [|e c IH]; intros [|e' c'] Hnd Hids Hget;
    simpl in *; try done.
  injection Hids as Hid Hids. apply NoDup_cons in Hnd as [Hnotin Hnd].
  assert (e' = e) as ->.
  { specialize (Hget (id e)). unfold get in Hget. simpl in Hget.
    rewrite Hid, String.eqb_refl in Hget. by injection Hget. }
  f_equal. apply IH; [done|done|].
  intros x. specialize (Hget x). unfold get in *. simpl in Hget.
  destruct (String.eqb (id e) x) eqn:E; [|done].
  apply String.eqb_eq in E. subst x.
  transitivity (@None TestItem); [|symmetry].
  - apply get_None. rewrite Hids. intros H. apply Hnotin. by apply list_elem_of_In.
  - apply get_None. intros H. apply Hnotin. by apply list_elem_of_In.
Qed.

(** ** The catalog: one upsert *)

Lemma upsert_skipped (t : TestClass) (st : list TestItem * nat) :
  active t = false → upsertTestItem t st = st.
Proof.
  unfold active. intros H. apply negb_false_iff in H.
  destruct t; simpl in *. by rewrite H.
Qed.

Lemma upsert_active (t : TestClass) (c : list TestItem) (n : nat) :
  active t = true →
  upsertTestItem t (c, n)
  = (add (updated t (target t c n)
            (upsertAll (tc_children t) (children (target t c n), afterTarget t c n)).1)
         c,
     (upsertAll (tc_children t) (children (target t c n), afterTarget t c n)).2).
Proof.
  unfold active. intros H. apply negb_true_iff in H.
  destruct t; simpl in *. by rewrite H.
Qed.

Lemma target_id (t : TestClass) (c : list TestItem) (n : nat) :
  id (target t c n) = tc_id t.
Proof.
  unfold target. destruct (get c (tc_id t)) eqn:E; simpl; [|done].
  by apply get_Some_id in E as [? _].
Qed.

Lemma upsert_get_eq (t : TestClass) (c : list TestItem) (n : nat) :
  active t = true →
  get (upsertTestItem t (c, n)).1 (tc_id t)
  = Some (updated t (target t c n)
            (upsertAll (tc_children t) (children (target t c n), afterTarget t c n)).1).
Proof.
  intros H. rewrite upsert_active by done. cbn [fst].
  pose proof (get_add_eq
                (updated t (target t c n)
                   (upsertAll (tc_children t)
                      (children (target t c n), afterTarget t c n)).1) c) as H'.
  cbn [id updated] in H'. by rewrite target_id in H'.
Qed.

Lemma upsert_get_ne (t : TestClass) (c : list TestItem) (n : nat) (x : string) :
  tc_id t ≠ x → get (upsertTestItem t (c, n)).1 x = get c x.
Proof.
  intros Hne. destruct (active t) eqn:E.
  - rewrite upsert_active by done. cbn [fst]. apply get_add_ne.
    simpl. by rewrite target_id.
  - by rewrite upsert_skipped.
Qed.

Lemma upsert_ids_present (t : TestClass) (c : list TestItem) (n : nat) :
  (active t = true → is_Some (get c (tc_id t))) →
  List.map id (upsertTestItem t (c, n)).1 = List.map id c.
Proof.
  intros H. destruct (active t) eqn:E.
  - rewrite upsert_active by done. cbn [fst]. rewrite ids_add. simpl.
    rewrite target_id. by destruct (H eq_refl) as [e ->].
  - by rewrite upsert_skipped.
Qed.

(** ** The catalog: sequences of upserts *)

Lemma upsertAll_cons (t : TestClass) (rest : list TestClass) (st : list TestItem * nat) :
  upsertAll (t :: rest) st = upsertAll rest (upsertTestItem t st).
Proof. reflexivity. Qed.

Lemma upsertAll_Run (testItems_ : list TestClass) (st : list TestItem * nat) :
  Run testItems_ st.1 (upsertAll testItems_ st).1.
Proof.
  revert st. induction testItems_ as [|t rest IH]; intros [c n].
  - constructor.
  - rewrite upsertAll_cons. apply (Run_cons t rest c n). apply IH.
Qed.

Lemma Run_app (l1 l2 : list TestClass) (c c' c'' : list TestItem) :
  Run l1 c c' → Run l2 c' c'' → Run (l1 ++ l2) c c''.
Proof.
  intros H1 H2. induction H1; simpl; [done|].
  econstructor. by apply IHRun.
Qed.

Lemma Run_app_inv (l1 l2 : list TestClass) (c c'' : list TestItem) :
  Run (l1 ++ l2) c c'' → ∃ c', Run l1 c c' ∧ Run l2 c' c''.
Proof.
  revert c. induction l1 as [|t l1 IH]; intros c H; simpl in H.
  - exists c. split; [constructor|done].
  - inversion H as [|? ? ? n ? Hrest]; subst.
    destruct (IH _ Hrest) as (c' & H1 & H2).
    exists c'. split; [|done]. by apply (Run_cons t l1 c n).
Qed.

Lemma Run_nil_inv (c c' : list TestItem) : Run [] c c' → c' = c.
Proof. by inversion 1. Qed.

Lemma Run_single_inv (t : TestClass) (c c' : list TestItem) :
  Run [t] c c' → ∃ n, c' = (upsertTestItem t (c, n)).1.
Proof.
  inversion 1 as [|? ? ? n ? Hrest]; subst. apply Run_nil_inv in Hrest.
  by exists n.
Qed.

Lemma group_app (l1 l2 : list TestClass) (x : string) :
  group (l1 ++ l2) x = group l1 x ++ group l2 x.
Proof. apply List.filter_app. Qed.

Lemma kids_app (l1 l2 : list TestClass) (x : string) :
  kids (l1 ++ l2) x = kids l1 x ++ kids l2 x.
Proof. unfold kids. by rewrite group_app, List.flat_map_app. Qed.

Lemma Run_settled (testItems_ : list TestClass) (c c' : list TestItem) (x : string) :
  Run testItems_ c c' → settled testItems_ c c' x.
Proof.
  revert c'. induction testItems_ as [|t l IH] using rev_ind; intros c' H.
  - apply Run_nil_inv in H. by subst.
  - apply Run_app_inv in H as (c1 & H1 & Ht).
    apply Run_single_inv in Ht as [n ->].
    specialize (IH _ H1). unfold settled in *.
    rewrite group_app, kids_app.
    destruct (active t && String.eqb (tc_id t) x) eqn:E.
    + apply andb_true_iff in E as [Hact Hid]. apply String.eqb_eq in Hid.
      assert (group [t] x = [t]) as Hg.
      { unfold group. simpl. by rewrite Hact, Hid, String.eqb_refl. }
      rewrite Hg, last_snoc. subst x.
      rewrite upsert_get_eq by done. eexists. split; [done|].
      cbn [id label tags item_range children ref uri updated].
      split; [apply target_id|]. do 3 (split; [done|]).
      unfold kids at 2. rewrite Hg. simpl. rewrite app_nil_r.
      pose proof (upsertAll_Run (tc_children t)
                    (children (target t c1 n), afterTarget t c1 n)) as Hkids.
      cbn [fst] in Hkids. unfold target in *.
      destruct (last (group l (tc_id t))) as [tl|] eqn:El.
      * destruct IH as (e1 & He1 & _ & _ & _ & _ & Hrun & Hsame).
        rewrite He1 in *. simpl in *. split; [by eapply Run_app|done].
      * assert (group l (tc_id t) = []) as Hnil.
        { destruct (group l (tc_id t)) as [|a g] using rev_ind; [done|].
          by rewrite last_snoc in El. }
        unfold kids. rewrite Hnil. simpl. rewrite IH in *.
        split.
        -- unfold below. by destruct (get c (tc_id t)).
        -- intros e He. by rewrite He.
    + assert (group [t] x = []) as Hg.
      { unfold group. simpl. by rewrite E. }
      unfold kids at 2. rewrite Hg, !app_nil_r.
      assert (get (upsertTestItem t (c1, n)).1 x = get c1 x) as ->; [|done].
      apply andb_false_iff in E as [E|E].
      * by rewrite upsert_skipped.
      * apply String.eqb_neq in E. by apply upsert_get_ne.
Qed.

Lemma last_is_Some {A} (l : list A) (x : A) : In x l → is_Some (last l).
Proof.
  destruct l as [|a l] using rev_ind; [done|]. intros _. rewrite last_snoc. eauto.
Qed.

Lemma last_In {A} (l : list A) (x : A) : last l = Some x → In x l.
Proof.
  destruct l as [|a l] using rev_ind; [done|]. rewrite last_snoc.
  intros [= ->]. apply List.in_or_app. right. by left.
Qed.

Lemma in_group (testItems_ : list TestClass) (t : TestClass) :
  In t testItems_ → active t = true → In t (group testItems_ (tc_id t)).
Proof.
  intros Hin Hact. apply List.filter_In. split; [done|].
  by rewrite Hact, String.eqb_refl.
Qed.

Lemma Run_present (testItems_ : list TestClass) (c c' : list TestItem) (t : TestClass) :
  Run testItems_ c c' → In t testItems_ → active t = true →
  is_Some (get c' (tc_id t)).
Proof.
  intros Hrun Hin Hact. pose proof (Run_settled _ _ _ (tc_id t) Hrun) as Hs.
  unfold settled in Hs.
  destruct (last_is_Some _ _ (in_group _ _ Hin Hact)) as [tl Hl].
  rewrite Hl in Hs. destruct Hs as (e' & -> & _). eauto.
Qed.

Lemma Run_ids_present (testItems_ : list TestClass) (c c' : list TestItem) :
  Run testItems_ c c' →
  (∀ t, In t testItems_ → active t = true → is_Some (get c (tc_id t))) →
  List.map id c' = List.map id c.
Proof.
  induction 1 as [|t rest c n c'' Hrun IH]; intros Hpres; [done|].
  assert (List.map id (upsertTestItem t (c, n)).1 = List.map id c) as Hids.
  { apply upsert_ids_present. intros Hact. apply Hpres; [by left|done]. }
  rewrite IH; [done|]. intros t' Hin Hact.
  apply get_is_Some. rewrite Hids. apply get_is_Some. apply Hpres; [by right|done].
Qed.

(** ** The catalog: unique ids are preserved *)

Lemma uniqueIds_nil : uniqueIds [].
Proof. constructor; [constructor|constructor]. Qed.

Lemma uniqueIds_add (item : TestItem) (c : list TestItem) :
  uniqueIds (children item) → uniqueIds c → uniqueIds (add item c).
Proof.
  intros Hi Hc. inversion Hc as [? Hnd Hall]; subst. constructor.
  - by apply NoDup_ids_add.
  - by apply Forall_add.
Qed.

Lemma uniqueIds_below (c : list TestItem) (x : string) :
  uniqueIds c → uniqueIds (below c x).
Proof.
  intros Hc. unfold below. destruct (get c x) as [e|] eqn:E; simpl.
  - apply get_Some_id in E as [_ Hin]. inversion Hc as [? _ Hall]; subst.
    rewrite Forall_forall in Hall. by apply Hall, list_elem_of_In.
  - apply uniqueIds_nil.
Qed.

Lemma upsertAll_uniqueIds (testItems_ : list TestClass) :
  Forall (λ t, ∀ c n, uniqueIds c → uniqueIds (upsertTestItem t (c, n)).1) testItems_ →
  ∀ c n, uniqueIds c → uniqueIds (upsertAll testItems_ (c, n)).1.
Proof.
  induction 1 as [|t rest Ht Hrest IH]; intros c n Hc; [done|].
  rewrite upsertAll_cons. destruct (upsertTestItem t (c, n)) as [c1 n1] eqn:E.
  apply IH. specialize (Ht c n Hc). by rewrite E in Ht.
Qed.

Lemma upsert_uniqueIds (t : TestClass) (c : list TestItem) (n : nat) :
  uniqueIds c → uniqueIds (upsertTestItem t (c, n)).1.
Proof.
  revert c n. induction t as [t IH] using TestClass_ind'. intros c n Hc.
  destruct (active t) eqn:Hact; [|by rewrite upsert_skipped].
  rewrite upsert_active by done. cbn [fst].
  apply uniqueIds_add; [|done]. cbn [children updated].
  apply upsertAll_uniqueIds; [done|].
  unfold target. pose proof (uniqueIds_below c (tc_id t) Hc) as Hb.
  unfold below in Hb. destruct (get c (tc_id t)); [done|apply uniqueIds_nil].
Qed.

Lemma Run_uniqueIds (testItems_ : list TestClass) (c c' : list TestItem) :
  Run testItems_ c c' → uniqueIds c → uniqueIds c'.
Proof.
  induction 1 as [|t rest c n c'' Hrun IH]; [done|].
  intros Hc. by apply IH, upsert_uniqueIds.
Qed.

(** ** The catalog: upserting the same items again changes nothing *)

Lemma weight_pos (t : TestClass) : (0 < weight t)%nat.
Proof. destruct t; simpl; lia. Qed.

Lemma weights_app (l1 l2 : list TestClass) :
  weights (l1 ++ l2) = (weights l1 + weights l2)%nat.
Proof. unfold weights. by rewrite List.map_app, list_sum_app. Qed.

Lemma weights_filter (f : TestClass → bool) (l : list TestClass) :
  (weights (List.filter f l) ≤ weights l)%nat.
Proof.
  unfold weights. induction l as [|t l IH]; simpl; [done|].
  destruct (f t); simpl; lia.
Qed.

Lemma weights_children (l : list TestClass) :
  (weights (flat_map tc_children l) + length l = weights l)%nat.
Proof.
  induction l as [|t l IH]; simpl; [done|].
  rewrite weights_app. unfold weights in *. simpl.
  destruct t; simpl in *. lia.
Qed.

Lemma weights_kids (testItems_ : list TestClass) (x : string) (t : TestClass) :
  In t (group testItems_ x) → (weights (kids testItems_ x) < weights testItems_)%nat.
Proof.
  intros Hin. unfold kids.
  pose proof (weights_children (group testItems_ x)).
  pose proof (weights_filter (λ t, active t && String.eqb (tc_id t) x) testItems_).
  fold (group testItems_ x) in *.
  destruct (group testItems_ x); [done|]. simpl in *. lia.
Qed.

Lemma TestItem_eq (e e' : TestItem) :
  ref e = ref e' → id e = id e' → uri e = uri e' → label e = label e' →
  tags e = tags e' → item_range e = item_range e' → children e = children e' →
  e = e'.
Proof. destruct e, e'; simpl; intros; by subst. Qed.

Lemma Run_twice_bounded (k : nat) :
  ∀ (testItems_ : list TestClass) (c c' c'' : list TestItem),
    (weights testItems_ ≤ k)%nat → uniqueIds c →
    Run testItems_ c c' → Run testItems_ c' c'' → c'' = c'.
Proof.
  induction k as [|k IH]; intros l c c' c'' Hk Hc H1 H2.
  - destruct l as [|t l].
    + apply Run_nil_inv in H1, H2. by subst.
    + unfold weights in Hk. simpl in Hk. pose proof (weight_pos t). lia.
  - pose proof (Run_uniqueIds _ _ _ H1 Hc) as Hc'.
    inversion Hc' as [? Hnd _]; subst.
    apply collection_eq; [done| |].
    + apply (Run_ids_present _ _ _ H2). intros t Hin Hact.
      by apply (Run_present _ _ _ _ H1).
    + intros x.
      pose proof (Run_settled _ _ _ x H1) as S1.
      pose proof (Run_settled _ _ _ x H2) as S2. unfold settled in *.
      destruct (last (group l x)) as [tl|] eqn:El; [|done].
      destruct S1 as (e' & He' & Hid' & Hl' & Ht' & Hr' & Hrun' & _).
      destruct S2 as (e'' & He'' & Hid'' & Hl'' & Ht'' & Hr'' & Hrun'' & Hsame).
      rewrite He', He''. f_equal.
      destruct (Hsame e' He') as [Href Huri].
      apply TestItem_eq; try congruence.
      unfold below in Hrun'' at 1. rewrite He' in Hrun''. simpl in Hrun''.
      apply (IH (kids l x) (below c x)); [|by apply uniqueIds_below|done|done].
      pose proof (weights_kids l x tl (last_In _ _ El)). lia.
Qed.

Lemma Run_twice (testItems_ : list TestClass) (c c' c'' : list TestItem) :
  uniqueIds c → Run testItems_ c c' → Run testItems_ c' c'' → c'' = c'.
Proof. by apply (Run_twice_bounded (weights testItems_)). Qed.

(** ** The catalog: a second pass creates nothing *)

Lemma covers_Run (t : TestClass) :
  ∀ (testItems_ : list TestClass) (c c' : list TestItem),
    covers t c → Run testItems_ c c' → covers t c'.
Proof.
  induction t as [t IH] using TestClass_ind'. intros l c c' Hcov Hrun.
  inversion Hcov as [|? ? e He Hkids]; subst; [by apply covers_skipped|].
  pose proof (Run_settled _ _ _ (tc_id t) Hrun) as Hs. unfold settled in Hs.
  destruct (last (group l (tc_id t))) as [tl|].
  - destruct Hs as (e' & He' & _ & _ & _ & _ & Hrun' & _).
    apply (covers_active t c' e' He').
    unfold below in Hrun'. rewrite He in Hrun'. simpl in Hrun'.
    rewrite Forall_forall in IH, Hkids. apply Forall_forall. intros ch Hch.
    by apply (IH ch Hch (kids l (tc_id t)) (children e)); [apply Hkids|].
  - rewrite <- Hs in He. by apply (covers_active t c' e He).
Qed.

Lemma Run_covers_bounded (k : nat) :
  ∀ (testItems_ : list TestClass) (c c' : list TestItem),
    (weights testItems_ ≤ k)%nat → Run testItems_ c c' →
    Forall (λ t, covers t c') testItems_.
Proof.
  induction k as [|k IH]; intros l c c' Hk Hrun.
  - destruct l as [|t l]; [constructor|].
    unfold weights in Hk. simpl in Hk. pose proof (weight_pos t). lia.
  - apply Forall_forall. intros t Hin. apply list_elem_of_In in Hin.
    destruct (active t) eqn:Hact; [|by apply covers_skipped].
    pose proof (Run_settled _ _ _ (tc_id t) Hrun) as Hs. unfold settled in Hs.
    pose proof (in_group _ _ Hin Hact) as Hg.
    destruct (last_is_Some _ _ Hg) as [tl Hl]. rewrite Hl in Hs.
    destruct Hs as (e' & He' & _ & _ & _ & _ & Hrun' & _).
    apply (covers_active t c' e' He').
    assert (Forall (λ ch, covers ch (children e')) (kids l (tc_id t))) as Hall.
    { apply (IH _ (below c (tc_id t))); [|done].
      pose proof (weights_kids l (tc_id t) t Hg). lia. }
    rewrite Forall_forall in Hall. apply Forall_forall. intros ch Hch.
    apply Hall. apply list_elem_of_In. unfold kids. apply List.in_flat_map.
    exists t. split; [done|]. by apply list_elem_of_In.
Qed.

Lemma upsertAll_counter (testItems_ : list TestClass) :
  Forall (λ t, ∀ c n, covers t c → (upsertTestItem t (c, n)).2 = n) testItems_ →
  ∀ c n, Forall (λ t, covers t c) testItems_ → (upsertAll testItems_ (c, n)).2 = n.
Proof.
  induction 1 as [|t rest Ht Hrest IH]; intros c n Hcov; [done|].
  apply Forall_cons in Hcov as [Hc Hcov].
  rewrite upsertAll_cons.
  pose proof (Ht c n Hc) as Hn.
  destruct (upsertTestItem t (c, n)) as [c1 n1] eqn:E. simpl in Hn. subst n1.
  apply IH. eapply Forall_impl; [exact Hcov|]. intros t' Ht'.
  apply (covers_Run t' [t] c c1 Ht').
  apply (Run_cons t [] c n). rewrite E. constructor.
Qed.

Lemma upsert_counter (t : TestClass) (c : list TestItem) (n : nat) :
  covers t c → (upsertTestItem t (c, n)).2 = n.
Proof.
  revert c n. induction t as [t IH] using TestClass_ind'. intros c n Hcov.
  inversion Hcov as [|? ? e He Hkids]; subst; [by rewrite upsert_skipped|].
  destruct (active t) eqn:Hact; [|by rewrite upsert_skipped].
  rewrite upsert_active by done. cbn [snd].
  unfold target, afterTarget. rewrite He. simpl.
  by apply upsertAll_counter.
Qed.

(** ** The catalog: properties of single items *)

Lemma Everywhere_children (P : TestItem → Prop) (e : TestItem) :
  Everywhere P e → Forall (Everywhere P) (children e).
Proof. by inversion 1. Qed.

Lemma upsertAll_Everywhere (P : TestItem → Prop) (testItems_ : list TestClass) :
  Forall (λ t, ∀ c n, Forall (Everywhere P) c →
                      Forall (Everywhere P) (upsertTestItem t (c, n)).1) testItems_ →
  ∀ c n, Forall (Everywhere P) c → Forall (Everywhere P) (upsertAll testItems_ (c, n)).1.
Proof.
  induction 1 as [|t rest Ht Hrest IH]; intros c n Hc; [done|].
  rewrite upsertAll_cons. destruct (upsertTestItem t (c, n)) as [c1 n1] eqn:E.
  apply IH. specialize (Ht c n Hc). by rewrite E in Ht.
Qed.

(** A property that every upserted item has by what [upsertTestItem]
    writes on it holds everywhere afterwards if it held everywhere before. *)
Lemma upsert_Everywhere (P : TestItem → Prop) (t : TestClass) :
  (∀ t', In t' (incoming t) → active t' = true →
         ∀ e k, id e = tc_id t' → P (updated t' e k)) →
  ∀ c n, Forall (Everywhere P) c → Forall (Everywhere P) (upsertTestItem t (c, n)).1.
Proof.
  induction t as [t IH] using TestClass_ind'. intros HP c n Hc.
  destruct (active t) eqn:Hact; [|by rewrite upsert_skipped].
  rewrite upsert_active by done. cbn [fst].
  apply Forall_add; [|done]. constructor.
  - apply HP; [by destruct t; left|done|apply target_id].
  - cbn [children updated]. apply upsertAll_Everywhere.
    + rewrite Forall_forall in IH. apply Forall_forall. intros ch Hch.
      apply (IH ch Hch). intros t' Ht'. apply HP.
      destruct t. simpl. right. apply List.in_flat_map. exists ch.
      split; [|done]. by apply list_elem_of_In.
    + unfold target. destruct (get c (tc_id t)) as [e|] eqn:E; simpl; [|constructor].
      apply get_Some_id in E as [_ Hin]. rewrite Forall_forall in Hc.
      by apply Everywhere_children, Hc, list_elem_of_In.
Qed.

Lemma upsertAll_Everywhere_incoming (P : TestItem → Prop) (testItems_ : list TestClass) :
  (∀ t', In t' (flat_map incoming testItems_) → active t' = true →
         ∀ e k, id e = tc_id t' → P (updated t' e k)) →
  ∀ c n, Forall (Everywhere P) c → Forall (Everywhere P) (upsertAll testItems_ (c, n)).1.
Proof.
  intros HP. apply upsertAll_Everywhere. apply Forall_forall. intros t Ht.
  apply upsert_Everywhere. intros t' Ht'. apply HP.
  apply List.in_flat_map. exists t. split; [|done]. by apply list_elem_of_In.
Qed.

(** ** The catalog: pruning *)

Section Pruning.

Variable lookup : gmap string TestClass.
Variable filterFile : option string.

Local Abbreviation prune := (removeOldTests lookup filterFile).
Local Abbreviation pruneIn := (removeOldTestsIn lookup filterFile).
Local Abbreviation remove := (shouldRemove lookup filterFile).

Lemma removeOldTests_eq (e : TestItem) :
  prune e
  = if remove e
    then (None, (pruneIn (children e)).2 ++ [withChildren e (pruneIn (children e)).1])
    else (Some (withChildren e (pruneIn (children e)).1), (pruneIn (children e)).2).
Proof. by destruct e. Qed.

Lemma removeOldTestsIn_nil : pruneIn [] = ([], []).
Proof. reflexivity. Qed.

Lemma removeOldTestsIn_cons (e : TestItem) (c : list TestItem) :
  pruneIn (e :: c)
  = (match (prune e).1 with
     | Some e' => e' :: (pruneIn c).1
     | None => (pruneIn c).1
     end,
     (prune e).2 ++ (pruneIn c).2).
Proof. reflexivity. Qed.

Lemma removeOldTestsIn_In (c : list TestItem) (e' : TestItem) :
  In e' (pruneIn c).1 ↔ ∃ e, In e c ∧ (prune e).1 = Some e'.
Proof.
  induction c as [|a c IH].
  - simpl. split; [done|]. by intros (? & ? & _).
  - rewrite removeOldTestsIn_cons. cbn [fst].
    destruct (prune a).1 as [a'|] eqn:E; simpl; rewrite IH.
    + split.
      * intros [<-|(e & He & Hp)]; [exists a; by split; [left|]|].
        exists e. by split; [right|].
      * intros (e & [->|He] & Hp); [left; congruence|]. right. by exists e.
    + split.
      * intros (e & He & Hp). exists e. by split; [right|].
      * intros (e & [->|He] & Hp); [congruence|]. by exists e.
Qed.

Lemma removeOldTests_kept (e e' : TestItem) :
  (prune e).1 = Some e' →
  remove e = false ∧ e' = withChildren e (pruneIn (children e)).1.
Proof.
  rewrite removeOldTests_eq. destruct (remove e); simpl; [done|].
  by intros [= <-].
Qed.

Lemma removeOldTestsIn_ids (c : list TestItem) (x : string) :
  In x (List.map id (pruneIn c).1) → In x (List.map id c).
Proof.
  rewrite !List.in_map_iff. intros (e' & <- & He').
  apply removeOldTestsIn_In in He' as (e & He & Hp).
  apply removeOldTests_kept in Hp as [_ ->]. by exists e.
Qed.

Lemma removeOldTestsIn_NoDup (c : list TestItem) :
  NoDup (List.map id c) → NoDup (List.map id (pruneIn c).1).
Proof.
  induction c as [|a c IH]; [done|]. simpl List.map at 1.
  intros Hnd. apply NoDup_cons in Hnd as [Hnotin Hnd].
  rewrite removeOldTestsIn_cons. cbn [fst].
  destruct (prune a).1 as [a'|] eqn:E; [|by apply IH].
  apply removeOldTests_kept in E as [_ ->]. simpl. apply NoDup_cons.
  split; [|by apply IH]. intros H. apply Hnotin.
  apply list_elem_of_In. by apply removeOldTestsIn_ids, list_elem_of_In.
Qed.

Lemma removeOldTestsIn_uniqueIds (c : list TestItem) :
  uniqueIds c → uniqueIds (pruneIn c).1.
Proof.
  assert (∀ e, uniqueIds (children e) → uniqueIds (pruneIn (children e)).1) as Hitem.
  { induction e as [e IH] using TestItem_ind'. intros He.
    inversion He as [? Hnd Hall]; subst. constructor.
    - by apply removeOldTestsIn_NoDup.
    - apply Forall_forall. intros d' Hd'. apply list_elem_of_In in Hd'.
      apply removeOldTestsIn_In in Hd' as (d & Hd & Hp).
      apply removeOldTests_kept in Hp as [_ ->]. simpl.
      rewrite Forall_forall in IH, Hall. apply list_elem_of_In in Hd.
      by apply IH, Hall. }
  intros Hc. inversion Hc as [? Hnd Hall]; subst. constructor.
  - by apply removeOldTestsIn_NoDup.
  - apply Forall_forall. intros d' Hd'. apply list_elem_of_In in Hd'.
    apply removeOldTestsIn_In in Hd' as (d & Hd & Hp).
    apply removeOldTests_kept in Hp as [_ ->]. simpl.
    rewrite Forall_forall in Hall. by apply Hitem, Hall, list_elem_of_In.
Qed.

(** A property of an item's own fields survives the pruning. *)
Lemma removeOldTestsIn_Everywhere (P : TestItem → Prop) (c : list TestItem) :
  (∀ e k, P e → P (withChildren e k)) →
  Forall (Everywhere P) c → Forall (Everywhere P) (pruneIn c).1.
Proof.
  intros HP.
  assert (∀ e, Everywhere P e → Forall (Everywhere P) (pruneIn (children e)).1)
    as Hitem.
  { induction e as [e IH] using TestItem_ind'. intros He.
    apply Everywhere_children in He.
    apply Forall_forall. intros d' Hd'. apply list_elem_of_In in Hd'.
    apply removeOldTestsIn_In in Hd' as (d & Hd & Hp).
    apply removeOldTests_kept in Hp as [_ ->].
    rewrite Forall_forall in IH, He. apply list_elem_of_In in Hd.
    constructor; [apply HP; by destruct (He d Hd)|]. simpl. by apply IH, He. }
  intros Hc. apply Forall_forall. intros d' Hd'. apply list_elem_of_In in Hd'.
  apply removeOldTestsIn_In in Hd' as (d & Hd & Hp).
  apply removeOldTests_kept in Hp as [_ ->].
  rewrite Forall_forall in Hc. apply list_elem_of_In in Hd.
  constructor; [apply HP; by destruct (Hc d Hd)|]. simpl. by apply Hitem, Hc.
Qed.

(** What is left after the pruning is kept by the pruning rule. *)
Lemma removeOldTestsIn_kept (c : list TestItem) :
  Forall (Everywhere (λ e, remove e = false)) (pruneIn c).1.
Proof.
  assert (∀ e, Forall (Everywhere (λ e, remove e = false)) (pruneIn (children e)).1)
    as Hitem.
  { induction e as [e IH] using TestItem_ind'.
    apply Forall_forall. intros d' Hd'. apply list_elem_of_In in Hd'.
    apply removeOldTestsIn_In in Hd' as (d & Hd & Hp).
    apply removeOldTests_kept in Hp as [Hk ->].
    rewrite Forall_forall in IH. apply list_elem_of_In in Hd.
    constructor; [by destruct d|]. simpl. by apply IH. }
  apply Forall_forall. intros d' Hd'. apply list_elem_of_In in Hd'.
  apply removeOldTestsIn_In in Hd' as (d & Hd & Hp).
  apply removeOldTests_kept in Hp as [Hk ->].
  constructor; [by destruct d|]. simpl. apply Hitem.
Qed.

Lemma withChildren_same (e : TestItem) : withChildren e (children e) = e.
Proof. by destruct e. Qed.

(** Where the pruning rule keeps everything, the pruning changes nothing. *)
Lemma removeOldTestsIn_fixed (c : list TestItem) :
  Forall (Everywhere (λ e, remove e = false)) c → pruneIn c = (c, []).
Proof.
  assert (∀ e, Everywhere (λ e, remove e = false) e → prune e = (Some e, [])) as Hitem.
  { induction e as [e IH] using TestItem_ind'. intros He.
    inversion He as [? Hk Hkids]; subst. rewrite removeOldTests_eq, Hk.
    assert (pruneIn (children e) = (children e, [])) as ->.
    { clear Hk He. induction (children e) as [|d ds IHds]; [done|].
      apply Forall_cons in IH as [IHd IH]. apply Forall_cons in Hkids as [Hd Hkids].
      rewrite removeOldTestsIn_cons, (IHd Hd), (IHds IH Hkids). done. }
    simpl. by rewrite withChildren_same. }
  induction 1 as [|e c He Hc IH]; [done|].
  by rewrite removeOldTestsIn_cons, (Hitem e He), IH.
Qed.

(** Every item the pruning deletes satisfies the pruning rule. *)
Lemma removeOldTestsIn_removed (c : list TestItem) :
  Forall (λ e, remove e = true) (pruneIn c).2.
Proof.
  assert (∀ e, Forall (λ e, remove e = true) (prune e).2) as Hitem.
  { induction e as [e IH] using TestItem_ind'.
    assert (Forall (λ e, remove e = true) (pruneIn (children e)).2) as Hkids.
    { induction (children e) as [|d ds IHds]; [constructor|].
      apply Forall_cons in IH as [IHd IH].
      rewrite removeOldTestsIn_cons. cbn [snd]. apply Forall_app. auto. }
    rewrite removeOldTests_eq. destruct (remove e) eqn:E; simpl; [|done].
    apply Forall_app. split; [done|]. constructor; [|constructor]. by destruct e. }
  induction c as [|e c IH]; [constructor|].
  rewrite removeOldTestsIn_cons. cbn [snd]. apply Forall_app. auto.
Qed.

End Pruning.

(** ** The incoming lookup *)

Lemma traverse_eq (t : TestClass) (d : gmap string TestClass) :
  traverse None t d
  = fold_left (λ d item, traverse None item d) (tc_children t) (<[tc_id t := t]> d).
Proof. by destruct t. Qed.

Lemma traverseAll_mono (l : list TestClass) (x : string) :
  Forall (λ t, ∀ d, is_Some (d !! x) → is_Some (traverse None t d !! x)) l →
  ∀ d, is_Some (d !! x) → is_Some (fold_left (λ d item, traverse None item d) l d !! x).
Proof.
  induction 1 as [|t l Ht Hl IH]; intros d Hd; [done|]. simpl. by apply IH, Ht.
Qed.

Lemma traverse_mono (t : TestClass) (x : string) (d : gmap string TestClass) :
  is_Some (d !! x) → is_Some (traverse None t d !! x).
Proof.
  revert d. induction t as [t IH] using TestClass_ind'. intros d Hd.
  rewrite traverse_eq. apply traverseAll_mono; [done|].
  apply lookup_insert_is_Some. destruct (decide (tc_id t = x)); auto.
Qed.

Lemma traverseAll_incoming (l : list TestClass) (t' : TestClass) :
  Forall (λ t, ∀ d, In t' (incoming t) → is_Some (traverse None t d !! tc_id t')) l →
  ∀ d, In t' (flat_map incoming l) →
       is_Some (fold_left (λ d item, traverse None item d) l d !! tc_id t').
Proof.
  induction 1 as [|t l Ht Hl IH]; intros d Hin; [done|]. simpl in *.
  apply List.in_app_or in Hin as [Hin|Hin].
  - apply traverseAll_mono; [|by apply Ht].
    apply Forall_forall. intros ? _ ?. apply traverse_mono.
  - by apply IH.
Qed.

Lemma traverse_incoming (t t' : TestClass) (d : gmap string TestClass) :
  In t' (incoming t) → is_Some (traverse None t d !! tc_id t').
Proof.
  revert d. induction t as [t IH] using TestClass_ind'. intros d Hin.
  rewrite traverse_eq.
  assert (t' = t ∨ In t' (flat_map incoming (tc_children t))) as [->|Hin'].
  { destruct t. simpl in Hin. destruct Hin; auto. }
  - apply traverseAll_mono.
    + apply Forall_forall. intros ? _ ?. apply traverse_mono.
    + apply lookup_insert_is_Some. auto.
  - by apply traverseAll_incoming.
Qed.

Lemma createIncomingTestLookup_incoming (testItems_ : list TestClass) (t' : TestClass) :
  In t' (flat_map incoming testItems_) →
  is_Some (createIncomingTestLookup testItems_ None !! tc_id t').
Proof.
  apply traverseAll_incoming. apply Forall_forall. intros t _ d.
  apply traverse_incoming.
Qed.

(** ** updateTests *)

Lemma updateTests_eq (testController : TestController) (testItems_ : list TestClass)
    (filterFile : option string) :
  uniqueIds (items testController) →
  let lookup := createIncomingTestLookup testItems_ None in
  let pruned := removeOldTestsIn lookup filterFile (items testController) in
  let upserted := upsertAll testItems_ (pruned.1, nextRef testController) in
  updateTests testController testItems_ filterFile
  = ({| items := upserted.1; nextRef := upserted.2 |}, pruned.2)
  ∧ uniqueIds upserted.1
  ∧ Forall (Everywhere (λ e, shouldRemove lookup filterFile e = false)) upserted.1
  ∧ Forall (λ t, covers t upserted.1) testItems_.
Proof.
  intros Hc lookup pruned upserted.
  pose proof (removeOldTestsIn_uniqueIds lookup filterFile _ Hc) as Hp.
  pose proof (upsertAll_Run testItems_ (pruned.1, nextRef testController)) as Hrun.
  cbn [fst] in Hrun. fold pruned in Hp. fold upserted in Hrun.
  pose proof (Run_uniqueIds _ _ _ Hrun Hp) as Hu.
  split; [|split; [done|split]].
  - unfold updateTests. fold lookup.
    assert ((if bool_decide (length (items testController) ≠ 0%nat)
             then removeOldTestsIn lookup filterFile (items testController)
             else (items testController, [])) = pruned) as ->.
    { case_bool_decide as Hlen; [done|].
      unfold pruned. destruct (items testController); [done|]. simpl in Hlen. lia. }
    fold upserted. rewrite refresh_id; [done|]. by inversion Hu.
  - apply upsertAll_Everywhere_incoming; [|apply removeOldTestsIn_kept].
    intros t' Ht' _ e k He. unfold shouldRemove. simpl. rewrite He.
    rewrite bool_decide_eq_true_2; [done|].
    by apply createIncomingTestLookup_incoming.
  - by apply (Run_covers_bounded (weights testItems_) _ pruned.1).
Qed.

(** C6. Reconciling a catalog with a snapshot and then with the same
    snapshot again gives the catalog of the first pass: the same tree, item
    by item and identity by identity, nothing removed and no item created by
    the second pass. Ids stay unique in every collection of the tree. An
    upsert of an item whose id is already in the collection it works on
    keeps the object that is there (same identity, same place) and creates
    none at that level. Catalogs are those a [TestItemCollection] can hold:
    ids unique within each collection. *)
Theorem updateTests_idempotent (testController : TestController)
    (testItems_ : list TestClass) (filterFile : option string) :
  uniqueIds (items testController) →
  let once := (updateTests testController testItems_ filterFile).1 in
  updateTests once testItems_ filterFile = (once, [])
  ∧ uniqueIds (items once)
  ∧ (∀ (t : TestClass) (c : list TestItem) (n : nat) (e : TestItem),
       active t = true → get c (tc_id t) = Some e →
       ∃ e', get (upsertTestItem t (c, n)).1 (tc_id t) = Some e'
             ∧ ref e' = ref e
             ∧ List.map id (upsertTestItem t (c, n)).1 = List.map id c
             ∧ afterTarget t c n = n).
Proof.
  intros Hc once.
  destruct (updateTests_eq testController testItems_ filterFile Hc)
    as (Hfirst & Hu & Hkept & Hcov).
  set (lookup := createIncomingTestLookup testItems_ None) in *.
  set (pruned := removeOldTestsIn lookup filterFile (items testController)) in *.
  set (upserted := upsertAll testItems_ (pruned.1, nextRef testController)) in *.
  assert (once = {| items := upserted.1; nextRef := upserted.2 |}) as Honce
    by (unfold once; by rewrite Hfirst).
  split; [|split].
  - destruct (updateTests_eq once testItems_ filterFile) as (Hsecond & _).
    { by rewrite Honce. }
    rewrite Hsecond, Honce. cbn [items nextRef]. fold lookup.
    rewrite (removeOldTestsIn_fixed lookup filterFile _ Hkept). cbn [fst snd].
    f_equal.
    pose proof (upsertAll_Run testItems_ (pruned.1, nextRef testController)) as Hrun1.
    pose proof (upsertAll_Run testItems_ (upserted.1, upserted.2)) as Hrun2.
    cbn [fst] in Hrun1, Hrun2. fold upserted in Hrun1.
    f_equal.
    + apply (Run_twice testItems_ pruned.1); [|done|done].
      by apply removeOldTestsIn_uniqueIds.
    + apply upsertAll_counter; [|done].
      apply Forall_forall. intros t _ c n. apply upsert_counter.
  - by rewrite Honce.
  - intros t c n e Hact He.
    rewrite upsert_get_eq by done. eexists. split; [done|].
    cbn [ref updated]. unfold target, afterTarget. rewrite He. simpl.
    split; [done|]. split; [|done].
    apply upsert_ids_present. intros _. by rewrite He.
Qed.

(** C10. [upsertTestItem] returns at once for an item of style
    "swift-testing": the collection and the controller are as before, so
    neither the item nor anything below it is created, updated or inserted.
    A catalog without items of that style has none after [updateTests]
    either. *)
Theorem swift_testing_items_are_skipped :
  (∀ (t : TestClass) (st : list TestItem * nat),
     tc_style t = "swift-testing" → upsertTestItem t st = st)
  ∧ (∀ (testController : TestController) (testItems_ : list TestClass)
       (filterFile : option string),
       Forall (Everywhere (λ e, styleTag e ≠ Some "swift-testing"))
              (items testController) →
       Forall (Everywhere (λ e, styleTag e ≠ Some "swift-testing"))
              (items (updateTests testController testItems_ filterFile).1)).
Proof.
  split.
  - intros t st Hstyle. apply upsert_skipped. unfold active. by rewrite Hstyle.
  - intros testController testItems_ filterFile Hc. unfold updateTests. cbn [fst items].
    set (lookup := createIncomingTestLookup testItems_ None).
    set (pruned := if bool_decide (length (items testController) ≠ 0%nat)
                   then removeOldTestsIn lookup filterFile (items testController)
                   else (items testController, [])).
    assert (Forall (Everywhere (λ e, styleTag e ≠ Some "swift-testing")) pruned.1)
      as Hp.
    { unfold pruned. case_bool_decide; [|done].
      apply removeOldTestsIn_Everywhere; [|done]. by intros [] k. }
    assert (Forall (Everywhere (λ e, styleTag e ≠ Some "swift-testing"))
              (upsertAll testItems_ (pruned.1, nextRef testController)).1) as Hu.
    { apply upsertAll_Everywhere_incoming; [|done].
      intros t' _ Hact e k _. unfold styleTag. simpl. intros [= Hs].
      unfold active in Hact. by rewrite Hs in Hact. }
    revert Hu. generalize (upsertAll testItems_ (pruned.1, nextRef testController)).1.
    intros c Hall.
    assert (∀ l c', Forall (Everywhere (λ e, styleTag e ≠ Some "swift-testing")) l →
                    Forall (Everywhere (λ e, styleTag e ≠ Some "swift-testing")) c' →
                    Forall (Everywhere (λ e, styleTag e ≠ Some "swift-testing"))
                           (fold_left (λ c item, add item c) l c')) as Hfold.
    { induction l as [|x l IH]; intros c' Hl Hc'; [done|]. simpl.
      apply Forall_cons in Hl as [Hx Hl]. apply IH; [done|]. by apply Forall_add. }
    by apply Hfold.
Qed.

(** C5 (amended). The pruning phase of [updateTests] with a filter file [A]
    deletes only items whose id is absent from the incoming lookup and
    whose uri is [A]. An item of a collection that is located elsewhere
    stays in that collection with the same identity, id, uri, label, tags and
    range, its children pruned by the same rule; it is in the catalog
    afterwards whenever every item above it is kept; and an item with no
    item located in [A] at or below it is exactly as before. *)
Theorem pruning_is_scoped (lookup : gmap string TestClass) (A : string)
    (c : list TestItem) :
  Forall (λ e, lookup !! id e = None ∧ uri e = Some A)
         (removeOldTestsIn lookup (Some A) c).2
  ∧ (∀ e, keptPath lookup (Some A) c e → uri e ≠ Some A →
          In (withChildren e (removeOldTestsIn lookup (Some A) (children e)).1)
             (allItems (removeOldTestsIn lookup (Some A) c).1))
  ∧ (∀ e, Forall (λ d, uri d ≠ Some A) (descendants e) →
          removeOldTests lookup (Some A) e = (Some e, []))
  ∧ (∀ testController testItems_,
       (updateTests testController testItems_ (Some A)).2
       = (removeOldTestsIn (createIncomingTestLookup testItems_ None) (Some A)
                           (items testController)).2).
Proof.
  assert (∀ e, uri e ≠ Some A → shouldRemove lookup (Some A) e = false) as Hother.
  { intros e He. unfold shouldRemove, inFilterFile.
    rewrite (bool_decide_eq_false_2 _ He). apply andb_false_r. }
  split; [|split; [|split]].
  - eapply Forall_impl; [apply removeOldTestsIn_removed|].
    intros e He. unfold shouldRemove, inFilterFile in He.
    apply andb_true_iff in He as [Hl Hu].
    apply negb_true_iff, bool_decide_eq_false in Hl.
    apply bool_decide_eq_true in Hu. split; [|done].
    destruct (lookup !! id e) eqn:E; [|done]. exfalso. apply Hl. eauto.
  - intros e Hpath He. induction Hpath as [c e Hin|c p e Hin Hk Hpath IH].
    + apply List.in_flat_map.
      exists (withChildren e (removeOldTestsIn lookup (Some A) (children e)).1).
      split; [|by left]. apply removeOldTestsIn_In. exists e. split; [done|].
      by rewrite removeOldTests_eq, (Hother e He).
    + apply List.in_flat_map.
      exists (withChildren p (removeOldTestsIn lookup (Some A) (children p)).1).
      split.
      * apply removeOldTestsIn_In. exists p. split; [done|].
        by rewrite removeOldTests_eq, Hk.
      * right. by apply IH.
  - induction e as [e IH] using TestItem_ind'. intros Hall.
    assert (Forall (λ d, uri d ≠ Some A) (descendants e)
            → uri e ≠ Some A
              ∧ Forall (λ d, Forall (λ d', uri d' ≠ Some A) (descendants d))
                       (children e)) as Hsplit.
    { destruct e as [? ? ? ? ? ? ch]. simpl. intros H.
      apply Forall_cons in H as [H1 H2]. split; [done|].
      clear -H2. induction ch as [|d ch IHch]; [constructor|].
      simpl in H2. apply Forall_app in H2 as [Hd H2]. constructor; auto. }
    destruct (Hsplit Hall) as [He Hkids].
    rewrite removeOldTests_eq, (Hother e He).
    assert (removeOldTestsIn lookup (Some A) (children e) = (children e, [])) as ->.
    { clear Hall Hsplit He. induction (children e) as [|d ds IHds]; [done|].
      apply Forall_cons in IH as [IHd IH]. apply Forall_cons in Hkids as [Hd Hkids].
      by rewrite removeOldTestsIn_cons, (IHd Hd), (IHds IH Hkids). }
    simpl. by rewrite withChildren_same.
  - intros testController testItems_. unfold updateTests. cbn [snd].
    case_bool_decide as Hlen; [done|].
    destruct (items testController); [done|]. simpl in Hlen. lia.
Qed.

End CatalogProperties.

(** ** The run coordinator *)

Section RunProperties.

Import TestRunner.

Variable env : Env.

Lemma quietly_ret {A} (a : A) : quietly (mret a : M A).
Proof. by intros s. Qed.

Lemma quietly_throw {A} (e : JsError) : quietly (throw e : M A).
Proof. by intros s. Qed.

Lemma quietly_pending {A} : quietly (pending : M A).
Proof. by intros s. Qed.

Lemma quietly_bind {A B} (m : M A) (f : A → M B) :
  quietly m → (∀ a, quietly (f a)) → quietly (m ≫= f).
Proof.
  intros Hm Hf s Hs. unfold mbind, M_bind. specialize (Hm s Hs).
  destruct (m s) as [[a|e|] s']; simpl in *; [|done|done].
  destruct Hm as (Hc & H1 & H2). destruct (Hf a s' Hc) as (Hc' & H1' & H2').
  split; [done|]. split; congruence.
Qed.

Lemma quietly_tryCatch {A} (m : M A) (h : JsError → M A) :
  quietly m → (∀ e, quietly (h e)) → quietly (tryCatch m h).
Proof.
  intros Hm Hh s Hs. unfold tryCatch. specialize (Hm s Hs).
  destruct (m s) as [[a|e|] s']; simpl in *; [done| |done].
  destruct Hm as (Hc & H1 & H2). destruct (Hh e s' Hc) as (Hc' & H1' & H2').
  split; [done|]. split; congruence.
Qed.

Lemma quietly_await {A} (o : Completion A) : quietly (await o).
Proof. destruct o; [apply quietly_ret|apply quietly_throw]. Qed.

Lemma quietly_if {A} (b : bool) (m1 m2 : M A) :
  quietly m1 → quietly m2 → quietly (if b then m1 else m2).
Proof. by destruct b. Qed.

Lemma quietly_onProxy (f : TestRunProxy → TestRunProxy) :
  quiet f → quietly (onProxy f).
Proof. intros Hf s Hs. simpl. by apply Hf. Qed.

Lemma quietly_modify (f : TestRunnerTestRunState → TestRunnerTestRunState) :
  (∀ s, consistent (proxy s) →
        consistent (proxy (f s))
        ∧ endCalls (proxy (f s)) = endCalls (proxy s)
        ∧ sinkEnds (proxy (f s)) = sinkEnds (proxy s)) →
  quietly (modify f).
Proof. intros Hf s Hs. simpl. by apply Hf. Qed.

Lemma quiet_id : quiet (λ p, p).
Proof. by intros p Hp. Qed.

Lemma quiet_compose (f g : TestRunProxy → TestRunProxy) :
  quiet f → quiet g → quiet (λ p, g (f p)).
Proof.
  intros Hf Hg p Hp. destruct (Hf p Hp) as (Hc & H1 & H2).
  destruct (Hg (f p) Hc) as (Hc' & H1' & H2'). split; [done|]. split; congruence.
Qed.

Lemma send_quiet (ev : SinkEvent) : isEnd ev = false → quiet (TestRunProxy.send ev).
Proof.
  intros Hev p Hp. split; [|split; [done|]].
  - intros Hr. unfold TestRunProxy.send. simpl. by rewrite (Hp Hr).
  - unfold sinkEnds, TestRunProxy.send. simpl.
    destruct (testRun p) as [evs|]; simpl; [|done].
    rewrite List.filter_app. simpl. rewrite Hev. simpl. by rewrite app_nil_r.
Qed.

Lemma appendOutput_quiet (output : string) : quiet (TestRunProxy.appendOutput output).
Proof.
  intros p Hp. unfold TestRunProxy.appendOutput. destruct (testRun p) eqn:E.
  - by apply send_quiet.
  - split; [|split; [done|]].
    + by intros _.
    + unfold sinkEnds. simpl. by rewrite E.
Qed.

Lemma started_quiet (test : option TestItem) : quiet (TestRunProxy.started test).
Proof. by apply send_quiet. Qed.

Lemma passed_quiet (test : option TestItem) (d : float) : quiet (TestRunProxy.passed test d).
Proof.
  intros p Hp.
  by apply (send_quiet (SinkPassed test d) eq_refl
              {| testRun := testRun p; runStarted := runStarted p;
                 queuedOutput := queuedOutput p; testItems := testItems p;
                 failedItems := failedItems p; passedItems := passedItems p ++ [test];
                 skippedItems := skippedItems p; erroredItems := erroredItems p;
                 endCalls := endCalls p |}).
Qed.

Lemma failed_quiet (test : option TestItem) (ms : list TestMessage) (d : float) :
  quiet (TestRunProxy.failed test ms d).
Proof.
  intros p Hp.
  by apply (send_quiet (SinkFailed test ms d) eq_refl
              {| testRun := testRun p; runStarted := runStarted p;
                 queuedOutput := queuedOutput p; testItems := testItems p;
                 failedItems := failedItems p ++ [test]; passedItems := passedItems p;
                 skippedItems := skippedItems p; erroredItems := erroredItems p;
                 endCalls := endCalls p |}).
Qed.

Lemma skipped_quiet (test : option TestItem) : quiet (TestRunProxy.skipped test).
Proof.
  intros p Hp.
  by apply (send_quiet (SinkSkipped test) eq_refl
              {| testRun := testRun p; runStarted := runStarted p;
                 queuedOutput := queuedOutput p; testItems := testItems p;
                 failedItems := failedItems p; passedItems := passedItems p;
                 skippedItems := skippedItems p ++ [test];
                 erroredItems := erroredItems p; endCalls := endCalls p |}).
Qed.

Lemma filter_isEnd_fmap {A} (f : A → SinkEvent) (l : list A) :
  (∀ x, isEnd (f x) = false) → List.filter isEnd (f <$> l) = [].
Proof. intros Hf. induction l as [|x l IH]; simpl; [done|]. by rewrite Hf. Qed.

Lemma testRunStarted_quiet (added : list TestItem) :
  quiet (TestRunProxy.testRunStarted added).
Proof.
  intros p Hp. unfold TestRunProxy.testRunStarted.
  destruct (runStarted p) eqn:E; [done|].
  split; [by intros ?|]. split; [done|]. unfold sinkEnds. simpl. rewrite (Hp E).
  simpl. by rewrite List.filter_app, !filter_isEnd_fmap.
Qed.

Lemma quietly_applyCall (c : RunStateCall) (s : TestRunnerTestRunState) :
  consistent (proxy s) →
  consistent (proxy (applyCall c s).2)
  ∧ endCalls (proxy (applyCall c s).2) = endCalls (proxy s)
  ∧ sinkEnds (proxy (applyCall c s).2) = sinkEnds (proxy s).
Proof.
  intros Hs. destruct c as [index st|index timing|index msg loc|index]; simpl.
  - by apply started_quiet.
  - unfold TestRunnerTestRunState.completed.
    destruct (TestRunnerTestRunState.completedDuration _ _); [|done]. simpl.
    case_bool_decide; [by apply failed_quiet|by apply passed_quiet].
  - done.
  - by apply skipped_quiet.
Qed.

Lemma quietly_applyCalls (cs : list RunStateCall) (s : TestRunnerTestRunState) :
  consistent (proxy s) →
  consistent (proxy (applyCalls cs s).2)
  ∧ endCalls (proxy (applyCalls cs s).2) = endCalls (proxy s)
  ∧ sinkEnds (proxy (applyCalls cs s).2) = sinkEnds (proxy s).
Proof.
  revert s. induction cs as [|c cs IH]; intros s Hs; [done|]. simpl.
  pose proof (quietly_applyCall c s Hs) as (Hc & H1 & H2).
  destruct (applyCall c s) as [[[]|e] s']; simpl in *; [|done].
  destruct (IH s' Hc) as (Hc' & H1' & H2'). split; [done|]. split; congruence.
Qed.

Lemma quietly_parseResult (calls : TestRunnerTestRunState → list RunStateCall) :
  quietly (parseResult calls).
Proof.
  intros s Hs. unfold parseResult.
  pose proof (quietly_applyCalls (calls s) s Hs) as H.
  by destruct (applyCalls (calls s) s) as [[[]|e] s'].
Qed.

Lemma quietly_appendOutput (output : string) : quietly (appendOutput output).
Proof. apply quietly_onProxy, appendOutput_quiet. Qed.

Lemma quietly_outputStream (text : string) : quietly (outputStream text).
Proof. apply quietly_appendOutput. Qed.

Lemma quietly_parsedOutputStream (text : string) : quietly (parsedOutputStream env text).
Proof.
  apply quietly_bind; [apply quietly_appendOutput|]. intros _.
  apply quietly_parseResult.
Qed.

Lemma quietly_pipeData (chunk : string) : quietly (pipeData env chunk).
Proof.
  apply quietly_bind; [apply quietly_onProxy, testRunStarted_quiet|]. intros _.
  apply quietly_tryCatch; [apply quietly_parseResult|]. intros _. apply quietly_ret.
Qed.

Lemma quietly_runStandardSessionFrom (write : string → M unit) (writing : bool)
    (events : list SessionEvent) :
  (∀ str, quietly (write str)) → quietly (runStandardSessionFrom env write writing events).
Proof.
  intros Hw. revert writing.
  induction events as [|[str|msg|code|chunk] rest IH]; intros writing; simpl.
  - apply quietly_pending.
  - destruct writing; [apply IH|]. intros s Hs.
    destruct (Hw (removeFirst "[1/1] Planning build" str) s Hs) as (Hc & H1 & H2).
    destruct (write (removeFirst "[1/1] Planning build" str) s) as [[[]|e|] s'];
      cbn [fst snd] in *.
    + destruct (IH false s' Hc) as (Hc' & H1' & H2'). split; [done|]. split; congruence.
    + destruct (IH true s' Hc) as (Hc' & H1' & H2'). split; [done|]. split; congruence.
    + destruct (IH true s' Hc) as (Hc' & H1' & H2'). split; [done|]. split; congruence.
  - apply quietly_throw.
  - destruct (falsy code); [apply quietly_ret|apply quietly_throw].
  - apply quietly_bind; [apply quietly_pipeData|]. intros _. apply IH.
Qed.

Lemma quietly_runStandardSession (write : string → M unit) (events : list SessionEvent) :
  (∀ str, quietly (write str)) → quietly (runStandardSession env write events).
Proof. apply quietly_runStandardSessionFrom. Qed.

Lemma quietly_catch1 : ∀ error, quietly (if isNot1 error then throw error else mret ()).
Proof. intros error. destruct (isNot1 error); [apply quietly_throw|apply quietly_ret]. Qed.

Lemma quietly_runCoverageSession (write : string → M unit) (events : list SessionEvent) :
  (∀ str, quietly (write str)) → quietly (runCoverageSession env write events).
Proof.
  intros Hw. apply quietly_bind.
  - apply quietly_tryCatch; [by apply quietly_runStandardSession|apply quietly_catch1].
  - intros _. apply quietly_await.
Qed.

Lemma applyXUnitCall_quiet (requested : list TestItem) (c : XUnitCall) :
  quiet (applyXUnitCall env requested c).
Proof.
  destruct c as [x d|x d msg|x]; unfold applyXUnitCall;
    destruct (bool_decide _);
    auto using quiet_id, passed_quiet, failed_quiet, skipped_quiet.
Qed.

Lemma applyXUnitCalls_quiet (requested : list TestItem) (cs : list XUnitCall) :
  quiet (λ p, fold_left (λ p c, applyXUnitCall env requested c p) cs p).
Proof.
  induction cs as [|c cs IH]; simpl; [apply quiet_id|].
  apply (quiet_compose (applyXUnitCall env requested c)); [|done].
  apply applyXUnitCall_quiet.
Qed.

Lemma quietly_runParallelSession (requested : list TestItem) (write : string → M unit)
    (events : list SessionEvent) :
  (∀ str, quietly (write str)) →
  quietly (runParallelSession env requested write events).
Proof.
  intros Hw. unfold runParallelSession, reportResults.
  apply quietly_bind; [apply quietly_onProxy, testRunStarted_quiet|]. intros _.
  apply quietly_bind.
  { apply quietly_tryCatch; [by apply quietly_runStandardSession|apply quietly_catch1]. }
  intros _. apply quietly_bind; [apply quietly_await|]. intros buffer.
  apply quietly_bind; [apply quietly_await|]. intros parsed.
  apply quietly_bind; [apply quietly_onProxy, applyXUnitCalls_quiet|]. intros _.
  destruct parsed.2; [apply quietly_appendOutput|apply quietly_ret].
Qed.

Lemma quietly_launchTests (requested : list TestItem) (testKind : TestKind)
    (write : string → M unit) (events : list SessionEvent) :
  (∀ str, quietly (write str)) →
  quietly (launchTests env requested testKind write events).
Proof.
  intros Hw. unfold launchTests.
  apply quietly_bind; [apply quietly_appendOutput|]. intros _.
  apply quietly_tryCatch.
  - destruct testKind; auto using quietly_runStandardSession,
      quietly_runCoverageSession, quietly_runParallelSession.
  - intros error. destruct (isNot1 error); [apply quietly_appendOutput|apply quietly_ret].
Qed.

Lemma quietly_runSession (requested : list TestItem) (testKind : TestKind) :
  quietly (runSession env requested testKind).
Proof.
  unfold runSession. apply quietly_bind.
  - apply quietly_if; [|apply quietly_ret].
    apply quietly_bind; [apply quietly_if; [apply quietly_await|apply quietly_ret]|].
    intros _. destruct (swiftTestingConfig env); [|apply quietly_ret].
    apply quietly_if; [apply quietly_ret|].
    apply quietly_bind; [apply quietly_await|]. intros _.
    apply quietly_launchTests, quietly_outputStream.
  - intros _. apply quietly_if; [|apply quietly_ret].
    destruct (xcTestConfig env); [|apply quietly_ret].
    apply quietly_if; [apply quietly_ret|].
    apply quietly_bind; [apply quietly_onProxy, testRunStarted_quiet|]. intros _.
    apply quietly_launchTests, quietly_parsedOutputStream.
Qed.

Lemma quietly_consoleOutputs (outputs : list string) : quietly (consoleOutputs env outputs).
Proof.
  induction outputs as [|o rest IH]; simpl; [apply quietly_ret|].
  apply quietly_bind; [apply quietly_appendOutput|]. intros _.
  apply quietly_bind; [|done].
  apply quietly_tryCatch; [apply quietly_parseResult|]. intros _. apply quietly_ret.
Qed.

Lemma quietly_debugRun (first : bool) (r : DebugRun) : quietly (debugRun env first r).
Proof.
  unfold debugRun. destruct (startDebugging r); [|apply quietly_throw..].
  apply quietly_bind; [apply quietly_if; [apply quietly_appendOutput|apply quietly_ret]|].
  intros _. apply quietly_bind; [apply quietly_consoleOutputs|]. intros _.
  apply quietly_if; [apply quietly_ret|apply quietly_pending].
Qed.

Lemma quietly_runSequentially (i count : nat) : quietly (runSequentially env i count).
Proof.
  revert i. induction count as [|count IH]; intros i; simpl; [apply quietly_ret|].
  apply quietly_bind; [apply quietly_debugRun|done].
Qed.

Lemma quietly_debugSession : quietly (debugSession env).
Proof.
  unfold debugSession.
  apply quietly_bind; [apply quietly_if; [apply quietly_await|apply quietly_ret]|].
  intros _. apply quietly_if; [|apply quietly_ret].
  apply quietly_bind; [|intros n; apply quietly_runSequentially].
  destruct (swiftTestingConfig env); [|apply quietly_ret].
  apply quietly_if; [|apply quietly_ret].
  apply quietly_bind; [apply quietly_await|]. intros _. apply quietly_ret.
Qed.

(** *** Runs that come to an end *)

Lemma settles_ret {A} (a : A) : settles (mret a : M A).
Proof. by intros s. Qed.

Lemma settles_throw {A} (e : JsError) : settles (throw e : M A).
Proof. by intros s. Qed.

Lemma settles_bind {A B} (m : M A) (f : A → M B) :
  settles m → (∀ a, settles (f a)) → settles (m ≫= f).
Proof.
  intros Hm Hf s. unfold mbind, M_bind. specialize (Hm s).
  destruct (m s) as [[a|e|] s']; simpl in *; [apply Hf|done|done].
Qed.

Lemma settles_tryCatch {A} (m : M A) (h : JsError → M A) :
  settles m → (∀ e, settles (h e)) → settles (tryCatch m h).
Proof.
  intros Hm Hh s. unfold tryCatch. specialize (Hm s).
  destruct (m s) as [[a|e|] s']; simpl in *; [done|apply Hh|done].
Qed.

Lemma settles_await {A} (o : Completion A) : settles (await o).
Proof. destruct o; [apply settles_ret|apply settles_throw]. Qed.

Lemma settles_if {A} (b : bool) (m1 m2 : M A) :
  settles m1 → settles m2 → settles (if b then m1 else m2).
Proof. by destruct b. Qed.

Lemma succeeds_settles {A} (m : M A) : succeeds m → settles m.
Proof. intros H s. destruct (H s) as [a ->]. done. Qed.

Lemma succeeds_onProxy (f : TestRunProxy → TestRunProxy) : succeeds (onProxy f).
Proof. intros s. by exists (). Qed.

Lemma succeeds_modify (f : TestRunnerTestRunState → TestRunnerTestRunState) :
  succeeds (modify f).
Proof. intros s. by exists (). Qed.

Lemma succeeds_bind {A B} (m : M A) (f : A → M B) :
  succeeds m → (∀ a, succeeds (f a)) → succeeds (m ≫= f).
Proof.
  intros Hm Hf s. unfold mbind, M_bind. destruct (Hm s) as [a Ha].
  destruct (m s) as [o s']. simpl in Ha. subst o. apply Hf.
Qed.

(** Whatever the parser does, the handling of a line from the pipe comes to
    its end. *)
Lemma succeeds_caught (calls : TestRunnerTestRunState → list RunStateCall) :
  succeeds (tryCatch (parseResult calls) (λ _, mret ())).
Proof.
  intros s. exists (). unfold tryCatch, parseResult.
  by destruct (applyCalls (calls s) s) as [[[]|e] s'].
Qed.

Lemma succeeds_pipeData (chunk : string) : succeeds (pipeData env chunk).
Proof.
  apply succeeds_bind; [apply succeeds_onProxy|]. intros _. apply succeeds_caught.
Qed.

Lemma succeeds_eq {A} (m : M A) (s : TestRunnerTestRunState) :
  succeeds m → ∃ a, m s = (Resolved a, (m s).2).
Proof.
  intros H. destruct (H s) as [a Ha]. exists a.
  by destruct (m s); simpl in *; subst.
Qed.

Lemma bind_resolved {A B} (m : M A) (k : A → M B) (s s' : TestRunnerTestRunState) (a : A) :
  m s = (Resolved a, s') → (m ≫= k) s = k a s'.
Proof. intros H. unfold mbind, M_bind. by rewrite H. Qed.

(** [runStandardSession] when the process, after the output [pre], ends
    with [ev]: the promise settles with what [ev] alone settles it with, in
    the state in which the output has left the run. That holds whatever the
    stream does with the output. *)
Lemma runStandardSessionFrom_until (write : string → M unit) (writing : bool)
    (pre : list SessionEvent) (ev : SessionEvent) (rest : list SessionEvent)
    (s : TestRunnerTestRunState) :
  forallb isOutput pre = true → isOutput ev = false →
  runStandardSessionFrom env write writing (pre ++ ev :: rest) s
  = ((runStandardSessionFrom env write false [ev] s).1,
     (runStandardSessionFrom env write writing pre s).2).
Proof.
  intros Hpre Hev. revert writing s.
  induction pre as [|[str|msg|code|chunk] pre IH]; intros writing s; simpl in *;
    try done.
  - destruct ev as [str|msg|code|chunk]; simpl in *; try done.
    by destruct (falsy code).
  - destruct writing; [rewrite IH by done; by destruct ev|].
    destruct (write (removeFirst "[1/1] Planning build" str) s) as [[[]|e|] s'];
      rewrite IH by done; by destruct ev as [?|?|code|?]; try destruct (falsy code).
  - destruct (succeeds_eq _ s (succeeds_pipeData chunk)) as [[] Hs].
    rewrite !(bind_resolved _ _ _ _ _ Hs). rewrite IH by done.
    by destruct ev as [?|?|code|?]; try destruct (falsy code).
Qed.

Lemma settles_runStandardSession (write : string → M unit) (events : list SessionEvent) :
  terminates events → settles (runStandardSession env write events).
Proof.
  intros (pre & ev & rest & -> & Hpre & Hev) s. unfold runStandardSession.
  rewrite runStandardSessionFrom_until by done. cbn [fst].
  destruct ev as [str|msg|code|chunk]; simpl in *; try done.
  by destruct (falsy code).
Qed.

Lemma settles_catch1 : ∀ error, settles (if isNot1 error then throw error else mret ()).
Proof. intros error. destruct (isNot1 error); [apply settles_throw|apply settles_ret]. Qed.

Lemma settles_launchTests (requested : list TestItem) (testKind : TestKind)
    (write : string → M unit) (events : list SessionEvent) :
  terminates events →
  settles (launchTests env requested testKind write events).
Proof.
  intros Hev. unfold launchTests.
  apply settles_bind; [apply succeeds_settles, succeeds_onProxy|]. intros _.
  apply settles_tryCatch.
  - destruct testKind.
    + by apply settles_runStandardSession.
    + unfold runParallelSession, reportResults.
      apply settles_bind; [apply succeeds_settles, succeeds_onProxy|]. intros _.
      apply settles_bind.
      { apply settles_tryCatch; [by apply settles_runStandardSession|].
        apply settles_catch1. }
      intros _. apply settles_bind; [apply settles_await|]. intros buffer.
      apply settles_bind; [apply settles_await|]. intros parsed.
      apply settles_bind; [apply succeeds_settles, succeeds_onProxy|]. intros _.
      destruct parsed.2; [apply succeeds_settles, succeeds_onProxy|apply settles_ret].
    + unfold runCoverageSession. apply settles_bind.
      { apply settles_tryCatch; [by apply settles_runStandardSession|].
        apply settles_catch1. }
      intros _. apply settles_await.
  - intros error.
    destruct (isNot1 error); [apply succeeds_settles, succeeds_onProxy|apply settles_ret].
Qed.

Lemma settles_runSession (requested : list TestItem) (testKind : TestKind) :
  terminates (swiftTestingProcess env) → terminates (xcTestProcess env) →
  settles (runSession env requested testKind).
Proof.
  intros Hs Hx. unfold runSession. apply settles_bind.
  - apply settles_if; [|apply settles_ret].
    apply settles_bind; [apply settles_if; [apply settles_await|apply settles_ret]|].
    intros _. destruct (swiftTestingConfig env); [|apply settles_ret].
    apply settles_if; [apply settles_ret|].
    apply settles_bind; [apply settles_await|]. intros _.
    by apply settles_launchTests.
  - intros _. apply settles_if; [|apply settles_ret].
    destruct (xcTestConfig env); [|apply settles_ret].
    apply settles_if; [apply settles_ret|].
    apply settles_bind; [apply succeeds_settles, succeeds_onProxy|]. intros _.
    by apply settles_launchTests.
Qed.

Lemma succeeds_consoleOutputs (outputs : list string) :
  succeeds (consoleOutputs env outputs).
Proof.
  induction outputs as [|o rest IH]; simpl; [intros s; by exists ()|].
  apply succeeds_bind; [apply succeeds_onProxy|]. intros _.
  apply succeeds_bind; [apply succeeds_caught|done].
Qed.

Lemma settles_debugSession :
  (∀ i, startDebugging (debugRuns env i) = Started →
        terminated (debugRuns env i) = true) →
  settles (debugSession env).
Proof.
  intros Hterm.
  assert (∀ count i, settles (runSequentially env i count)) as Hseq.
  { induction count as [|count IH]; intros i; simpl; [apply settles_ret|].
    apply settles_bind; [|done]. unfold debugRun.
    destruct (startDebugging (debugRuns env i)) eqn:E; [|apply settles_throw..].
    apply settles_bind.
    { apply settles_if; [apply succeeds_settles, succeeds_onProxy|apply settles_ret]. }
    intros _. apply settles_bind; [apply succeeds_settles, succeeds_consoleOutputs|].
    intros _. rewrite (Hterm i E). apply settles_ret. }
  unfold debugSession.
  apply settles_bind; [apply settles_if; [apply settles_await|apply settles_ret]|].
  intros _. apply settles_if; [|apply settles_ret].
  apply settles_bind; [|intros n; apply Hseq].
  destruct (swiftTestingConfig env); [|apply settles_ret].
  apply settles_if; [|apply settles_ret].
  apply settles_bind; [apply settles_await|]. intros _. apply settles_ret.
Qed.

(** *** runHandler *)

Lemma endRun_spec (s : TestRunnerTestRunState) :
  let r := endRun (computeCoverage env) s in
  endCalls (proxy r.2) = S (endCalls (proxy s))
  ∧ r.1 ≠ Pending
  ∧ (sinkEnds (proxy r.2) ≤ sinkEnds (proxy s) + 1)%nat
  ∧ (r.1 = Resolved () →
     sinkEnds (proxy r.2)
     = (sinkEnds (proxy s) + match testRun (proxy r.2) with Some _ => 1 | None => 0 end)%nat)
  ∧ (testRun (proxy s) = None → r.1 = Resolved () ∧ testRun (proxy r.2) = None).
Proof.
  unfold endRun, TestRunProxy.end_, sinkEnds. cbn [fst snd proxy testRun endCalls].
  destruct (testRun (proxy s)) as [evs|] eqn:E.
  - destruct (computeCoverage env (endCalls (proxy s))) as [[]|e]; simpl.
    + rewrite List.filter_app, length_app. simpl. repeat split; try done; lia.
    + repeat split; try done; lia.
  - simpl. repeat split; try done; lia.
Qed.

Lemma endRun_clean (s : TestRunnerTestRunState) :
  clean s →
  endedOnce (endRun (computeCoverage env) s)
  ∧ (endRun (computeCoverage env) s).1 ≠ Pending.
Proof.
  intros (Hc & He & Hs). pose proof (endRun_spec s) as (H1 & H2 & H3 & H4 & _).
  cbv zeta in *. split; [|done]. unfold endedOnce. rewrite H1, He.
  repeat split; try done; [lia|]. intros Hr. rewrite (H4 Hr). lia.
Qed.

Lemma appendOutput_clean (output : string) (s : TestRunnerTestRunState) :
  clean s →
  appendOutput output s = (Resolved (), (appendOutput output s).2)
  ∧ clean (appendOutput output s).2.
Proof.
  intros (Hc & He & Hs). split; [done|].
  destruct (quietly_appendOutput output s Hc) as (? & ? & ?).
  repeat split; [done|congruence|congruence].
Qed.

(** The part of [runHandler] after the build step: the session, the
    handler of whatever it throws, the final [end()]. *)
Lemma session_then_end (session : M unit) (s : TestRunnerTestRunState) :
  quietly session → clean s →
  let r := (tryCatch (_ ← session; mret false)
              (λ error, _ ← appendOutput (errorText env error); mret false)
            ≫= λ finished : bool,
              if finished then mret () else endRun (computeCoverage env)) s in
  endedOnce r ∧ (settles session → r.1 ≠ Pending).
Proof.
  intros Hq (Hc & He & Hs). cbv zeta.
  unfold mbind, M_bind, tryCatch, mret, M_ret.
  pose proof (Hq s Hc) as (Hc1 & He1 & Hs1).
  pose proof (λ H : settles session, H s) as Hp.
  destruct (session s) as [[[]|e|] s1]; cbn [fst snd] in *.
  - destruct (endRun_clean s1) as [H1 H2]; [repeat split; [done|congruence..]|].
    by split.
  - destruct (appendOutput_clean (errorText env e) s1) as [Heq Hclean];
      [repeat split; [done|congruence..]|].
    rewrite Heq. destruct (endRun_clean _ Hclean) as [H1 H2]. by split.
  - split; [|done]. repeat split; cbn [fst snd]; [done|lia|done].
Qed.

(** C1. From the state in which a new [TestRunner] enters it, [runHandler]
    calls the proxy's [end()] exactly once whenever it returns or throws:
    when the build step fails (exit code undefined or not 0) and the run is
    abandoned, when the build or the session throws, when the run is
    cancelled, and when it completes. It does return or throw when the
    spawned processes end and the debug sessions terminate. The
    [vscode.TestRun] behind the proxy is ended at most once, and exactly
    once when [runHandler] returns and the run had been started. *)
Theorem runHandler_ends_the_run_once (requested : list TestItem)
    (shouldDebug : bool) (testKind : TestKind) :
  let r := runHandler env requested shouldDebug testKind (initial requested) in
  endedOnce r
  ∧ (terminates (swiftTestingProcess env) → terminates (xcTestProcess env) →
     (∀ i, startDebugging (debugRuns env i) = Started →
           terminated (debugRuns env i) = true) →
     r.1 ≠ Pending)
  ∧ (testKind ≠ coverage → getBuildAllTask env = Returned () →
     ∀ code, queueOperation env = Returned code → code ≠ Some 0 →
     r.1 = Resolved () ∧ endCalls (proxy r.2) = 1%nat ∧ testRun (proxy r.2) = None
     ∧ queuedOutput (proxy r.2) = []).
Proof.
  assert (quietly (if shouldDebug then debugSession env
                   else runSession env requested testKind)) as Hq.
  { destruct shouldDebug; [apply quietly_debugSession|apply quietly_runSession]. }
  assert (terminates (swiftTestingProcess env) → terminates (xcTestProcess env) →
          (∀ i, startDebugging (debugRuns env i) = Started →
                terminated (debugRuns env i) = true) →
          settles (if shouldDebug then debugSession env
                   else runSession env requested testKind)) as Hsettle.
  { intros Hs Hx Hd.
    destruct shouldDebug; [by apply settles_debugSession|by apply settles_runSession]. }
  assert (clean (initial requested)) as Hclean by done.
  pose proof (session_then_end _ _ Hq Hclean) as [Hsession Hsession'].
  cbv zeta in Hsession, Hsession'.
  assert (∀ e, let r := endRun (computeCoverage env)
                          (appendOutput (errorText env e) (initial requested)).2 in
               endedOnce r ∧ r.1 ≠ Pending) as Hthrown.
  { intros e. apply endRun_clean. by apply appendOutput_clean. }
  cbv zeta. unfold runHandler.
  set (session := if shouldDebug then debugSession env
                  else runSession env requested testKind) in *.
  clearbody session.
  case_bool_decide as Hkind.
  - destruct (getBuildAllTask env) as [[]|e] eqn:Etask.
    + destruct (queueOperation env) as [code|e] eqn:Ebuild.
      * destruct (decide (code = Some 0)) as [->|Hcode].
        -- (* the build succeeded *)
           split; [exact Hsession|]. split.
           ++ intros Hs Hx Hd. apply Hsession'. by apply Hsettle.
           ++ intros _ _ code [= <-] Hne. done.
        -- (* the build failed: the run is ended at once *)
           cbv [mbind M_bind tryCatch mret M_ret await throw].
           rewrite bool_decide_eq_true_2 by done.
           unfold endedOnce, sinkEnds. cbn.
           repeat split; done || lia.
      * (* the build threw *)
        destruct (Hthrown e) as (H1 & H2).
        split; [exact H1|]. split; [done|]. intros _ _ code. done.
    + destruct (Hthrown e) as (H1 & H2).
      split; [exact H1|]. split; [done|]. intros _ Hr. done.
  - (* coverage: no build step *)
    split; [exact Hsession|]. split; [|done].
    intros Hs Hx Hd. apply Hsession'. by apply Hsettle.
Qed.

(** *** Exit codes *)

(** What [runStandardSession] settles with when the process, after the
    output [pre], closes or fails. *)
Lemma runStandardSession_exit (write : string → M unit)
    (pre rest : list SessionEvent) (s : TestRunnerTestRunState) :
  forallb isOutput pre = true →
  (∀ code, falsy code = true →
     runStandardSession env write (pre ++ DidClose code :: rest) s
     = (Resolved (), whileRunning env write pre s))
  ∧ (∀ code, falsy code = false →
     runStandardSession env write (pre ++ DidClose code :: rest) s
     = (Rejected (ThrownNumber (default 0 code)), whileRunning env write pre s))
  ∧ (∀ message,
     runStandardSession env write (pre ++ DidThrowError message :: rest) s
     = (Rejected (ErrorObject message), whileRunning env write pre s)).
Proof.
  intros Hpre. unfold runStandardSession, whileRunning.
  repeat split; intros; rewrite runStandardSessionFrom_until by done;
    simpl; rewrite ?H; done.
Qed.






End RunProperties.

(** * The properties on sample data *)

Lemma completed_timestamp_duration_witness :
  ∃ d d',
    TestRunnerTestRunState.completedDuration
      (mjoin (startTimes Sample3.startedAt10 !! 0)) (Timestamp 10.006%float)
    = Returned d
    ∧ TestRunnerTestRunState.completedDuration
        (mjoin (startTimes Sample3.startedAt10 !! 0)) (Duration 0.006%float)
      = Returned d'
    ∧ d = 6.000000000000227%float ∧ d = 0x1.80000000001p+2%float
    ∧ d' = 6%float ∧ d ≠ d'
    ∧ PrimFloat.ltb (PrimFloat.abs (d - d')) 1e-12 = true.
Proof.
  apply (proj2 (proj2 (proj2
          (completed_timestamp_duration 0 Sample3.startedAt10
             10.0%float 10.006%float ltac:(reflexivity)))));
    reflexivity.
Defined.

(** C2, as the specification states it, does not hold: a test started at
    10.0 and completed at 10.006 is reported with a duration of
    6.000000000000227 milliseconds, which is neither the 6 milliseconds that
    a completion with the duration 0.006 seconds reports, nor, taken back to
    seconds, 0.006. *)
Lemma timestamp_duration_is_not_six_milliseconds :
  proxy (TestRunnerTestRunState.completed 0 (Timestamp 10.006%float)
           Sample3.startedAt10).2
  = TestRunProxy.passed (Some Sample.testItem) 6.000000000000227%float
      (proxy Sample3.startedAt10)
  ∧ proxy (TestRunnerTestRunState.completed 0 (Duration 0.006%float)
             Sample3.startedAt10).2
    = TestRunProxy.passed (Some Sample.testItem) 6%float (proxy Sample3.startedAt10)
  ∧ 6.000000000000227%float ≠ 6%float
  ∧ 6.000000000000227%float ≠ (0.006 * 1000)%float
  ∧ (6.000000000000227 / 1000)%float ≠ 0.006%float.
Proof.
  split; [reflexivity|]. split; [reflexivity|].
  repeat split; by apply float_apart.
Qed.

Example completed_reports_to_the_run :
  testRun (proxy (TestRunnerTestRunState.completed 0 (Timestamp 10.006%float)
                    (TestRunnerTestRunState.started 0 (Some 10.0%float)
                       (TestRunnerTestRunState.create
                          (TestRunProxy.testRunStarted []
                             (TestRunProxy.create [Sample.testItem]))))).2)
  = Some [SinkEnqueued Sample.testItem; SinkStarted (Some Sample.testItem);
          SinkPassed (Some Sample.testItem) 6.000000000000227%float].
Proof. reflexivity. Qed.

Lemma completed_timestamp_without_start_witness :
  TestRunnerTestRunState.completed 0 (Timestamp 10.006%float)
    (TestRunner.initial [Sample.testItem])
  = (Thrown TestRunnerTestRunState.timestampWithoutStart,
     TestRunner.initial [Sample.testItem]).
Proof.
  apply (proj1 (completed_timestamp_without_start 0
                  (TestRunner.initial [Sample.testItem]) 10.006%float 0.006%float)).
  reflexivity.
Defined.

Lemma updateTests_idempotent_witness :
  uniqueIds (items Sample2.controller)
  ∧ TestDiscovery.updateTests
      (TestDiscovery.updateTests Sample2.controller
         [Sample2.incomingSuite; Sample2.swiftTestingItem] (Some Sample2.fileA)).1
      [Sample2.incomingSuite; Sample2.swiftTestingItem] (Some Sample2.fileA)
    = ((TestDiscovery.updateTests Sample2.controller
          [Sample2.incomingSuite; Sample2.swiftTestingItem] (Some Sample2.fileA)).1,
       []).
Proof.
  assert (uniqueIds (items Sample2.controller)) as H.
  { constructor; [apply NoDup_singleton|].
    constructor; [|constructor].
    constructor; [apply NoDup_singleton|].
    constructor; [|constructor].
    constructor; constructor. }
  split; [exact H|].
  exact (proj1 (updateTests_idempotent Sample2.controller
                  [Sample2.incomingSuite; Sample2.swiftTestingItem]
                  (Some Sample2.fileA) H)).
Defined.

Example updateTests_sample :
  List.map id
    (allItems (items (TestDiscovery.updateTests Sample2.controller
                        [Sample2.incomingSuite; Sample2.swiftTestingItem]
                        (Some Sample2.fileA)).1))
  = ["PackageTests.Suite"; "PackageTests.Suite/testB"; "PackageTests.Suite/testA"].
Proof. reflexivity. Qed.

Lemma swift_testing_items_are_skipped_witness :
  TestDiscovery.upsertTestItem Sample2.swiftTestingItem (items Sample2.controller, 2%nat)
  = (items Sample2.controller, 2%nat)
  ∧ Forall (Everywhere (λ e, styleTag e ≠ Some "swift-testing"))
           (items (TestDiscovery.updateTests Sample2.controller
                     [Sample2.incomingSuite; Sample2.swiftTestingItem] None).1).
Proof.
  split.
  - apply (proj1 swift_testing_items_are_skipped). reflexivity.
  - apply (proj2 swift_testing_items_are_skipped).
    constructor; [|constructor].
    constructor; [discriminate|].
    constructor; [|constructor].
    constructor; [discriminate|constructor].
Defined.

(** C5, as the specification states it, does not hold: here a suite located
    in file A, absent from the incoming snapshot, holds a test located in
    file B. A pass filtered to A deletes the suite only, and the test of B is
    gone from the catalog with it. *)
Lemma pruning_removes_a_test_of_another_file :
  In Sample2.testInB (allItems (items Sample2.controller))
  ∧ uri Sample2.testInB = Some Sample2.fileB
  ∧ Sample2.fileB ≠ Sample2.fileA
  ∧ (TestDiscovery.updateTests Sample2.controller [] (Some Sample2.fileA)).2
    = [Sample2.suiteInA]
  ∧ allItems (items (TestDiscovery.updateTests Sample2.controller []
                       (Some Sample2.fileA)).1) = [].
Proof.
  split; [right; left; reflexivity|].
  split; [reflexivity|]. split; [discriminate|]. split; reflexivity.
Qed.

Lemma pruning_is_scoped_witness :
  In (TestDiscovery.withChildren Sample2.testInB
        (TestDiscovery.removeOldTestsIn
           (TestDiscovery.createIncomingTestLookup [Sample2.incomingSuite] None)
           (Some Sample2.fileA) (children Sample2.testInB)).1)
     (allItems (TestDiscovery.removeOldTestsIn
                  (TestDiscovery.createIncomingTestLookup [Sample2.incomingSuite] None)
                  (Some Sample2.fileA) (items Sample2.controller)).1).
Proof.
  apply (proj1 (proj2 (pruning_is_scoped
                         (TestDiscovery.createIncomingTestLookup
                            [Sample2.incomingSuite] None)
                         Sample2.fileA (items Sample2.controller)))).
  - apply (keptPath_below _ _ _ Sample2.suiteInA).
    + left. reflexivity.
    + vm_compute. reflexivity.
    + apply keptPath_here. left. reflexivity.
  - discriminate.
Defined.

Lemma runHandler_ends_the_run_once_witness :
  endedOnce
    (TestRunner.runHandler
       (Sample3.env (Some 0) [TestRunner.DidWrite "passed"; TestRunner.DidClose (Some 0)])
       [Sample.testItem] false TestRunner.standard
       (TestRunner.initial [Sample.testItem])).
Proof.
  exact (proj1 (runHandler_ends_the_run_once
                  (Sample3.env (Some 0)
                     [TestRunner.DidWrite "passed"; TestRunner.DidClose (Some 0)])
                  [Sample.testItem] false TestRunner.standard)).
Defined.

Example runHandler_build_failure :
  let r := TestRunner.runHandler (Sample3.env (Some 1) []) [Sample.testItem] false
             TestRunner.standard (TestRunner.initial [Sample.testItem]) in
  r.1 = TestRunner.Resolved () ∧ endCalls (proxy r.2) = 1%nat
  ∧ testRun (proxy r.2) = None.
Proof. repeat split; reflexivity. Qed.

Example runHandler_passing_run :
  let r := TestRunner.runHandler
             (Sample3.env (Some 0)
                [TestRunner.DidWrite "passed"; TestRunner.DidClose (Some 0)])
             [Sample.testItem] false TestRunner.standard
             (TestRunner.initial [Sample.testItem]) in
  r.1 = TestRunner.Resolved () ∧ endCalls (proxy r.2) = 1%nat
  ∧ sinkEnds (proxy r.2) = 1%nat
  ∧ passedItems (proxy r.2) = [Some Sample.testItem].
Proof. repeat split; reflexivity. Qed.

Example runHandler_stuck_process :
  let r := TestRunner.runHandler
             (Sample3.env (Some 0) [TestRunner.DidWrite "passed"])
             [Sample.testItem] false TestRunner.standard
             (TestRunner.initial [Sample.testItem]) in
  r.1 = TestRunner.Pending ∧ endCalls (proxy r.2) = 0%nat.
Proof. repeat split; reflexivity. Qed.


Example exit_code_2_is_shown :
  outputs
    (proxy (TestRunner.runHandler
              (Sample3.env (Some 0)
                 [TestRunner.DidWrite "passed"; TestRunner.DidClose (Some 2)])
              [Sample.testItem] false TestRunner.standard
              (TestRunner.initial [Sample.testItem])).2)
  = ["> Test run started at 11/3/2026, 9:00:00 AM <" +:+ TestRunner.CRLF
       +:+ TestRunner.CRLF;
     "passed";
     TestRunner.CRLF +:+ "Error: exit code"]
  ∧ outputs
      (proxy (TestRunner.runHandler
                (Sample3.env (Some 0)
                   [TestRunner.DidWrite "passed"; TestRunner.DidClose (Some 1)])
                [Sample.testItem] false TestRunner.standard
                (TestRunner.initial [Sample.testItem])).2)
    = ["> Test run started at 11/3/2026, 9:00:00 AM <" +:+ TestRunner.CRLF
         +:+ TestRunner.CRLF;
       "passed"].
Proof. split; reflexivity. Qed.

Example exit_code_1_appends_nothing :
  queuedOutput
    (proxy (TestRunner.launchTests (Sample3.env (Some 0) []) [Sample.testItem]
              TestRunner.standard TestRunner.outputStream
              [TestRunner.DidWrite "failed"; TestRunner.DidClose (Some 1)]
              (TestRunner.initial [Sample.testItem])).2)
  = queuedOutput
      (proxy (TestRunner.launchTests (Sample3.env (Some 0) []) [Sample.testItem]
                TestRunner.standard TestRunner.outputStream
                [TestRunner.DidWrite "failed"; TestRunner.DidClose (Some 0)]
                (TestRunner.initial [Sample.testItem])).2)
  ∧ length
      (queuedOutput
         (proxy (TestRunner.launchTests (Sample3.env (Some 0) []) [Sample.testItem]
                   TestRunner.standard TestRunner.outputStream
                   [TestRunner.DidWrite "failed"; TestRunner.DidClose (Some 2)]
                   (TestRunner.initial [Sample.testItem])).2))
    = 3%nat.
Proof. split; reflexivity. Qed.

(** * Further properties of the code *)

(** ** The proxy: output and results *)

Section ProxyProperties.

Lemma appendOutputs_queued (outs : list string) (p : TestRunProxy) :
  testRun p = None →
  let p' := fold_left (λ p o, TestRunProxy.appendOutput o p) outs p in
  testRun p' = None ∧ runStarted p' = runStarted p
  ∧ queuedOutput p' = queuedOutput p ++ outs ∧ testItems p' = testItems p.
Proof.
  revert p. induction outs as [|o outs IH]; intros p Hp; simpl.
  - by rewrite app_nil_r.
  - destruct (IH (TestRunProxy.appendOutput o p)) as (H1 & H2 & H3 & H4).
    { unfold TestRunProxy.appendOutput. by rewrite Hp. }
    rewrite H1, H2, H3, H4. unfold TestRunProxy.appendOutput. rewrite Hp. simpl.
    by rewrite <- app_assoc.
Qed.

Lemma appendOutputs_sent (outs : list string) (p : TestRunProxy) (evs : list SinkEvent) :
  testRun p = Some evs →
  let p' := fold_left (λ p o, TestRunProxy.appendOutput o p) outs p in
  testRun p' = Some (evs ++ (SinkAppendOutput <$> outs))
  ∧ queuedOutput p' = queuedOutput p.
Proof.
  revert p evs. induction outs as [|o outs IH]; intros p evs Hp; simpl.
  - by rewrite app_nil_r.
  - destruct (IH (TestRunProxy.appendOutput o p) (evs ++ [SinkAppendOutput o]))
      as (H1 & H2).
    { unfold TestRunProxy.appendOutput. rewrite Hp. simpl. by rewrite Hp. }
    rewrite H1, H2. unfold TestRunProxy.appendOutput. rewrite Hp. simpl.
    by rewrite <- app_assoc.
Qed.

(** X1. Output appended to a new proxy before the run starts is queued and
    reaches nothing; [testRunStarted] creates the run, hands it the queued
    output in the order in which it was appended, then enqueues the test
    items of the request followed by the added ones, and empties the queue;
    output appended afterwards goes to the run directly, after all that. *)
Theorem queued_output_is_forwarded_in_order (items_ added : list TestItem)
    (before after : list string) :
  let p0 := fold_left (λ p o, TestRunProxy.appendOutput o p) before
                      (TestRunProxy.create items_) in
  let p1 := TestRunProxy.testRunStarted added p0 in
  let p2 := fold_left (λ p o, TestRunProxy.appendOutput o p) after p1 in
  (testRun p0 = None ∧ queuedOutput p0 = before)
  ∧ (testRun p1 = Some ((SinkAppendOutput <$> before)
                        ++ (SinkEnqueued <$> (items_ ++ added)))
     ∧ queuedOutput p1 = [] ∧ testItems p1 = items_ ++ added)
  ∧ (testRun p2 = Some ((SinkAppendOutput <$> before)
                        ++ (SinkEnqueued <$> (items_ ++ added))
                        ++ (SinkAppendOutput <$> after))
     ∧ queuedOutput p2 = []).
Proof.
  intros p0 p1 p2.
  destruct (appendOutputs_queued before (TestRunProxy.create items_) eq_refl)
    as (H1 & H2 & H3 & H4).
  fold p0 in H1, H2, H3, H4. simpl in H2, H3, H4.
  assert (testRun p1 = Some ((SinkAppendOutput <$> before)
                             ++ (SinkEnqueued <$> (items_ ++ added)))
          ∧ queuedOutput p1 = [] ∧ testItems p1 = items_ ++ added) as (H5 & H6 & H7).
  { unfold p1, TestRunProxy.testRunStarted. rewrite H2. simpl. by rewrite H3, H4. }
  destruct (appendOutputs_sent after p1 _ H5) as (H8 & H9). fold p2 in H8, H9.
  repeat split; try done.
  - by rewrite H8, <- app_assoc.
  - by rewrite H9.
Qed.

(** X2. [testRunStarted] acts once: a second call, whatever test items have
    been added in between, leaves the proxy as the first call left it. No
    second run is created and nothing is enqueued twice. *)
Theorem testRunStarted_acts_once (added added' : list TestItem) (p : TestRunProxy) :
  TestRunProxy.testRunStarted added' (TestRunProxy.testRunStarted added p)
  = TestRunProxy.testRunStarted added p
  ∧ runStarted (TestRunProxy.testRunStarted added p) = true.
Proof.
  unfold TestRunProxy.testRunStarted.
  destruct (runStarted p) eqn:E; simpl; by rewrite ?E.
Qed.

Lemma omap_snoc {A B} (f : A → option B) (l : list A) (x : A) :
  omap f (l ++ [x]) = omap f l ++ from_option (λ y, [y]) [] (f x).
Proof. rewrite omap_app. simpl. by destruct (f x). Qed.

Lemma reported_send (ev : SinkEvent) (p : TestRunProxy) :
  reported (TestRunProxy.send ev p)
  = match testRun p with Some _ => reported p ++ [ev] | None => [] end.
Proof. unfold reported. simpl. by destruct (testRun p). Qed.

Lemma omap_fmap_none {A B C} (f : B → option C) (g : A → B) (l : list A) :
  (∀ a, f (g a) = None) → omap f (g <$> l) = [].
Proof. intros H. induction l as [|a l IH]; simpl; [done|]. by rewrite H. Qed.

Lemma suffix_same_tail {A} (l k t : list A) :
  l `suffix_of` k → (l ++ t) `suffix_of` (k ++ t).
Proof. intros [m ->]. exists m. by rewrite <- app_assoc. Qed.

Lemma orderly_send (ev : SinkEvent) (p q : TestRunProxy) :
  orderly p → runStarted q = runStarted p → testRun q = testRun p →
  queuedOutput q = queuedOutput p → orderly (TestRunProxy.send ev q).
Proof.
  intros [Ho1 Ho2] Hr Ht Hq. split; cbn; rewrite Hr, Ht, ?Hq.
  - intros H. by rewrite (Ho1 H).
  - intros H. destruct (Ho2 H) as [[evs ->] ?]. cbn. eauto.
Qed.

Lemma recorded_send (ev : SinkEvent) (p q : TestRunProxy) :
  recorded p → testRun q = testRun p →
  passedItems q = passedItems p ++ from_option (λ y, [y]) [] (passedOf ev) →
  failedItems q = failedItems p ++ from_option (λ y, [y]) [] (failedOf ev) →
  skippedItems q = skippedItems p ++ from_option (λ y, [y]) [] (skippedOf ev) →
  erroredItems q = erroredItems p ++ from_option (λ y, [y]) [] (erroredOf ev) →
  recorded (TestRunProxy.send ev q).
Proof.
  intros (Hp & Hf & Hs & He) Ht H1 H2 H3 H4.
  unfold recorded. rewrite reported_send, Ht. cbn. rewrite H1, H2, H3, H4.
  destruct (testRun p) as [evs|] eqn:E.
  - unfold reported in *. rewrite ?Ht, ?E in *. cbn in *. rewrite !omap_snoc.
    repeat split; by apply suffix_same_tail.
  - repeat split; apply suffix_nil.
Qed.

Lemma applyProxyCall_recorded (c : ProxyCall) (p : TestRunProxy) :
  orderly p ∧ recorded p → orderly (applyProxyCall c p) ∧ recorded (applyProxyCall c p).
Proof.
  intros [Ho Hr].
  destruct c as [added|tst|tst|tst d|tst ms d|tst ms d|output|cov];
    cbn [applyProxyCall].
  - (* testRunStarted *)
    unfold TestRunProxy.testRunStarted.
    destruct (runStarted p) eqn:E; [by split|].
    split; [split; cbn; [done|eauto]|].
    unfold recorded, reported. cbn.
    rewrite !omap_app, !omap_fmap_none by done. cbn.
    repeat split; apply suffix_nil.
  - split; [by apply (orderly_send _ p)|].
    apply (recorded_send _ p); cbn; by rewrite ?app_nil_r.
  - split; [by apply (orderly_send _ p)|].
    apply (recorded_send _ p); cbn; by rewrite ?app_nil_r.
  - split; [by apply (orderly_send _ p)|].
    apply (recorded_send _ p); cbn; by rewrite ?app_nil_r.
  - split; [by apply (orderly_send _ p)|].
    apply (recorded_send _ p); cbn; by rewrite ?app_nil_r.
  - split; [by apply (orderly_send _ p)|].
    apply (recorded_send _ p); cbn; by rewrite ?app_nil_r.
  - (* appendOutput *)
    unfold TestRunProxy.appendOutput. destruct (testRun p) eqn:E.
    + split; [by apply (orderly_send _ p)|].
      apply (recorded_send _ p); cbn; by rewrite ?app_nil_r.
    + destruct Ho as [Ho1 Ho2].
      split; [split; cbn; [done|intros H; destruct (Ho2 H) as [[? ?] ?]; congruence]|].
      unfold recorded, reported in *. cbn. by rewrite E in *.
  - (* end *)
    unfold TestRunProxy.end_. cbn [testRun]. destruct (testRun p) eqn:E; cbn [snd].
    + destruct cov; cbn [snd].
      * split; [by apply (orderly_send _ p)|].
        apply (recorded_send _ p); cbn; by rewrite ?app_nil_r.
      * destruct Ho as [Ho1 Ho2].
        split; [split; cbn; rewrite <- ?E; [exact Ho1|exact Ho2]|].
        unfold recorded, reported in *. cbn. rewrite E in Hr. exact Hr.
    + destruct Ho as [Ho1 Ho2].
      split; [split; cbn; [done|intros H; destruct (Ho2 H) as [[? ?] ?]; congruence]|].
      unfold recorded, reported in *. cbn. rewrite E in Hr. exact Hr.
Qed.

(** X3. Whatever is called on a new proxy, in whatever order: the proxy has
    a [vscode.TestRun] exactly when the run has started, and then no
    output is left queued; and the tests the run was told have passed,
    failed, errored or been skipped are, in order, the last of those
    recorded in [runState]. A result reported before the run has started is
    recorded in [runState] and reaches no run. *)
Theorem runState_records_what_the_run_receives (items_ : list TestItem)
    (calls : list ProxyCall) :
  let p := applyProxyCalls calls (TestRunProxy.create items_) in
  (testRun p = None ↔ runStarted p = false)
  ∧ (runStarted p = true → queuedOutput p = [])
  ∧ omap passedOf (reported p) `suffix_of` passedItems p
  ∧ omap failedOf (reported p) `suffix_of` failedItems p
  ∧ omap skippedOf (reported p) `suffix_of` skippedItems p
  ∧ omap erroredOf (reported p) `suffix_of` erroredItems p
  ∧ (∀ tst d, passedItems (TestRunProxy.passed tst d (TestRunProxy.create items_))
               = [tst]
               ∧ testRun (TestRunProxy.passed tst d (TestRunProxy.create items_))
                 = None).
Proof.
  intros p.
  assert (orderly p ∧ recorded p) as [[Ho1 Ho2] (Hp & Hf & Hs & He)].
  { unfold p, applyProxyCalls.
    assert (orderly (TestRunProxy.create items_)
            ∧ recorded (TestRunProxy.create items_)) as H0.
    { split; [split; cbn; done|]. repeat split; apply suffix_nil. }
    revert H0. generalize (TestRunProxy.create items_).
    induction calls as [|c calls IH]; intros q Hq; [done|].
    simpl. by apply IH, applyProxyCall_recorded. }
  repeat split; try done.
  - intros H. destruct (runStarted p) eqn:E; [|done].
    destruct (Ho2 eq_refl) as [[? ?] _]. congruence.
  - intros H. by destruct (Ho2 H).
Qed.

End ProxyProperties.

(** ** The run state: issues *)

Lemma recordIssues_state (index : Z) (msgs : list (string * option Location))
    (s : TestRunnerTestRunState) :
  let s1 := fold_left (λ s m, TestRunnerTestRunState.recordIssue index m.1 m.2 s)
                      msgs s in
  proxy s1 = proxy s ∧ currentTestItem s1 = currentTestItem s
  ∧ startTimes s1 = startTimes s
  ∧ default [] (issues s1 !! index)
    = default [] (issues s !! index) ++ (issueOf <$> msgs)
  ∧ ∀ j, j ≠ index → issues s1 !! j = issues s !! j.
Proof.
  revert s. induction msgs as [|m msgs IH]; intros s; simpl.
  - rewrite app_nil_r. done.
  - destruct (IH (TestRunnerTestRunState.recordIssue index m.1 m.2 s))
      as (H1 & H2 & H3 & H4 & H5).
    rewrite H1, H2, H3, H4. cbn. rewrite lookup_insert_eq. cbn.
    rewrite <- app_assoc. repeat split; try done.
    intros j Hj. rewrite (H5 j Hj). cbn. by rewrite lookup_insert_ne.
Qed.

(** X4. The issues recorded for a test make it fail: when [completed] is
    called for an index, the test is reported as failed with every issue
    recorded for that index so far, in the order of recording, and as passed
    only if none was ever recorded. Issues of other indices play no part.
    [completed] clears the current test item, keeps it as the last one, and
    leaves the recorded issues in place. *)
Theorem recorded_issues_fail_the_test (index : Z) (s : TestRunnerTestRunState)
    (msgs : list (string * option Location)) (duration : float) :
  let s1 := fold_left (λ s m, TestRunnerTestRunState.recordIssue index m.1 m.2 s)
                      msgs s in
  let tst := TestRunnerTestRunState.itemAt (testItems (proxy s)) index in
  let all := default [] (issues s !! index) ++ (issueOf <$> msgs) in
  ∃ s2, TestRunnerTestRunState.completed index (Duration duration) s1
        = (Returned (), s2)
        ∧ proxy s2 = match all with
                     | [] => TestRunProxy.passed tst (duration * 1000)%float (proxy s)
                     | _ :: _ =>
                         TestRunProxy.failed tst all (duration * 1000)%float (proxy s)
                     end
        ∧ currentTestItem s2 = None
        ∧ lastTestItem s2 = currentTestItem s
        ∧ default [] (issues s2 !! index) = all
        ∧ (∀ j, j ≠ index → issues s2 !! j = issues s !! j).
Proof.
  intros s1 tst all.
  destruct (recordIssues_state index msgs s) as (H1 & H2 & H3 & H4 & H5).
  fold s1 in H1, H2, H3, H4, H5. fold all in H4.
  unfold TestRunnerTestRunState.completed. cbn.
  eexists. split; [reflexivity|]. cbn. rewrite H1, H2, H4.
  repeat split; try done.
  fold tst. destruct all; done.
Qed.

(** ** The test item finders *)

(** X5. [DarwinTestItemFinder.getIndex] returns -1 exactly when no test
    item has the id, and otherwise the index of the first test item whose
    id is the given one; the result is always -1 or an index of the
    list. *)
Theorem darwin_getIndex_first_match (testItems_ : list TestItem) (id_ : string) :
  (DarwinTestItemFinder.getIndex testItems_ id_ = -1
   ↔ ∀ item, item ∈ testItems_ → id item ≠ id_)
  ∧ ((∃ item, item ∈ testItems_ ∧ id item = id_) →
     firstIndex (λ item, id item = id_) testItems_
                (DarwinTestItemFinder.getIndex testItems_ id_))
  ∧ -1 ≤ DarwinTestItemFinder.getIndex testItems_ id_ < Z.of_nat (length testItems_).
Proof.
  unfold DarwinTestItemFinder.getIndex.
  assert ((∃ item, item ∈ testItems_ ∧ id item = id_) →
     firstIndex (λ item, id item = id_) testItems_
                (findIndex (λ item, String.eqb (id item) id_) testItems_)) as Hfirst.
  { intros (item & Hin & Hid).
    eapply firstIndex_iff; [|apply findIndex_first].
    - intros x. apply String.eqb_eq.
    - exists item. split; [done|]. by apply String.eqb_eq. }
  split; [|split; [exact Hfirst|]].
  - rewrite findIndex_none. split; intros H item Hin.
    + apply String.eqb_neq. by apply H.
    + apply String.eqb_neq. by apply H.
  - destruct (decide (findIndex (λ item, String.eqb (id item) id_) testItems_ = -1))
      as [->|Hne]; [lia|].
    destruct Hfirst as (H0 & x & Hx & _).
    { destruct (findIndexFrom_first (λ item, String.eqb (id item) id_) testItems_ 0
                  Hne ltac:(lia)) as (k & y & _ & Hy & Hfy & _).
      exists y. split; [by eapply list_elem_of_lookup_2|]. by apply String.eqb_eq. }
    apply lookup_lt_Some in Hx. lia.
Qed.

Section XUnitProperties.

Variable parent : TestItem → option TestItem.
Variable path_join : string → string → string.
Variable path_relative : string → string → string.
Variable folder : string.
Variable swiftPackage : SwiftPackage.
Variable env : TestRunner.Env.

Lemma finder_without_filename (platform : TestRunner.Platform)
    (testItems_ : list TestItem) (id_ : string) :
  TestItemFinder.getIndex parent path_join path_relative folder swiftPackage
    platform testItems_ id_ None
  = findIndex (reportedAs platform id_) testItems_.
Proof.
  unfold TestItemFinder.getIndex, reportedAs, DarwinTestItemFinder.getIndex,
    NonDarwinTestItemFinder.getIndex.
  by case_bool_decide.
Qed.

Lemma itemAt_lookup (testItems_ : list TestItem) (i : Z) (item : TestItem) :
  0 ≤ i → testItems_ !! Z.to_nat i = Some item →
  TestRunnerTestRunState.itemAt testItems_ i = Some item.
Proof.
  intros Hi H. unfold TestRunnerTestRunState.itemAt.
  by rewrite bool_decide_eq_true_2.
Qed.

(** X6. With the finder of the platform, the xUnit state looks a reported
    id up among the requested test items: by equality on Darwin, by suffix
    elsewhere. A result for an id that no requested item matches is
    dropped, the proxy is left as it was. Otherwise the result goes to the
    first matching item: a pass with the reported duration, a failure with
    the reported message or ["Failed"] when there is none, a skip. *)
Theorem xunit_results_find_their_test (requested : list TestItem) (id_ : string)
    (duration : float) (msg : option string) (p : TestRunProxy) :
  (∀ items_ x, TestRunner.getIndex env items_ x
               = TestItemFinder.getIndex parent path_join path_relative folder
                   swiftPackage (TestRunner.platform env) items_ x None) →
  ((∀ item, item ∈ requested → reportedAs (TestRunner.platform env) id_ item = false) →
   TestRunner.applyXUnitCall env requested (TestRunner.PassTest id_ duration) p = p
   ∧ TestRunner.applyXUnitCall env requested (TestRunner.FailTest id_ duration msg) p = p
   ∧ TestRunner.applyXUnitCall env requested (TestRunner.SkipTest id_) p = p)
  ∧ (∀ i item,
       firstIndex (λ item, reportedAs (TestRunner.platform env) id_ item = true)
                  requested i →
       requested !! Z.to_nat i = Some item →
       TestRunner.applyXUnitCall env requested (TestRunner.PassTest id_ duration) p
       = TestRunProxy.passed (Some item) duration p
       ∧ TestRunner.applyXUnitCall env requested (TestRunner.FailTest id_ duration msg) p
         = TestRunProxy.failed (Some item)
             [{| message := default "Failed" msg; msg_location := None |}] duration p
       ∧ TestRunner.applyXUnitCall env requested (TestRunner.SkipTest id_) p
         = TestRunProxy.skipped (Some item) p).
Proof.
  intros Hfinder. split.
  - intros Hnone.
    assert (TestRunner.getIndex env requested id_ = -1) as Hidx.
    { rewrite Hfinder, finder_without_filename. by apply findIndex_none. }
    unfold TestRunner.applyXUnitCall. rewrite Hidx. done.
  - intros i item Hfirst Hitem.
    assert (TestRunner.getIndex env requested id_ = i) as Hidx.
    { rewrite Hfinder, finder_without_filename.
      assert (firstIndex (λ item, reportedAs (TestRunner.platform env) id_ item = true)
                requested (findIndex (reportedAs (TestRunner.platform env) id_) requested))
        as Hfirst'.
      { apply findIndex_first. destruct Hfirst as (_ & x & Hx & HPx & _).
        exists x. split; [by eapply list_elem_of_lookup_2|done]. }
      destruct Hfirst as (Hi & x & Hx & HPx & Hmin).
      destruct Hfirst' as (Hi' & x' & Hx' & HPx' & Hmin').
      set (k := findIndex (reportedAs (TestRunner.platform env) id_) requested) in *.
      destruct (Z.lt_trichotomy k i) as [Hlt|[Heq|Hgt]]; [|done|].
      - exfalso. apply (Hmin (Z.to_nat k) x'); [lia|done|done].
      - exfalso. apply (Hmin' (Z.to_nat i) x); [lia|done|done]. }
    destruct Hfirst as (Hi & _).
    unfold TestRunner.applyXUnitCall. rewrite Hidx.
    rewrite (bool_decide_eq_true_2 (i ≠ -1)) by lia.
    by rewrite (itemAt_lookup _ _ _ Hi Hitem).
Qed.

End XUnitProperties.

(** ** The catalog: the incoming lookup and a reconciliation pass *)

Section MoreCatalogProperties.

Import TestItemCollection TestDiscovery.

Lemma traverse_unfold (f : option string) (t : TestClass) (d : gmap string TestClass) :
  traverse f t d
  = if inFilterFile f (fsPath <$> tc_location t)
    then fold_left (λ d item, traverse f item d) (tc_children t)
                   (<[tc_id t := t]> d)
    else d.
Proof. by destruct t. Qed.

Lemma incoming_unfold (t : TestClass) :
  incoming t = t :: flat_map incoming (tc_children t).
Proof. by destruct t. Qed.

(** A property of the entries that holds for every incoming item in the
    filter file holds for the whole lookup. *)
Lemma traverse_entries (f : option string) (P : string → TestClass → Prop)
    (t : TestClass) :
  (∀ t', In t' (incoming t) → inFilterFile f (fsPath <$> tc_location t') = true →
         P (tc_id t') t') →
  ∀ d, map_Forall P d → map_Forall P (traverse f t d).
Proof.
  induction t as [t IH] using TestClass_ind'. intros HP d Hd.
  rewrite traverse_unfold.
  destruct (inFilterFile f (fsPath <$> tc_location t)) eqn:E; [|done].
  assert (map_Forall P (<[tc_id t := t]> d)) as Hd'.
  { apply map_Forall_insert_2; [|done]. apply HP; [|done].
    rewrite incoming_unfold. by left. }
  assert (∀ t', In t' (flat_map incoming (tc_children t)) →
                inFilterFile f (fsPath <$> tc_location t') = true → P (tc_id t') t')
    as HP'.
  { intros t' Hin. apply HP. rewrite incoming_unfold. by right. }
  clear HP E Hd. revert Hd'. generalize (<[tc_id t := t]> d).
  induction (tc_children t) as [|ch chs IHchs]; intros d' Hd'; [done|].
  apply Forall_cons in IH as [IHch IH]. simpl. apply IHchs; [done| |].
  - intros t' Hin. apply HP'. simpl. apply List.in_or_app. by right.
  - apply IHch; [|done]. intros t' Hin. apply HP'. simpl.
    apply List.in_or_app. by left.
Qed.

Lemma createIncomingTestLookup_entries (f : option string)
    (testItems_ : list TestClass) (x : string) (t : TestClass) :
  createIncomingTestLookup testItems_ f !! x = Some t →
  tc_id t = x ∧ In t (flat_map incoming testItems_)
  ∧ inFilterFile f (fsPath <$> tc_location t) = true.
Proof.
  assert (map_Forall (λ x t, tc_id t = x ∧ In t (flat_map incoming testItems_)
                             ∧ inFilterFile f (fsPath <$> tc_location t) = true)
                     (createIncomingTestLookup testItems_ f)) as H.
  { unfold createIncomingTestLookup.
    assert (∀ l d, (∀ t', In t' (flat_map incoming l) →
                          In t' (flat_map incoming testItems_)) →
              map_Forall (λ x t, tc_id t = x ∧ In t (flat_map incoming testItems_)
                                 ∧ inFilterFile f (fsPath <$> tc_location t) = true) d →
              map_Forall (λ x t, tc_id t = x ∧ In t (flat_map incoming testItems_)
                                 ∧ inFilterFile f (fsPath <$> tc_location t) = true)
                         (fold_left (λ d item, traverse f item d) l d)) as Hfold.
    { induction l as [|a l IHl]; intros d Hsub Hd; [done|]. simpl.
      apply IHl.
      - intros t' Hin. apply Hsub. simpl. apply List.in_or_app. by right.
      - apply traverse_entries; [|done]. intros t' Hin Hf.
        split; [done|]. split; [|done]. apply Hsub. simpl.
        apply List.in_or_app. by left. }
    apply Hfold; [done|]. apply map_Forall_empty. }
  intros Hx. exact (H x t Hx).
Qed.

(** X7. The lookup that [createIncomingTestLookup] builds holds an entry
    for an id exactly when an item of the snapshot, at any depth, has that
    id; the entry under an id is an item of the snapshot with that id. With
    a filter file every entry is an item located in that file. *)
Theorem incoming_lookup_holds_the_snapshot (testItems_ : list TestClass)
    (filterFile : option string) (x : string) :
  (is_Some (createIncomingTestLookup testItems_ None !! x)
   ↔ ∃ t, In t (flat_map incoming testItems_) ∧ tc_id t = x)
  ∧ (∀ t, createIncomingTestLookup testItems_ filterFile !! x = Some t →
          tc_id t = x ∧ In t (flat_map incoming testItems_)
          ∧ inFilterFile filterFile (fsPath <$> tc_location t) = true).
Proof.
  split.
  - split.
    + intros [t Ht]. exists t.
      by destruct (createIncomingTestLookup_entries None _ _ _ Ht) as (? & ? & _).
    + intros (t & Hin & <-). by apply createIncomingTestLookup_incoming.
  - intros t. apply createIncomingTestLookup_entries.
Qed.

Lemma Everywhere_impl (P Q : TestItem → Prop) (e : TestItem) :
  (∀ e, P e → Q e) → Everywhere P e → Everywhere Q e.
Proof.
  intros HPQ. induction e as [e IH] using TestItem_ind'. intros He.
  inversion He as [? HP Hkids]; subst. constructor; [by apply HPQ|].
  rewrite Forall_forall in IH, Hkids. apply Forall_forall. intros d Hd.
  by apply IH, Hkids.
Qed.

(** X8. After a reconciliation pass without a filter file no stale item is
    left: every item of the catalog, at every depth, has the id of an item
    of the snapshot, and every item that the pass removed has an id that
    the snapshot does not have. Ids stay unique in every collection. With
    an empty snapshot the catalog is empty afterwards. *)
Theorem unfiltered_pass_leaves_no_stale_item (testController : TestController)
    (testItems_ : list TestClass) :
  uniqueIds (items testController) →
  let r := updateTests testController testItems_ None in
  Forall (Everywhere (λ e, ∃ t, In t (flat_map incoming testItems_) ∧ tc_id t = id e))
         (items r.1)
  ∧ Forall (λ e, ∀ t, In t (flat_map incoming testItems_) → tc_id t ≠ id e) r.2
  ∧ uniqueIds (items r.1)
  ∧ (testItems_ = [] → items r.1 = []).
Proof.
  intros Hc r.
  destruct (updateTests_eq testController testItems_ None Hc) as (Heq & Hu & Hkept & _).
  assert (Forall (Everywhere (λ e, ∃ t, In t (flat_map incoming testItems_)
                                        ∧ tc_id t = id e)) (items r.1)) as Hfresh.
  { unfold r. rewrite Heq. cbn [fst snd items].
    eapply Forall_impl; [exact Hkept|]. intros e. apply Everywhere_impl.
    intros e' He'. unfold shouldRemove in He'. cbn [inFilterFile] in He'.
    rewrite andb_true_r in He'. apply negb_false_iff, bool_decide_eq_true in He'.
    destruct He' as [t Ht]. exists t.
    by destruct (createIncomingTestLookup_entries None _ _ _ Ht) as (? & ? & _). }
  split; [exact Hfresh|]. split; [|split].
  - unfold r. rewrite Heq. cbn [fst snd items].
    eapply Forall_impl; [apply removeOldTestsIn_removed|].
    intros e He t Hin Hid. unfold shouldRemove in He.
    apply andb_true_iff in He as [He _].
    apply negb_true_iff, bool_decide_eq_false in He. apply He.
    rewrite <- Hid. by apply createIncomingTestLookup_incoming.
  - unfold r. by rewrite Heq.
  - intros ->. destruct (items r.1) as [|e rest]; [done|].
    apply Forall_cons in Hfresh as [He _]. inversion He as [? (t & [] & _) _].
Qed.

(** X9. After a reconciliation pass, with or without a filter file, the
    catalog holds the snapshot: for every item of the snapshot that is not
    of style "swift-testing" there is an item with its id in the root
    collection, below it an item for each of its children that is not of
    that style, and so on down the tree. *)
Theorem pass_covers_the_snapshot (testController : TestController)
    (testItems_ : list TestClass) (filterFile : option string) :
  uniqueIds (items testController) →
  let r := updateTests testController testItems_ filterFile in
  Forall (λ t, covers t (items r.1)) testItems_
  ∧ (∀ t, In t testItems_ → tc_style t ≠ "swift-testing" →
          ∃ e, get (items r.1) (tc_id t) = Some e
               ∧ ∀ child, In child (tc_children t) →
                          tc_style child ≠ "swift-testing" →
                          is_Some (get (children e) (tc_id child))).
Proof.
  intros Hc r.
  destruct (updateTests_eq testController testItems_ filterFile Hc)
    as (Heq & _ & _ & Hcov).
  unfold r. rewrite Heq. cbn [fst items]. split; [done|].
  intros t Hin Hstyle. rewrite Forall_forall in Hcov.
  specialize (Hcov t ltac:(by apply list_elem_of_In)).
  assert (∀ t', tc_style t' ≠ "swift-testing" → active t' = true) as Hact.
  { intros t' H. unfold active. by apply negb_true_iff, String.eqb_neq. }
  inversion Hcov as [? ? Hskip|? ? e He Hkids]; subst.
  { rewrite (Hact t Hstyle) in Hskip. done. }
  exists e. split; [done|]. intros child Hchild Hcs.
  rewrite Forall_forall in Hkids.
  specialize (Hkids child ltac:(by apply list_elem_of_In)).
  inversion Hkids as [? ? Hskip|? ? e' He' _]; subst; [|by eauto].
  rewrite (Hact child Hcs) in Hskip. done.
Qed.

Lemma upsert_ids_absent (t : TestClass) (c : list TestItem) (n : nat) :
  active t = true → get c (tc_id t) = None →
  List.map id (upsertTestItem t (c, n)).1 = List.map id c ++ [tc_id t].
Proof.
  intros Hact Hget. rewrite upsert_active by done. cbn [fst]. rewrite ids_add.
  cbn [id updated]. rewrite target_id. by rewrite Hget.
Qed.

(** X10. An upsert and a lookup. After [upsertTestItem] for an item that is
    not of style "swift-testing", the collection holds under the item's id
    an item with the label of the incoming item, its style as first tag
    followed by its tags without their leading dot, and the range of its
    location. An item that was there under this id keeps its identity and
    its uri, even when the incoming item is located in another file; a new
    item gets the next identity and the file of the incoming item as uri.
    The items under other ids are untouched, and the order of the ids is
    the old one, with a new id at the end. *)
Theorem upsert_then_get (t : TestClass) (c : list TestItem) (n : nat) :
  tc_style t ≠ "swift-testing" →
  let c' := (upsertTestItem t (c, n)).1 in
  (∃ e', get c' (tc_id t) = Some e'
         ∧ id e' = tc_id t ∧ label e' = tc_label t
         ∧ tags e' = tc_style t :: List.map dropLeadingDot (tc_tags t)
         ∧ item_range e' = range <$> tc_location t
         ∧ match get c (tc_id t) with
           | Some e => ref e' = ref e ∧ uri e' = uri e
           | None => ref e' = n ∧ uri e' = fsPath <$> tc_location t
           end)
  ∧ (∀ x, x ≠ tc_id t → get c' x = get c x)
  ∧ List.map id c' = match get c (tc_id t) with
                     | Some _ => List.map id c
                     | None => List.map id c ++ [tc_id t]
                     end.
Proof.
  intros Hstyle c'.
  assert (active t = true) as Hact.
  { unfold active. by apply negb_true_iff, String.eqb_neq. }
  split; [|split].
  - unfold c'. rewrite upsert_get_eq by done. eexists. split; [done|].
    cbn [id label tags item_range ref uri updated].
    split; [apply target_id|]. do 3 (split; [done|]).
    unfold target. by destruct (get c (tc_id t)).
  - intros x Hx. by apply upsert_get_ne.
  - destruct (get c (tc_id t)) eqn:E.
    + apply upsert_ids_present. intros _. by rewrite E.
    + by apply upsert_ids_absent.
Qed.

Lemma Run_ids_new (testItems_ : list TestClass) (c c' : list TestItem) :
  Run testItems_ c c' →
  Forall (λ t, active t = true) testItems_ →
  NoDup (List.map tc_id testItems_) →
  (∀ t, In t testItems_ → get c (tc_id t) = None) →
  List.map id c' = List.map id c ++ List.map tc_id testItems_.
Proof.
  induction 1 as [c|t rest c n c'' Hrun IH]; intros Hact Hnd Hnew.
  - by rewrite app_nil_r.
  - apply Forall_cons in Hact as [Ht Hact]. simpl in Hnd.
    apply NoDup_cons in Hnd as [Hnotin Hnd].
    rewrite IH; [|done|done|].
    + rewrite upsert_ids_absent; [|done|by apply Hnew; left].
      by rewrite <- app_assoc.
    + intros t' Hin. rewrite upsert_get_ne.
      * apply Hnew. by right.
      * intros Heq. apply Hnotin. rewrite Heq. apply list_elem_of_In.
        by apply List.in_map.
Qed.

(** X11. [updateTestsFromClasses] shows the test targets of the package:
    afterwards the root collection has, for every test target, an item
    whose id and label are the target's name, tagged "test-target" and
    without a range. On a controller without items, and with test targets
    of different names, the root collection holds exactly these items, in
    the order of the package. *)
Theorem updateTestsFromClasses_shows_the_test_targets
    (getTarget : SwiftPackage → string → option nat) (swiftPackage : SwiftPackage)
    (testController : TestController) (testItems_ : list TestClass) :
  uniqueIds (items testController) →
  let r := updateTestsFromClasses getTarget swiftPackage testController testItems_ in
  (∀ i tg, In (i, tg) (getTargets swiftPackage test) →
     ∃ e, get (items r.1) (name tg) = Some e
          ∧ id e = name tg ∧ label e = name tg
          ∧ tags e = ["test-target"] ∧ item_range e = None)
  ∧ (items testController = [] →
     NoDup (List.map (λ it : nat * Target, name it.2) (getTargets swiftPackage test)) →
     List.map id (items r.1)
     = List.map (λ it : nat * Target, name it.2) (getTargets swiftPackage test)).
Proof.
  intros Hc r. unfold r, updateTestsFromClasses.
  set (mk := λ target : nat * Target,
         {| tc_id := name target.2; tc_label := name target.2;
            tc_disabled := false; tc_style := "test-target";
            tc_location := None;
            tc_children :=
              List.filter (λ testItem,
                match tc_location testItem with
                | Some location =>
                    bool_decide (getTarget swiftPackage (fsPath location)
                                 = Some target.1)
                | None => false
                end) testItems_;
            tc_tags := [] |}).
  set (targets_ := List.map mk (getTargets swiftPackage test)).
  destruct (updateTests_eq testController targets_ None Hc) as (Heq & _ & _ & _).
  rewrite Heq. cbn [fst items].
  set (lookup := createIncomingTestLookup targets_ None) in *.
  set (pruned := removeOldTestsIn lookup None (items testController)) in *.
  pose proof (upsertAll_Run targets_ (pruned.1, nextRef testController)) as Hrun.
  cbn [fst] in Hrun.
  assert (∀ t, In t targets_ →
               active t = true ∧ tc_label t = tc_id t ∧ tc_style t = "test-target"
               ∧ tc_tags t = [] ∧ tc_location t = None) as Hshape.
  { intros t Ht. apply List.in_map_iff in Ht as (it & <- & _). done. }
  split.
  - intros i tg Hin.
    pose proof (Run_settled _ _ _ (name tg) Hrun) as Hs. unfold settled in Hs.
    assert (In (mk (i, tg)) (group targets_ (name tg))) as Hg.
    { apply (in_group targets_ (mk (i, tg))); [|done].
      apply List.in_map_iff. by exists (i, tg). }
    destruct (last_is_Some _ _ Hg) as [tl Hl]. rewrite Hl in Hs.
    destruct Hs as (e' & He' & Hid & Hlabel & Htags & Hrange & _).
    apply last_In in Hl. apply List.filter_In in Hl as [Hl Hx].
    apply andb_true_iff in Hx as [_ Hx]. apply String.eqb_eq in Hx.
    destruct (Hshape tl Hl) as (_ & H1 & H2 & H3 & H4).
    exists e'. split; [done|]. split; [done|].
    rewrite Hlabel, Htags, Hrange, H1, H2, H3, H4, Hx. done.
  - intros Hempty Hnd.
    assert (pruned.1 = []) as Hp by (unfold pruned; by rewrite Hempty).
    rewrite Hp in *.
    rewrite (Run_ids_new _ _ _ Hrun).
    + unfold targets_. rewrite List.map_map. done.
    + apply Forall_forall. intros t Ht. apply list_elem_of_In in Ht.
      by destruct (Hshape t Ht).
    + unfold targets_. by rewrite List.map_map.
    + done.
Qed.

End MoreCatalogProperties.

(** ** Discovery: what the language server sends and what comes out *)

Section MoreDiscoveryProperties.

Variable textDocumentTestsMethod : string.
Variable workspaceTestsMethod : string.
Variable asLocation : LSPLocation → Location.
Variable getTarget : SwiftPackage → string → option nat.
Variable path_relative : string → string → string.

Lemma LSPTestItem_ind' (P : LSPTestItem → Prop) :
  (∀ item, Forall P (lsp_children item) → P item) → ∀ item, P item.
Proof.
  intros H. fix IH 1. intros item. apply H.
  destruct item as [? ? ? ? ? ch ?]. simpl.
  induction ch as [|c ch IHch]; constructor; [apply IH|exact IHch].
Qed.

Lemma transform_mirrors (swiftPackage : SwiftPackage) (item : LSPTestItem) :
  mirrors asLocation item (LSPTestDiscovery.transform asLocation getTarget swiftPackage item).
Proof.
  induction item as [item IH] using LSPTestItem_ind'.
  destruct item as [i l d s loc ch tg]. simpl in *.
  constructor; simpl; try done.
  - intros Hs. unfold LSPTestDiscovery.transformId. simpl.
    apply String.eqb_neq in Hs. by rewrite Hs.
  - induction IH as [|c cs Hc Hcs IHcs]; simpl; constructor; done.
Qed.

Lemma transformAll_mirrors (swiftPackage : SwiftPackage) (input : list LSPTestItem) :
  Forall2 (mirrors asLocation) input
          (LSPTestDiscovery.transformAll asLocation getTarget swiftPackage input).
Proof.
  unfold LSPTestDiscovery.transformAll.
  induction input as [|item input IH]; simpl; constructor;
    [apply transform_mirrors|done].
Qed.

(** X12. What discovery returns mirrors what the language server sent.
    When the server supports the request (version 2 or more) and answers
    with a list of items, [getDocumentTests] returns one test class per
    item, in the same order, each with the label, style, tags and disabled
    flag of its item, a location (at every depth), the id of the item unless
    it is an XCTest, and children that mirror the item's children in the
    same way. [getWorkspaceTests] does the same for the items that are
    inside the workspace folder and drops the other top-level items. A
    request that fails makes both fail with the same error. *)
Theorem discovery_mirrors_the_server (client : LSPTestDiscovery.LanguageClient)
    (swiftPackage : SwiftPackage) (workspaceRoot : string) (v : Z) :
  2 ≤ v →
  (advertises client textDocumentTestsMethod v →
   (∀ tests_, ∃ ts,
      LSPTestDiscovery.getDocumentTests textDocumentTestsMethod asLocation getTarget
        client (Returned tests_) swiftPackage = Returned ts
      ∧ Forall2 (mirrors asLocation) tests_ ts)
   ∧ (∀ e, LSPTestDiscovery.getDocumentTests textDocumentTestsMethod asLocation
             getTarget client (Thrown e) swiftPackage = Thrown e))
  ∧ (advertises client workspaceTestsMethod v →
     (∀ tests_, ∃ ts,
        LSPTestDiscovery.getWorkspaceTests workspaceTestsMethod asLocation getTarget
          path_relative client (Returned tests_) swiftPackage workspaceRoot
        = Returned ts
        ∧ Forall2 (mirrors asLocation)
            (List.filter (λ item,
               LSPTestDiscovery.isPathInsidePath path_relative
                 (fsPath (asLocation (lsp_location item))) workspaceRoot) tests_)
            ts
        ∧ Forall (λ t, ∃ location,
                    tc_location t = Some location
                    ∧ LSPTestDiscovery.isPathInsidePath path_relative
                        (fsPath location) workspaceRoot = true) ts)
     ∧ (∀ e, LSPTestDiscovery.getWorkspaceTests workspaceTestsMethod asLocation
               getTarget path_relative client (Thrown e) swiftPackage workspaceRoot
             = Thrown e)).
Proof.
  intros Hv. split.
  - intros Hadv. destruct (supported_version _ _ _ Hadv Hv) as (caps & Hc & Hv2).
    unfold LSPTestDiscovery.getDocumentTests. rewrite Hc, Hv2. split; [|done].
    intros tests_. eexists. split; [done|]. apply transformAll_mirrors.
  - intros Hadv. destruct (supported_version _ _ _ Hadv Hv) as (caps & Hc & Hv2).
    unfold LSPTestDiscovery.getWorkspaceTests. rewrite Hc, Hv2. split; [|done].
    intros tests_. eexists. split; [done|]. split; [apply transformAll_mirrors|].
    unfold LSPTestDiscovery.transformAll. apply Forall_forall. intros t Ht.
    apply list_elem_of_In, List.in_map_iff in Ht as (item & <- & Hin).
    apply List.filter_In in Hin as [_ Hin].
    exists (asLocation (lsp_location item)). split; [by destruct item|done].
Qed.

Lemma dropTrailingParens_other (s : string) :
  endsWith s "()" = false → dropTrailingParens s = s.
Proof.
  induction s as [|c s IH]; [done|]. cbn [endsWith dropTrailingParens].
  destruct (String.eqb (String c s) "()"); [done|]. intros H. by rewrite IH.
Qed.

(** X13. The id of an XCTest whose file belongs to no test target of the
    package (to no target at all, or to a target of another type) gets no
    target prefix: it is the id of the item without a final ["()"]. An id
    that does not end in ["()"] is kept whole, and of an id that ends in
    ["()()"] only the last pair is removed. *)
Theorem transformId_outside_the_test_targets (item : LSPTestItem)
    (location : Location) (swiftPackage : SwiftPackage) :
  lsp_style item = "XCTest" →
  (∀ i t, getTarget swiftPackage (fsPath location) = Some i →
          targets swiftPackage !! i = Some t → type t ≠ test) →
  LSPTestDiscovery.transformId getTarget item location swiftPackage
  = dropTrailingParens (lsp_id item)
  ∧ (endsWith (lsp_id item) "()" = false →
     LSPTestDiscovery.transformId getTarget item location swiftPackage = lsp_id item)
  ∧ (∀ base, lsp_id item = base +:+ "()()" →
     LSPTestDiscovery.transformId getTarget item location swiftPackage
     = base +:+ "()").
Proof.
  intros Hstyle Hnone.
  assert (LSPTestDiscovery.transformId getTarget item location swiftPackage
          = dropTrailingParens (lsp_id item)) as Heq.
  { unfold LSPTestDiscovery.transformId. rewrite Hstyle, String.eqb_refl.
    destruct (List.find _ _) as [[i t]|] eqn:E; [|done]. exfalso.
    apply List.find_some in E as [Hin Hp]. apply bool_decide_eq_true in Hp.
    simpl in Hp. unfold getTargets in Hin.
    apply List.filter_In in Hin as [Hin Hty]. apply bool_decide_eq_true in Hty.
    apply list_elem_of_In, elem_of_lookup_imap in Hin as (k & y & Heq & Hk).
    injection Heq as -> ->. by apply (Hnone k y). }
  split; [done|]. split.
  - intros H. by rewrite Heq, dropTrailingParens_other.
  - intros base Hid. rewrite Heq, Hid.
    replace (base +:+ "()()") with ((base +:+ "()") +:+ "()")
      by (by rewrite append_assoc).
    apply dropTrailingParens_app.
Qed.

End MoreDiscoveryProperties.

(** ** The run: errors, the build, the debugger, the output *)

Section MoreRunProperties.

Import TestRunner.

Variable env : Env.

Lemma appendOutput_resolves (output : string) (s : TestRunnerTestRunState) :
  (appendOutput output s).1 = Resolved ().
Proof. reflexivity. Qed.

Lemma launchTests_never_rejects (requested : list TestItem) (testKind : TestKind)
    (write : string → M unit) (events : list SessionEvent)
    (s : TestRunnerTestRunState) (e : JsError) :
  (launchTests env requested testKind write events s).1 ≠ Rejected e.
Proof.
  unfold launchTests.
  generalize (match testKind with
              | coverage => runCoverageSession env write events
              | parallel => runParallelSession env requested write events
              | standard => runStandardSession env write events
              end).
  intros m. cbv [mbind M_bind tryCatch appendOutput onProxy]. cbn [fst snd].
  destruct (m _) as [[[]|e'|] s2]; cbn; try done.
  destruct (isNot1 e'); cbn; done.
Qed.

Lemma bind_rejects_left {A B} (m : M A) (k : A → M B) (s : TestRunnerTestRunState)
    (e : JsError) :
  (∀ a s', (k a s').1 ≠ Rejected e) →
  ((m ≫= k) s).1 = Rejected e → (m s).1 = Rejected e.
Proof.
  intros Hk. unfold mbind, M_bind. destruct (m s) as [[a|e'|] s']; cbn.
  - intros H. by destruct (Hk a s').
  - by intros [= ->].
  - done.
Qed.

(** X14. The errors of a test session stay inside [launchTests]: whatever
    the spawned process, the coverage capture or the xUnit report do,
    [launchTests] does not reject. [runSession] rejects only when the
    creation of the named pipe fails, or when the watching of the pipe by
    the swift-testing parser fails, and then with that error. *)
Theorem session_errors_stay_inside (requested : list TestItem) (testKind : TestKind)
    (write : string → M unit) (events : list SessionEvent)
    (s : TestRunnerTestRunState) (e : JsError) :
  (launchTests env requested testKind write events s).1 ≠ Rejected e
  ∧ ((runSession env requested testKind s).1 = Rejected e →
     hasSwiftTestingTests env = true
     ∧ ((platform env ≠ win32 ∧ mkfifo env = Thrown e)
        ∨ (is_Some (swiftTestingConfig env)
           ∧ cancelledBeforeSwiftTesting env = false
           ∧ watch env = Thrown e))).
Proof.
  split; [apply launchTests_never_rejects|].
  intros H. unfold runSession in H. apply bind_rejects_left in H.
  2:{ intros [] s0. destruct (hasXCTests env); [|done].
      destruct (xcTestConfig env); [|done].
      destruct (cancelledBeforeXCTest env); [done|].
      cbv [mbind M_bind onProxy]. apply launchTests_never_rejects. }
  destruct (hasSwiftTestingTests env); [|done]. split; [done|].
  revert H. cbv [mbind M_bind]. case_bool_decide as Hp.
  - destruct (mkfifo env) as [[]|e1] eqn:Em; cbn.
    + destruct (swiftTestingConfig env) as [[]|] eqn:Ec; cbn; [|done].
      destruct (cancelledBeforeSwiftTesting env) eqn:Ecan; cbn; [done|].
      destruct (watch env) as [[]|e2] eqn:Ew; cbn.
      * intros H. exfalso. by eapply launchTests_never_rejects.
      * intros [= <-]. right. eauto.
    + intros [= <-]. by left.
  - cbn. destruct (swiftTestingConfig env) as [[]|] eqn:Ec; cbn; [|done].
    destruct (cancelledBeforeSwiftTesting env) eqn:Ecan; cbn; [done|].
    destruct (watch env) as [[]|e2] eqn:Ew; cbn.
    + intros H. exfalso. by eapply launchTests_never_rejects.
    + intros [= <-]. right. eauto.
Qed.

(** X15. The build step of [runHandler]. A coverage run does not go
    through the build task: for the test kind [coverage] the result is the
    same whatever the build task and the queued build operation would have
    done. For the other kinds, when getting the build task or the queued
    build throws, the error text is appended while there is no run and no
    session is started: [runHandler] returns, [end()] has been called once,
    and the text stays in the queue of a run that never starts. *)
Theorem build_step_of_runHandler (requested : list TestItem) (shouldDebug : bool)
    (testKind : TestKind) :
  (∀ task operation s,
     runHandler (withBuild task operation env) requested shouldDebug coverage s
     = runHandler env requested shouldDebug coverage s)
  ∧ (testKind ≠ coverage →
     ∀ e, getBuildAllTask env = Thrown e
          ∨ (getBuildAllTask env = Returned () ∧ queueOperation env = Thrown e) →
     let r := runHandler env requested shouldDebug testKind (initial requested) in
     r.1 = Resolved () ∧ testRun (proxy r.2) = None
     ∧ queuedOutput (proxy r.2) = [errorText env e]
     ∧ endCalls (proxy r.2) = 1%nat).
Proof.
  split; [reflexivity|].
  intros Hkind e Hbuild r. unfold r, runHandler.
  rewrite (bool_decide_eq_true_2 _ Hkind).
  destruct Hbuild as [->|[-> ->]]; cbv [mbind M_bind tryCatch mret M_ret await throw];
    cbn; done.
Qed.

Lemma endRun_rejects (s : TestRunnerTestRunState) (e : JsError) :
  (endRun (computeCoverage env) s).1 = Rejected e →
  computeCoverage env (endCalls (proxy s)) = Thrown e
  ∧ is_Some (testRun (proxy (endRun (computeCoverage env) s).2))
  ∧ sinkEnds (proxy (endRun (computeCoverage env) s).2) = sinkEnds (proxy s).
Proof.
  unfold endRun, TestRunProxy.end_, sinkEnds. cbn [fst snd proxy testRun endCalls].
  destruct (testRun (proxy s)) as [evs|] eqn:E; [|done].
  destruct (computeCoverage env (endCalls (proxy s))) as [[]|e']; cbn; [done|].
  intros [= ->]. rewrite ?E. eauto.
Qed.

Lemma session_then_end_rejects (session : M unit) (s : TestRunnerTestRunState)
    (e : JsError) :
  quietly session → clean s →
  let r := (tryCatch (_ ← session; mret false)
              (λ error, _ ← appendOutput (errorText env error); mret false)
            ≫= λ finished : bool,
              if finished then mret () else endRun (computeCoverage env)) s in
  r.1 = Rejected e →
  (∃ k, computeCoverage env k = Thrown e)
  ∧ is_Some (testRun (proxy r.2)) ∧ sinkEnds (proxy r.2) = 0%nat.
Proof.
  intros Hq (Hc & He & Hs). cbv zeta.
  unfold mbind, M_bind, tryCatch, mret, M_ret.
  pose proof (Hq s Hc) as (Hc1 & He1 & Hs1).
  destruct (session s) as [[[]|e0|] s1]; cbn [fst snd] in *.
  - intros H. destruct (endRun_rejects s1 e H) as (H1 & H2 & H3).
    split; [eauto|]. split; [done|]. congruence.
  - destruct (appendOutput_clean (errorText env e0) s1) as [Heq Hclean];
      [repeat split; [done|congruence..]|].
    rewrite Heq. intros H. destruct (endRun_rejects _ e H) as (H1 & H2 & H3).
    split; [eauto|]. split; [done|]. destruct Hclean as (_ & _ & Hz). congruence.
  - done.
Qed.

(** X26. [runHandler] throws only when the coverage of the run cannot be
    computed. From the state in which a new [TestRunner] enters it,
    [runHandler] rejects with an error only if computing the coverage in
    [end()] threw that error; the run had then been started, and it is left
    without having been ended. When computing the coverage does not throw,
    [runHandler] does not throw, whatever the build, the sessions and the
    debugger do. *)
Theorem runHandler_throws_only_from_coverage (requested : list TestItem)
    (shouldDebug : bool) (testKind : TestKind) :
  let r := runHandler env requested shouldDebug testKind (initial requested) in
  (∀ e, r.1 = Rejected e →
     (∃ k, computeCoverage env k = Thrown e)
     ∧ is_Some (testRun (proxy r.2)) ∧ sinkEnds (proxy r.2) = 0%nat)
  ∧ ((∀ k, computeCoverage env k = Returned ()) → ∀ e, r.1 ≠ Rejected e).
Proof.
  assert (∀ e, (runHandler env requested shouldDebug testKind (initial requested)).1
               = Rejected e →
     (∃ k, computeCoverage env k = Thrown e)
     ∧ is_Some (testRun (proxy (runHandler env requested shouldDebug testKind
                                  (initial requested)).2))
     ∧ sinkEnds (proxy (runHandler env requested shouldDebug testKind
                          (initial requested)).2) = 0%nat) as Hmain.
  { intros e.
    assert (quietly (if shouldDebug then debugSession env
                     else runSession env requested testKind)) as Hq.
    { destruct shouldDebug; [apply quietly_debugSession|apply quietly_runSession]. }
    assert (clean (initial requested)) as Hclean by done.
    pose proof (session_then_end_rejects _ _ e Hq Hclean) as Hsession.
    cbv zeta in Hsession.
    unfold runHandler.
    set (session := if shouldDebug then debugSession env
                    else runSession env requested testKind) in *.
    clearbody session.
    case_bool_decide as Hkind; [|exact Hsession].
    destruct (getBuildAllTask env) as [[]|e0] eqn:Etask.
    - destruct (queueOperation env) as [code|e0] eqn:Ebuild.
      + destruct (decide (code = Some 0)) as [->|Hcode]; [exact Hsession|].
        cbv [mbind M_bind tryCatch mret M_ret await throw].
        rewrite bool_decide_eq_true_2 by done. cbn. done.
      + cbv [mbind M_bind tryCatch mret M_ret await throw]. cbn. done.
    - cbv [mbind M_bind tryCatch mret M_ret await throw]. cbn. done. }
  cbv zeta. split; [exact Hmain|].
  intros Hcov e Hr. destruct (Hmain e Hr) as ((k & Hk) & _). rewrite Hcov in Hk. done.
Qed.

(** X16. [debugSession] starts a debug session only for a selection with
    swift-testing tests: without them it does nothing once the named pipe
    is made (the run state is as before, XCTest tests or not), and
    [runHandler], after a successful build, ends a run that never started
    and reported nothing. With swift-testing tests but without XCTest
    tests, it starts no debug session either unless diagnostics are
    enabled. *)
Theorem debugSession_needs_swift_testing_tests (requested : list TestItem)
    (testKind : TestKind) (s : TestRunnerTestRunState) :
  platform env = win32 ∨ mkfifo env = Returned () →
  (hasSwiftTestingTests env = false →
   debugSession env s = (Resolved (), s)
   ∧ (testKind ≠ coverage → getBuildAllTask env = Returned () →
      queueOperation env = Returned (Some 0) →
      let r := runHandler env requested true testKind (initial requested) in
      r.1 = Resolved () ∧ testRun (proxy r.2) = None
      ∧ outputs (proxy r.2) = [] ∧ endCalls (proxy r.2) = 1%nat
      ∧ passedItems (proxy r.2) = [] ∧ failedItems (proxy r.2) = []))
  ∧ (diagnostics env = false → hasXCTests env = false →
     debugSession env s = (Resolved (), s)).
Proof.
  intros Hpipe.
  assert (((if bool_decide (platform env ≠ win32) then await (mkfifo env)
            else mret ()) : M unit) = mret ()) as Hfifo.
  { case_bool_decide as Hp; [|done]. destruct Hpipe as [?| ->]; done. }
  split.
  - intros Hst.
    assert (∀ s0, debugSession env s0 = (Resolved (), s0)) as Hdebug.
    { intros s0. unfold debugSession. by rewrite Hfifo, Hst. }
    split; [apply Hdebug|].
    intros Hkind Htask Hbuild r. unfold r, runHandler.
    rewrite (bool_decide_eq_true_2 _ Hkind), Htask, Hbuild.
    cbv [mbind M_bind tryCatch mret M_ret await throw]. cbn [fst snd].
    rewrite (bool_decide_eq_false_2 (Some 0 ≠ Some 0)) by (intros H; by apply H).
    rewrite Hdebug. cbn. done.
  - intros Hdiag Hxc. unfold debugSession. rewrite Hfifo, Hdiag, Hxc.
    destruct (hasSwiftTestingTests env); [|done].
    cbv [mbind M_bind mret M_ret]. by destruct (swiftTestingConfig env).
Qed.

(** *** The output of the process *)

Lemma outputs_send (ev : SinkEvent) (p q : TestRunProxy) :
  outputOf ev = None → testRun q = testRun p → queuedOutput q = queuedOutput p →
  outputs (TestRunProxy.send ev q) = outputs p.
Proof.
  intros Hev Ht Hq. unfold outputs. rewrite reported_send. cbn. rewrite Ht, Hq.
  unfold reported. rewrite ?Ht. destruct (testRun p); [|done].
  cbn. by rewrite omap_snoc, Hev, app_nil_r.
Qed.

Lemma appendOutput_outputs (output : string) (p : TestRunProxy) :
  orderly p →
  orderly (TestRunProxy.appendOutput output p)
  ∧ outputs (TestRunProxy.appendOutput output p) = outputs p ++ [output].
Proof.
  intros Ho. pose proof Ho as [Ho1 Ho2].
  unfold TestRunProxy.appendOutput. destruct (testRun p) as [evs|] eqn:E.
  - split; [by apply (orderly_send _ p)|].
    assert (queuedOutput p = []) as Hq.
    { destruct (runStarted p) eqn:Er; [by destruct (Ho2 eq_refl)|].
      by specialize (Ho1 eq_refl). }
    unfold outputs. rewrite reported_send, E. cbn. unfold reported. rewrite E. cbn.
    by rewrite omap_snoc, Hq, !app_nil_r.
  - split.
    + split; cbn; [done|]. intros H. destruct (Ho2 H) as [[? ?] ?]. congruence.
    + unfold outputs, reported. cbn. rewrite E. done.
Qed.

Lemma testRunStarted_outputs (added : list TestItem) (p : TestRunProxy) :
  orderly p →
  orderly (TestRunProxy.testRunStarted added p)
  ∧ outputs (TestRunProxy.testRunStarted added p) = outputs p.
Proof.
  intros Ho. pose proof Ho as [Ho1 Ho2]. unfold TestRunProxy.testRunStarted.
  destruct (runStarted p) eqn:E; [done|]. split.
  - split; cbn; [done|eauto].
  - unfold outputs, reported. cbn. rewrite (Ho1 eq_refl). cbn.
    rewrite omap_app, (omap_fmap_none outputOf SinkEnqueued) by done.
    rewrite !app_nil_r.
    induction (queuedOutput p) as [|o os IH]; cbn; [done|]. by rewrite IH.
Qed.

Lemma applyCall_outputs (c : RunStateCall) (s : TestRunnerTestRunState) :
  orderly (proxy s) →
  orderly (proxy (applyCall c s).2)
  ∧ outputs (proxy (applyCall c s).2) = outputs (proxy s).
Proof.
  intros Ho. destruct c as [index startTime|index timing|index msg location|index];
    cbn [applyCall snd].
  - cbn [TestRunnerTestRunState.started proxy]. unfold TestRunProxy.started.
    split; [by apply (orderly_send _ (proxy s))|by apply outputs_send].
  - unfold TestRunnerTestRunState.completed.
    destruct (TestRunnerTestRunState.completedDuration _ _) as [d|e]; cbn [snd proxy];
      [|done].
    case_bool_decide.
    + unfold TestRunProxy.failed.
      split; [by apply (orderly_send _ (proxy s))|by apply outputs_send].
    + unfold TestRunProxy.passed.
      split; [by apply (orderly_send _ (proxy s))|by apply outputs_send].
  - done.
  - cbn [TestRunnerTestRunState.skipped proxy]. unfold TestRunProxy.skipped.
    split; [by apply (orderly_send _ (proxy s))|by apply outputs_send].
Qed.

Lemma applyCalls_outputs (cs : list RunStateCall) (s : TestRunnerTestRunState) :
  orderly (proxy s) →
  orderly (proxy (applyCalls cs s).2)
  ∧ outputs (proxy (applyCalls cs s).2) = outputs (proxy s).
Proof.
  revert s. induction cs as [|c cs IH]; intros s Ho; [done|].
  destruct (applyCall_outputs c s Ho) as [H1 H2]. simpl.
  destruct (applyCall c s) as [[[]|e] s1]; cbn [snd] in *; [|done].
  destruct (IH s1 H1) as [H3 H4]. split; [done|]. by rewrite H4.
Qed.

Lemma parseResult_outputs (calls : TestRunnerTestRunState → list RunStateCall)
    (s : TestRunnerTestRunState) :
  orderly (proxy s) →
  orderly (proxy (parseResult calls s).2)
  ∧ outputs (proxy (parseResult calls s).2) = outputs (proxy s).
Proof.
  intros Ho. unfold parseResult.
  pose proof (applyCalls_outputs (calls s) s Ho) as H.
  by destruct (applyCalls (calls s) s) as [[[]|e] s1].
Qed.

Lemma outputStream_streams : streams outputStream.
Proof.
  intros text s Ho. unfold outputStream, appendOutput, onProxy. cbn [fst snd proxy].
  by apply appendOutput_outputs.
Qed.

Lemma parsedOutputStream_streams : streams (parsedOutputStream env).
Proof.
  intros text s Ho. unfold parsedOutputStream, appendOutput, onProxy.
  cbv [mbind M_bind]. cbn [fst snd].
  destruct (appendOutput_outputs (crlf text) (proxy s) Ho) as [H1 H2].
  set (s1 := {| proxy := TestRunProxy.appendOutput (crlf text) (proxy s);
                currentTestItem := currentTestItem s;
                lastTestItem := lastTestItem s; startTimes := startTimes s;
                issues := issues s |}).
  destruct (parseResult_outputs (xcTestParse env text) s1 H1) as [H3 H4].
  split; [done|]. by rewrite H4.
Qed.

(** The callback of the XCTest stream reaches its [next()] exactly when the
    parser returns. *)
Lemma parsedOutputStream_outcome (text : string) (s : TestRunnerTestRunState) :
  (parsedOutputStream env text s).1
  = match (applyCalls (xcTestParse env text (appendOutput (crlf text) s).2)
             (appendOutput (crlf text) s).2).1 with
    | Returned _ => Resolved ()
    | Thrown e => Rejected e
    end.
Proof.
  unfold parsedOutputStream, parseResult, appendOutput, onProxy.
  cbv [mbind M_bind]. cbn [fst snd].
  by destruct (applyCalls _ _) as [[[]|e] s1].
Qed.

Lemma pipeData_silent (chunk : string) (s : TestRunnerTestRunState) :
  orderly (proxy s) →
  (pipeData env chunk s).1 = Resolved ()
  ∧ orderly (proxy (pipeData env chunk s).2)
  ∧ outputs (proxy (pipeData env chunk s).2) = outputs (proxy s).
Proof.
  intros Ho. unfold pipeData, onProxy, tryCatch. cbv [mbind M_bind]. cbn [fst snd].
  destruct (testRunStarted_outputs (addedTestItems env) (proxy s) Ho) as [H1 H2].
  set (s1 := {| proxy := TestRunProxy.testRunStarted (addedTestItems env) (proxy s);
                currentTestItem := currentTestItem s;
                lastTestItem := lastTestItem s; startTimes := startTimes s;
                issues := issues s |}).
  destruct (parseResult_outputs (swiftTestingParse env chunk) s1 H1) as [H3 H4].
  unfold parseResult in *.
  destruct (applyCalls (swiftTestingParse env chunk s1) s1) as [[[]|e] s2];
    cbv [mret M_ret]; cbn [fst snd] in *; (split; [done|]); (split; [done|]);
    by rewrite H4.
Qed.

(** A stream that is busy shows nothing of what is written to it. *)
Lemma busy_stream_outputs (write : string → M unit) (events : list SessionEvent)
    (s : TestRunnerTestRunState) :
  orderly (proxy s) →
  orderly (proxy (runStandardSessionFrom env write true events s).2)
  ∧ outputs (proxy (runStandardSessionFrom env write true events s).2)
    = outputs (proxy s).
Proof.
  revert s. induction events as [|[str|msg|code|chunk] events IH]; intros s Ho; cbn.
  - done.
  - by apply IH.
  - done.
  - by destruct (falsy code).
  - destruct (pipeData_silent chunk s Ho) as (H1 & H2 & H3).
    cbv [mbind M_bind].
    destruct (pipeData env chunk s) as [o s1]. cbn [fst snd] in *. subst o.
    destruct (IH s1 H2) as [H4 H5]. split; [done|]. by rewrite H5.
Qed.

(** The chunks that are shown are the first ones written. *)
Lemma runStandardSessionFrom_outputs (write : string → M unit) (writing : bool)
    (events : list SessionEvent) (s : TestRunnerTestRunState) :
  streams write → orderly (proxy s) →
  ∃ n, orderly (proxy (runStandardSessionFrom env write writing events s).2)
       ∧ outputs (proxy (runStandardSessionFrom env write writing events s).2)
         = outputs (proxy s) ++ (shown <$> take n (written events)).
Proof.
  intros Hw. revert writing s.
  induction events as [|[str|msg|code|chunk] events IH]; intros writing s Ho; cbn.
  - exists 0%nat. by rewrite app_nil_r.
  - destruct writing.
    + destruct (busy_stream_outputs write events s Ho) as [H1 H2].
      exists 0%nat. cbn. by rewrite app_nil_r.
    + destruct (Hw (removeFirst "[1/1] Planning build" str) s Ho) as (H2 & H3).
      destruct (write (removeFirst "[1/1] Planning build" str) s) as [[[]|e|] s1];
        cbn [fst snd] in *.
      * destruct (IH false s1 H2) as (n & H4 & H5). exists (S n).
        split; [done|]. cbn. by rewrite H5, H3, <- app_assoc.
      * destruct (busy_stream_outputs write events s1 H2) as [H4 H5].
        exists 1%nat. split; [done|]. cbn. rewrite take_0. cbn. by rewrite H5, H3.
      * destruct (busy_stream_outputs write events s1 H2) as [H4 H5].
        exists 1%nat. split; [done|]. cbn. rewrite take_0. cbn. by rewrite H5, H3.
  - exists 0%nat. by rewrite app_nil_r.
  - exists 0%nat. destruct (falsy code); cbn; by rewrite app_nil_r.
  - destruct (pipeData_silent chunk s Ho) as (H1 & H2 & H3).
    cbv [mbind M_bind].
    destruct (pipeData env chunk s) as [o s1]. cbn [fst snd] in *. subst o.
    destruct (IH writing s1 H2) as (n & H4 & H5). exists n.
    split; [done|]. by rewrite H5, H3.
Qed.

(** All of them are shown by a stream whose callback always reaches its
    [next()]. *)
Lemma runStandardSession_outputs (write : string → M unit)
    (events : list SessionEvent) (s : TestRunnerTestRunState) :
  streams write → (∀ text s', (write text s').1 = Resolved ()) → orderly (proxy s) →
  orderly (proxy (runStandardSession env write events s).2)
  ∧ outputs (proxy (runStandardSession env write events s).2)
    = outputs (proxy s) ++ (shown <$> written events).
Proof.
  intros Hw Hnext. unfold runStandardSession. revert s.
  induction events as [|[str|msg|code|chunk] events IH]; intros s Ho; cbn.
  - by rewrite app_nil_r.
  - destruct (Hw (removeFirst "[1/1] Planning build" str) s Ho) as (H2 & H3).
    pose proof (Hnext (removeFirst "[1/1] Planning build" str) s) as H1.
    destruct (write (removeFirst "[1/1] Planning build" str) s) as [o s1].
    cbn [fst snd] in *. subst o.
    destruct (IH s1 H2) as [H4 H5]. split; [done|].
    by rewrite H5, H3, <- app_assoc.
  - by rewrite app_nil_r.
  - destruct (falsy code); cbn; by rewrite app_nil_r.
  - destruct (pipeData_silent chunk s Ho) as (H1 & H2 & H3).
    cbv [mbind M_bind].
    destruct (pipeData env chunk s) as [o s1]. cbn [fst snd] in *. subst o.
    destruct (IH s1 H2) as [H4 H5]. split; [done|]. by rewrite H5, H3.
Qed.

Lemma written_until_exit (pre : list SessionEvent) (ev : SessionEvent)
    (rest : list SessionEvent) :
  forallb isOutput pre = true → isOutput ev = false →
  written (pre ++ ev :: rest) = written pre.
Proof.
  intros Hpre Hev. induction pre as [|[str|msg|c|chunk] pre IH]; cbn in *.
  - by destruct ev.
  - by rewrite IH.
  - done.
  - done.
  - by rewrite IH.
Qed.

(** X17. The output of a test process reaches the run in order, and whole
    unless the parser throws. With the stream of the swift-testing session,
    every chunk the process writes before it closes or fails is handed to
    the proxy once, in the order written, with the first
    ["[1/1] Planning build"] of the chunk removed and every line feed turned
    into carriage return and line feed; what comes from the pipe in between
    adds no output. With the stream of the XCTest session the same holds for
    the first chunks only: the chunk during whose parsing a call on the run
    state throws is the last one shown, since the stream then never gets
    its [next()] and buffers the chunks that follow. When no call of the
    parser throws, all chunks are shown. This holds whether the run has
    started (the output goes to the run) or not (it is queued for it). A
    standard session of the first stream whose process exits with code 0 or
    undefined shows the line that announces the run and then this output,
    and nothing else. *)
Theorem process_output_reaches_the_run (requested : list TestItem)
    (events : list SessionEvent) (s : TestRunnerTestRunState) :
  orderly (proxy s) →
  outputs (proxy (runStandardSession env outputStream events s).2)
  = outputs (proxy s) ++ (shown <$> written events)
  ∧ (∃ n, outputs (proxy (runStandardSession env (parsedOutputStream env) events s).2)
          = outputs (proxy s) ++ (shown <$> take n (written events)))
  ∧ (parserNeverThrows env →
     outputs (proxy (runStandardSession env (parsedOutputStream env) events s).2)
     = outputs (proxy s) ++ (shown <$> written events))
  ∧ (∀ str rest e,
       (parsedOutputStream env (removeFirst "[1/1] Planning build" str) s).1
       = Rejected e →
       outputs (proxy (runStandardSession env (parsedOutputStream env)
                         (DidWrite str :: rest) s).2)
       = outputs (proxy s) ++ [shown str])
  ∧ (∀ pre code rest,
       events = pre ++ DidClose code :: rest → forallb isOutput pre = true →
       falsy code = true →
       let r := launchTests env requested standard outputStream events s in
       r.1 = Resolved ()
       ∧ outputs (proxy r.2)
         = outputs (proxy s) ++ [startedLine env] ++ (shown <$> written pre)).
Proof.
  intros Ho. split; [|split; [|split; [|split]]].
  - apply runStandardSession_outputs; [apply outputStream_streams|done|done].
  - destruct (runStandardSessionFrom_outputs (parsedOutputStream env) false events s
                parsedOutputStream_streams Ho) as (n & _ & Hn).
    by exists n.
  - intros Hparser.
    apply runStandardSession_outputs; [apply parsedOutputStream_streams| |done].
    intros text s'. rewrite parsedOutputStream_outcome. by rewrite Hparser.
  - intros str rest e Hthrows. unfold runStandardSession. cbn.
    destruct (parsedOutputStream_streams (removeFirst "[1/1] Planning build" str) s Ho)
      as [H1 H2].
    destruct (parsedOutputStream env (removeFirst "[1/1] Planning build" str) s)
      as [o s1]. cbn [fst snd] in *. subst o.
    destruct (busy_stream_outputs (parsedOutputStream env) rest s1 H1) as [_ H3].
    by rewrite H3, H2.
  - intros pre code rest -> Hpre Hcode r.
    destruct (appendOutput_outputs (startedLine env) (proxy s) Ho) as [Ho1 Hout1].
    set (s1 := (appendOutput (startedLine env) s).2).
    destruct (runStandardSession_exit env outputStream pre rest s1 Hpre) as (H & _ & _).
    specialize (H code Hcode).
    assert (launchTests env requested standard outputStream
              (pre ++ DidClose code :: rest) s
            = (Resolved (), whileRunning env outputStream pre s1)) as Heq.
    { unfold launchTests. cbv [mbind M_bind tryCatch]. cbn [fst snd appendOutput onProxy].
      fold s1. unfold s1, appendOutput, onProxy in H. cbn [snd] in H.
      by rewrite H. }
    unfold r. rewrite Heq. cbn [fst snd]. split; [done|].
    destruct (runStandardSession_outputs outputStream (pre ++ DidClose code :: rest) s1
                outputStream_streams) as [_ Hout]; [done|exact Ho1|].
    rewrite H in Hout. cbn [snd] in Hout. rewrite Hout.
    unfold s1. cbn [appendOutput onProxy snd proxy]. rewrite Hout1, <- app_assoc.
    by rewrite (written_until_exit pre (DidClose code) rest Hpre eq_refl).
Qed.

End MoreRunProperties.

(** ** The coverage renderer: combineRanges *)

Section CombineRangesProperties.

Import TestCoverageRenderer.

Lemma newRange_joined (a b : Range) :
  wellFormed a → wellFormed b → line (range_start b) = line (range_end a) + 1 →
  newRange {| line := line (range_start a); character := 0 |}
           {| line := line (range_end b); character := 0 |}
  = {| range_start := {| line := line (range_start a); character := 0 |};
       range_end := {| line := line (range_end b); character := 0 |} |}.
Proof.
  intros [Ha0 Ha] [Hb0 Hb] Hadj. unfold newRange, isBefore. cbn.
  rewrite bool_decide_eq_false_2; [done|]. lia.
Qed.

Lemma coversLine_app (l1 l2 : list Range) (n : Z) :
  coversLine (l1 ++ l2) n ↔ coversLine l1 n ∨ coversLine l2 n.
Proof.
  unfold coversLine. split.
  - intros (r & Hr & Hn). apply elem_of_app in Hr as [Hr|Hr]; [left|right]; eauto.
  - intros [(r & Hr & Hn)|(r & Hr & Hn)]; exists r; (split; [|done]);
      apply elem_of_app; auto.
Qed.

Lemma coversLine_cons (r : Range) (l : list Range) (n : Z) :
  coversLine (r :: l) n
  ↔ line (range_start r) ≤ n ≤ line (range_end r) ∨ coversLine l n.
Proof.
  unfold coversLine. split.
  - intros (r' & Hr & Hn). apply elem_of_cons in Hr as [->|Hr]; [by left|right; eauto].
  - intros [Hn|(r' & Hr & Hn)].
    + exists r. split; [apply list_elem_of_here|done].
    + exists r'. split; [by apply list_elem_of_further|done].
Qed.

Lemma coversLine_nil (n : Z) : ¬ coversLine [] n.
Proof. intros (r & Hr & _). by apply elem_of_nil in Hr. Qed.

Lemma combineFrom_lines (ranges : list Range) (lastRange : Range)
    (combinedRanges : list Range) (n : Z) :
  Forall wellFormed ranges → wellFormed lastRange →
  coversLine (combineFrom ranges lastRange combinedRanges) n
  ↔ coversLine (combinedRanges ++ lastRange :: ranges) n.
Proof.
  intros Hall Hlast. revert lastRange combinedRanges Hlast.
  induction Hall as [|r ranges Hr Hall IH]; intros lastRange combinedRanges Hlast.
  - done.
  - cbn [combineFrom]. case_bool_decide as Hadj.
    + rewrite (newRange_joined lastRange r Hlast Hr Hadj). rewrite IH.
      * rewrite !coversLine_app, !coversLine_cons. cbn.
        destruct Hlast as [? ?], Hr as [? ?]. split.
        -- intros [?|[?|?]]; auto.
           destruct (decide (n ≤ line (range_end lastRange))); [right; left; lia|].
           right. right. left. lia.
        -- intros [?|[?|[?|?]]]; auto; right; left; lia.
      * destruct Hlast as [? ?], Hr as [? ?]. split; cbn; lia.
    + rewrite IH by done. rewrite !coversLine_app, !coversLine_cons.
      pose proof (coversLine_nil n). tauto.
Qed.

Lemma combineFrom_wellFormed (ranges : list Range) (lastRange : Range)
    (combinedRanges : list Range) :
  Forall wellFormed ranges → wellFormed lastRange → Forall wellFormed combinedRanges →
  Forall wellFormed (combineFrom ranges lastRange combinedRanges).
Proof.
  intros Hall. revert lastRange combinedRanges.
  induction Hall as [|r ranges Hr Hall IH]; intros lastRange combinedRanges Hlast Hacc.
  - cbn. apply Forall_app. split; [done|]. by constructor.
  - cbn [combineFrom]. case_bool_decide as Hadj.
    + rewrite (newRange_joined lastRange r Hlast Hr Hadj). apply IH; [|done].
      destruct Hlast as [? ?], Hr as [? ?]. split; cbn; lia.
    + apply IH; [done|]. apply Forall_app. split; [done|]. by constructor.
Qed.

(** X18. [combineRanges] keeps the lines: a line lies within one of the
    combined ranges exactly when it lies within one of the given ranges, and
    the combined ranges are again ranges whose start is not after their
    end. The ranges given are [vscode.Range] objects: their lines are not
    negative and their start is not after their end. *)
Theorem combineRanges_keeps_the_lines (ranges : list Range) (n : Z) :
  Forall wellFormed ranges →
  (coversLine (combineRanges ranges) n ↔ coversLine ranges n)
  ∧ Forall wellFormed (combineRanges ranges).
Proof.
  intros Hall. unfold combineRanges. destruct ranges as [|r ranges]; [done|].
  case_bool_decide; [done|]. apply Forall_cons in Hall as [Hr Hall]. split.
  - rewrite combineFrom_lines by auto. done.
  - by apply combineFrom_wellFormed.
Qed.

Lemma apart_start (acc : list Range) (a a' : Range) :
  line (range_start a') = line (range_start a) →
  apart (acc ++ [a]) → apart (acc ++ [a']).
Proof.
  intros Hs Ha i r1 r2 H1 H2.
  assert (S i < length (acc ++ [a']))%nat as Hlt by (by apply lookup_lt_Some in H2).
  rewrite length_app in Hlt. cbn in Hlt.
  assert ((acc ++ [a]) !! i = Some r1) as H1'.
  { rewrite lookup_app_l in H1 by lia. by rewrite lookup_app_l by lia. }
  destruct (decide (S i = length acc)) as [Heq|Hne].
  - rewrite lookup_app_r in H2 by lia. rewrite Heq, Nat.sub_diag in H2.
    injection H2 as <-. rewrite Hs.
    apply (Ha i r1 a); [done|]. rewrite lookup_app_r by lia.
    by rewrite Heq, Nat.sub_diag.
  - rewrite lookup_app_l in H2 by lia.
    apply (Ha i r1 r2); [done|]. by rewrite lookup_app_l by lia.
Qed.

Lemma apart_snoc (acc : list Range) (a b : Range) :
  apart (acc ++ [a]) → line (range_start b) ≠ line (range_end a) + 1 →
  apart ((acc ++ [a]) ++ [b]).
Proof.
  intros Ha Hb i r1 r2 H1 H2.
  assert (S i < length ((acc ++ [a]) ++ [b]))%nat as Hlt
    by (by apply lookup_lt_Some in H2).
  rewrite !length_app in Hlt. cbn in Hlt.
  destruct (decide (i = length acc)) as [Heq|Hne].
  - rewrite lookup_app_l in H1 by (rewrite length_app; cbn; lia).
    rewrite lookup_app_r in H1 by lia. rewrite Heq, Nat.sub_diag in H1.
    injection H1 as <-.
    rewrite lookup_app_r in H2 by (rewrite length_app; cbn; lia).
    rewrite length_app in H2. cbn in H2.
    replace (S i - (length acc + 1))%nat with 0%nat in H2 by lia.
    by injection H2 as <-.
  - rewrite lookup_app_l in H1 by (rewrite length_app; cbn; lia).
    rewrite lookup_app_l in H2 by (rewrite length_app; cbn; lia).
    by apply (Ha i r1 r2).
Qed.

Lemma combineFrom_apart (ranges : list Range) (lastRange : Range)
    (combinedRanges : list Range) :
  Forall wellFormed ranges → wellFormed lastRange →
  apart (combinedRanges ++ [lastRange]) →
  apart (combineFrom ranges lastRange combinedRanges).
Proof.
  intros Hall. revert lastRange combinedRanges.
  induction Hall as [|r ranges Hr Hall IH]; intros lastRange combinedRanges Hlast Hacc.
  - done.
  - cbn [combineFrom]. case_bool_decide as Hadj.
    + rewrite (newRange_joined lastRange r Hlast Hr Hadj). apply IH.
      * destruct Hlast as [? ?], Hr as [? ?]. split; cbn; lia.
      * by apply (apart_start _ lastRange).
    + apply IH; [done|]. by apply apart_snoc.
Qed.

Lemma combineFrom_length (ranges : list Range) (lastRange : Range)
    (combinedRanges : list Range) :
  (length combinedRanges < length (combineFrom ranges lastRange combinedRanges)
   ≤ length combinedRanges + 1 + length ranges)%nat.
Proof.
  revert lastRange combinedRanges.
  induction ranges as [|r ranges IH]; intros lastRange combinedRanges.
  - cbn. rewrite length_app. cbn. lia.
  - cbn [combineFrom]. case_bool_decide.
    + specialize (IH (newRange {| line := line (range_start lastRange); character := 0 |}
                               {| line := line (range_end r); character := 0 |})
                     combinedRanges). cbn. lia.
    + specialize (IH r (combinedRanges ++ [lastRange])).
      rewrite length_app in IH. cbn in *. lia.
Qed.

Lemma fmap_seq_S {A} (f : nat → A) (n : nat) :
  f <$> seq 0 (S n) = f 0%nat :: ((λ i, f (S i)) <$> seq 0 n).
Proof. cbn. f_equal. by rewrite <- seq_shift, <- list_fmap_compose. Qed.

Lemma combineFrom_run (n : nat) (k first : Z) (combinedRanges : list Range) :
  0 ≤ first → first ≤ k →
  combineFrom (lineRange <$> ((λ i : nat, k + 1 + Z.of_nat i) <$> seq 0 n))
              {| range_start := {| line := first; character := 0 |};
                 range_end := {| line := k; character := 0 |} |}
              combinedRanges
  = combinedRanges
    ++ [{| range_start := {| line := first; character := 0 |};
           range_end := {| line := k + Z.of_nat n; character := 0 |} |}].
Proof.
  revert k. induction n as [|n IH]; intros k H0 Hk.
  - cbn. by rewrite Z.add_0_r.
  - rewrite fmap_seq_S. cbn [fmap list_fmap combineFrom].
    cbn [lineRange range_start range_end line].
    rewrite bool_decide_eq_true_2 by lia.
    unfold newRange, isBefore. cbn [line character range_start range_end].
    rewrite bool_decide_eq_false_2 by lia.
    assert (((λ i : nat, k + 1 + Z.of_nat (S i)) <$> seq 0 n)
            = ((λ i : nat, k + 1 + 1 + Z.of_nat i) <$> seq 0 n)) as Hl.
    { apply list_fmap_ext. intros i x _. lia. }
    change (list_fmap nat Z (λ i : nat, k + 1 + Z.of_nat (S i)) (seq 0 n))
      with ((λ i : nat, k + 1 + Z.of_nat (S i)) <$> seq 0 n).
    rewrite Hl.
    change (list_fmap Z Range lineRange) with (fmap (M:=list) lineRange).
    replace (k + 1 + Z.of_nat 0) with (k + 1) by lia.
    rewrite (IH (k + 1) H0 ltac:(lia)). do 4 f_equal. lia.
Qed.

(** X19. [combineRanges] joins neighbours and nothing else. Fewer than two
    ranges are returned as they are. In the result no range starts on the
    line after the end of the range before it; there are at most as many
    ranges as were given, and at least one when any was given. The whole
    lines [k], [k + 1], ..., [k + n], as [render] passes them for lines that
    are next to each other, become the one range from line [k] to line
    [k + n]. *)
Theorem combineRanges_joins_neighbours (ranges : list Range) :
  Forall wellFormed ranges →
  apart (combineRanges ranges)
  ∧ (length (combineRanges ranges) ≤ length ranges)%nat
  ∧ (combineRanges ranges = [] ↔ ranges = [])
  ∧ ((length ranges < 2)%nat → combineRanges ranges = ranges)
  ∧ (∀ (k : Z) (n : nat), 0 ≤ k →
       combineRanges (lineRange <$> ((λ i : nat, k + Z.of_nat i) <$> seq 0 (S n)))
       = [{| range_start := {| line := k; character := 0 |};
             range_end := {| line := k + Z.of_nat n; character := 0 |} |}]).
Proof.
  intros Hall. split; [|split; [|split; [|split]]].
  - unfold combineRanges. destruct ranges as [|r ranges].
    { intros i r1 r2 H. done. }
    case_bool_decide as Hlen.
    + destruct ranges; [|cbn in Hlen; lia]. intros [|i] r1 r2 H1 H2; done.
    + apply Forall_cons in Hall as [Hr Hall]. apply combineFrom_apart; [done|done|].
      intros [|i] r1 r2 H1 H2; done.
  - unfold combineRanges. destruct ranges as [|r ranges]; [done|].
    case_bool_decide; [done|].
    pose proof (combineFrom_length ranges r []). cbn in *. lia.
  - unfold combineRanges. destruct ranges as [|r ranges]; [done|].
    case_bool_decide; [done|]. split; [|done]. intros Hnil.
    pose proof (combineFrom_length ranges r []) as Hl. rewrite Hnil in Hl.
    cbn in Hl. lia.
  - intros Hlen. unfold combineRanges. destruct ranges as [|r ranges]; [done|].
    by rewrite bool_decide_eq_true_2.
  - intros k n Hk. unfold combineRanges. rewrite fmap_seq_S.
    cbn [fmap list_fmap]. replace (k + Z.of_nat 0) with k by lia.
    destruct n as [|n]; [cbn; by rewrite Z.add_0_r|].
    rewrite bool_decide_eq_false_2 by (cbn; lia).
    assert (((λ i : nat, k + Z.of_nat (S i)) <$> seq 0 (S n))
            = ((λ i : nat, k + 1 + Z.of_nat i) <$> seq 0 (S n))) as Hl.
    { apply list_fmap_ext. intros i x _. lia. }
    change (list_fmap nat Z (λ i : nat, k + Z.of_nat (S i)) (seq 0 (S n)))
      with ((λ i : nat, k + Z.of_nat (S i)) <$> seq 0 (S n)).
    rewrite Hl.
    change (list_fmap Z Range lineRange) with (fmap (M:=list) lineRange).
    apply (combineFrom_run (S n) k k []); lia.
Qed.

End CombineRangesProperties.

(** ** Utilities: getRepositoryName *)

Section RepositoryNameProperties.

Import Utilities.

Lemma append_nil_r (x : string) : x +:+ "" = x.
Proof. induction x as [|c x IH]; [done|]. rewrite append_cons. by f_equal. Qed.

Lemma component_noSlash (w r : string) :
  noSlash w = true → r = "" ∨ (∃ r', r = String "/" r') →
  component (w +:+ r) = (w, r).
Proof.
  intros Hw Hr. induction w as [|c w IH].
  - rewrite append_nil_l. destruct Hr as [->|[r' ->]]; done.
  - rewrite append_cons. cbn in Hw. apply andb_true_iff in Hw as [Hc Hw].
    apply negb_true_iff in Hc. cbn [component]. rewrite Hc, (IH Hw). done.
Qed.

Lemma component_group_noSlash (s : string) : noSlash (component s).1 = true.
Proof.
  induction s as [|c s IH]; [done|]. cbn [component].
  destruct (Ascii.eqb c "/") eqn:E; [done|]. cbn. by rewrite E, IH.
Qed.

Lemma component_rest_long (b tail : string) :
  tail ≠ "" →
  (component (b +:+ "/" +:+ tail)).2 ≠ "" ∧ (component (b +:+ "/" +:+ tail)).2 ≠ "/".
Proof.
  intros Ht. induction b as [|c b IH].
  - rewrite append_nil_l. cbn. split; [done|]. intros [= H]. done.
  - rewrite append_cons. cbn [component]. destruct (Ascii.eqb c "/") eqn:E; [|done].
    cbn [snd]. split; [done|]. intros [= _ H]. destruct b; done.
Qed.

Lemma matchHere_inside (b tail : string) :
  tail ≠ "" → matchHere (b +:+ "/" +:+ tail) = None.
Proof.
  intros Ht. unfold matchHere. destruct (component_rest_long b tail Ht) as [H1 H2].
  apply String.eqb_neq in H1, H2. by rewrite H1, H2.
Qed.

Lemma lastPathComponent_unfold (url : string) :
  lastPathComponent url
  = match matchHere url with
    | Some group => group
    | None => match url with
              | EmptyString => EmptyString
              | String _ rest => lastPathComponent rest
              end
    end.
Proof. by destruct url. Qed.

Lemma lastPathComponent_after_slash (base tail : string) :
  tail ≠ "" → lastPathComponent (base +:+ "/" +:+ tail) = lastPathComponent tail.
Proof.
  intros Ht. induction base as [|c b IH].
  - rewrite lastPathComponent_unfold, (matchHere_inside "" tail Ht). done.
  - rewrite lastPathComponent_unfold, (matchHere_inside (String c b) tail Ht).
    rewrite append_cons. exact IH.
Qed.

Lemma lastPathComponent_last (w : string) :
  noSlash w = true →
  lastPathComponent w = w ∧ lastPathComponent (w +:+ "/") = w.
Proof.
  intros Hw. split.
  - pose proof (component_noSlash w "" Hw (or_introl eq_refl)) as H.
    rewrite append_nil_r in H.
    rewrite lastPathComponent_unfold. unfold matchHere. by rewrite H.
  - rewrite lastPathComponent_unfold. unfold matchHere.
    rewrite component_noSlash; eauto.
Qed.

Lemma dropTrailingGit_app (base : string) :
  dropTrailingGit (base +:+ ".git") = base.
Proof.
  induction base as [|c base IH]; [done|].
  rewrite append_cons. cbn [dropTrailingGit].
  destruct (String.eqb (String c (base +:+ ".git")) ".git") eqn:E.
  - apply String.eqb_eq in E. injection E as _ E.
    destruct base as [|? [|? [|? [|? ?]]]]; discriminate.
  - by rewrite IH.
Qed.

Lemma noSlash_app (a b : string) : noSlash (a +:+ b) = noSlash a && noSlash b.
Proof.
  induction a as [|c a IH]; [done|]. rewrite append_cons. cbn. rewrite IH.
  by rewrite andb_assoc.
Qed.

Lemma dropTrailingGit_noSlash (s : string) :
  noSlash s = true → noSlash (dropTrailingGit s) = true.
Proof.
  induction s as [|c s IH]; [done|]. cbn [dropTrailingGit].
  destruct (String.eqb (String c s) ".git"); [done|]. cbn.
  intros H. apply andb_true_iff in H as [-> H]. by rewrite IH.
Qed.

Lemma lastPathComponent_noSlash (url : string) :
  noSlash (lastPathComponent url) = true.
Proof.
  induction url as [|c url IH]; rewrite lastPathComponent_unfold; unfold matchHere.
  - done.
  - destruct (_ || _); [apply component_group_noSlash|exact IH].
Qed.

Lemma getRepositoryName_git (w : string) :
  lastPathComponent w = w → ∀ name, w = name +:+ ".git" →
  getRepositoryName w = name.
Proof.
  intros Hw name ->. unfold getRepositoryName.
  by rewrite Hw, endsWith_app, dropTrailingGit_app.
Qed.

(** X20. [getRepositoryName] gives the base name of a repository: for a
    url that ends in a component [name.git], where [name] has no slash,
    whether or not a slash follows, it is [name]; only one [.git] is
    removed. For a last component that is not empty and does not end in
    [.git] it is that component. The result never has a slash. *)
Theorem getRepositoryName_is_the_base_name (base name : string) :
  noSlash name = true →
  getRepositoryName (base +:+ "/" +:+ name +:+ ".git") = name
  ∧ getRepositoryName (base +:+ "/" +:+ name +:+ ".git/") = name
  ∧ getRepositoryName (name +:+ ".git") = name
  ∧ (name ≠ "" → endsWith name ".git" = false →
     getRepositoryName (base +:+ "/" +:+ name) = name
     ∧ getRepositoryName (base +:+ "/" +:+ name +:+ "/") = name)
  ∧ (∀ url, noSlash (getRepositoryName url) = true).
Proof.
  intros Hname.
  assert (noSlash (name +:+ ".git") = true) as Hgit by (by rewrite noSlash_app, Hname).
  assert (∀ x : string, name +:+ x = "" → x = "") as Hnil.
  { intros x. destruct name; [done|]. by rewrite append_cons. }
  destruct (lastPathComponent_last _ Hgit) as [H1 H2].
  destruct (lastPathComponent_last _ Hname) as [H3 H4].
  split; [|split; [|split; [|split]]].
  - unfold getRepositoryName. rewrite lastPathComponent_after_slash.
    + by rewrite H1, endsWith_app, dropTrailingGit_app.
    + intros H. by apply Hnil in H.
  - unfold getRepositoryName. rewrite lastPathComponent_after_slash.
    + replace (name +:+ ".git/") with ((name +:+ ".git") +:+ "/")
        by (by rewrite append_assoc).
      by rewrite H2, endsWith_app, dropTrailingGit_app.
    + intros H. by apply Hnil in H.
  - unfold getRepositoryName. by rewrite H1, endsWith_app, dropTrailingGit_app.
  - intros Hne Hends. unfold getRepositoryName. split.
    + rewrite lastPathComponent_after_slash by done. by rewrite H3, Hends.
    + rewrite lastPathComponent_after_slash.
      * by rewrite H4, Hends.
      * intros H. by apply Hnil in H.
  - intros url. unfold getRepositoryName.
    destruct (endsWith _ _); [apply dropTrailingGit_noSlash|];
      apply lastPathComponent_noSlash.
Qed.

End RepositoryNameProperties.

(** ** SwiftPackage: loading the description *)

Section PackageLoadingProperties.

Import PackageState.

Variable jsonParse : string → PackageContents + string.

Lemma scanLines_false (s : string) :
  scanLines false s
  = match afterFirstNewline s with
    | Some s' => scanLines true s'
    | None => None
    end.
Proof.
  induction s as [|c s IH]; [done|]. cbn.
  destruct (Ascii.eqb c "010"); [done|exact IH].
Qed.

Lemma prefix_brace (s : string) :
  String.prefix "{" s = match s with
                        | String c _ => Ascii.eqb c "{"
                        | EmptyString => false
                        end.
Proof.
  destruct s as [|c s]; [done|].
  change (String.prefix "{" (String c s))
    with (match Ascii.ascii_dec "{" c with
          | left _ => String.prefix "" s
          | right _ => false
          end).
  destruct (Ascii.ascii_dec "{" c) as [<-|Hne].
  - by destruct s.
  - symmetry. apply Ascii.eqb_neq. congruence.
Qed.

Lemma firstBraceLine_brace (s : string) :
  String.prefix "{" s = true → firstBraceLine s = Some s.
Proof.
  rewrite prefix_brace. destruct s as [|c s]; [done|]. intros H.
  unfold firstBraceLine. cbn. by rewrite H.
Qed.

Lemma firstBraceLine_other (s : string) :
  String.prefix "{" s = false →
  firstBraceLine s
  = match afterFirstNewline s with
    | Some s' => firstBraceLine s'
    | None => None
    end.
Proof.
  rewrite prefix_brace. intros Hs. rewrite <- scanLines_false.
  destruct s as [|c s]; [done|]. unfold firstBraceLine. cbn. by rewrite Hs.
Qed.

Lemma afterFirstNewline_shorter (s s' : string) :
  afterFirstNewline s = Some s' → (String.length s' < String.length s)%nat.
Proof.
  revert s'. induction s as [|c s IH]; intros s'; [done|]. cbn.
  destruct (Ascii.eqb c "010").
  - intros [= ->]. lia.
  - intros H. specialize (IH _ H). lia.
Qed.

Lemma skipToBrace_found (fuel : nat) (s text : string) :
  (String.length s ≤ fuel)%nat → firstBraceLine s = Some text →
  skipToBrace fuel s = Some text.
Proof.
  revert s. induction fuel as [|fuel IH]; intros s Hlen Hs.
  - destruct s; [done|]. cbn in Hlen. lia.
  - cbn [skipToBrace]. destruct (String.prefix "{" s) eqn:E.
    + by rewrite (firstBraceLine_brace s E) in Hs.
    + rewrite (firstBraceLine_other s E) in Hs. unfold dropLine.
      destruct (afterFirstNewline s) as [s'|] eqn:En; [|done]. cbn.
      apply IH; [|done]. apply afterFirstNewline_shorter in En. lia.
Qed.

Lemma skipToBrace_never (fuel : nat) (s : string) :
  firstBraceLine s = None → skipToBrace fuel s = None.
Proof.
  revert s. induction fuel as [|fuel IH]; intros s Hs.
  - cbn. destruct (String.prefix "{" s) eqn:E; [|done].
    by rewrite (firstBraceLine_brace s E) in Hs.
  - cbn [skipToBrace]. destruct (String.prefix "{" s) eqn:E.
    + by rewrite (firstBraceLine_brace s E) in Hs.
    + apply IH. unfold dropLine. pose proof Hs as Hs'.
      rewrite (firstBraceLine_other s E) in Hs'.
      destruct (afterFirstNewline s) as [s'|] eqn:En; [exact Hs'|exact Hs].
Qed.

(** X21. [loadPackage] reads the description from the first line of the
    output of [swift package describe] that starts with a brace: the lines
    before it are dropped, and the text from that line on is parsed; a text
    that does not parse gives an [Error] state. When no line of the output
    starts with a brace (an empty output, for one) the loop that drops the
    lines does not end: [loadPackage] never returns. *)
Theorem loadPackage_reads_from_the_first_brace (stdout : string) :
  (∀ text, firstBraceLine stdout = Some text →
     ∀ fuel, (String.length stdout ≤ fuel)%nat →
       loadPackage jsonParse fuel (ExecOk stdout)
       = Some match jsonParse text with
              | inl contents => Contents contents
              | inr syntaxError => LoadError syntaxError
              end)
  ∧ (firstBraceLine stdout = None →
     ∀ fuel, loadPackage jsonParse fuel (ExecOk stdout) = None)
  ∧ (∀ fuel, loadPackage jsonParse fuel (ExecOk "") = None)
  ∧ (∀ warning rest fuel,
       String.prefix "{" warning = false →
       afterFirstNewline warning = None →
       loadPackage jsonParse (S fuel)
         (ExecOk (warning +:+ String "010" (String "{" rest)))
       = loadPackage jsonParse fuel (ExecOk (String "{" rest))).
Proof.
  split; [|split; [|split]].
  - intros text Hs fuel Hfuel. cbn. by rewrite (skipToBrace_found fuel stdout text).
  - intros Hs fuel. cbn. by rewrite skipToBrace_never.
  - intros fuel. cbn. by rewrite skipToBrace_never.
  - intros warning rest fuel Hw Hn. cbn [loadPackage skipToBrace].
    assert (String.prefix "{" (warning +:+ String "010" (String "{" rest)) = false) as ->.
    { rewrite prefix_brace in *. destruct warning as [|c w]; [done|].
      by rewrite append_cons. }
    assert (afterFirstNewline (warning +:+ String "010" (String "{" rest))
            = Some (String "{" rest)) as Hdrop.
    { clear Hw. induction warning as [|c w IH]; [done|].
      rewrite append_cons. cbn in *. destruct (Ascii.eqb c "010"); [done|].
      by apply IH. }
    unfold dropLine. by rewrite Hdrop.
Qed.

(** X22. What is left of a package whose description could not be had.
    [loadPackage] does not throw: when [execSwift] fails, the state is
    [undefined] if the error output starts with ["error: root manifest"] or
    ["error: Could not find Package.swift"], and an [Error] with the
    description of the failure otherwise. In both states the package has no
    products, dependencies or targets, and [getTargets] returns the empty
    list for every type. A package that failed to load is not valid, and
    its name is ["Error"], the name of the error object. For a package that
    was not found the name is empty, and [isValid] throws a [TypeError]
    instead of returning false. *)
Theorem package_without_description (fuel : nat) (failure : ExecFailure) :
  ∃ state, loadPackage jsonParse fuel (ExecFailed failure) = Some state
    ∧ (state = NotFound
       ↔ ∃ message, stderr failure = Some message
                    ∧ (String.prefix "error: root manifest" message = true
                       ∨ String.prefix "error: Could not find Package.swift" message
                         = true))
    ∧ (state ≠ NotFound → state = LoadError (description failure))
    ∧ products state = [] ∧ dependencies state = [] ∧ targets state = []
    ∧ (∀ ty, getTargets state ty = [])
    ∧ executableProducts state = [] ∧ libraryProducts state = []
    ∧ isValid state ≠ Returned true
    ∧ (state = NotFound →
       isValid state = Thrown (LSPTestDiscovery.cannotRead "products")
       ∧ foundPackage state = false ∧ name state = "" ∧ error state = None)
    ∧ (state ≠ NotFound →
       isValid state = Returned false ∧ foundPackage state = true
       ∧ name state = "Error" ∧ error state = Some (description failure)).
Proof.
  cbn [loadPackage]. eexists. split; [reflexivity|].
  destruct (stderr failure) as [message|].
  - destruct (String.prefix "error: root manifest" message) eqn:E1; cbn.
    + repeat split; try done. intros _. exists message. auto.
    + destruct (String.prefix "error: Could not find Package.swift" message) eqn:E2; cbn.
      * repeat split; try done. intros _. exists message. auto.
      * repeat split; try done. intros (m & [= <-] & [H|H]); congruence.
  - repeat split; try done. intros (m & H & _). done.
Qed.

End PackageLoadingProperties.

(** ** Symbol-based discovery: getTests *)

Section GetTestsProperties.

Import DocumentSymbolDiscovery.

Variable isTestName : string → bool.

Lemma firstNames_snoc (seen l : list string) (x : string) :
  firstNames seen (l ++ [x])
  = firstNames seen l ++ (if bool_decide (x ∈ seen ++ l) then [] else [x]).
Proof.
  revert seen. induction l as [|n l IH]; intros seen; cbn.
  - rewrite app_nil_r. by destruct (bool_decide (x ∈ seen)).
  - case_bool_decide as Hn.
    + rewrite IH. f_equal.
      rewrite (bool_decide_ext (x ∈ seen ++ l) (x ∈ seen ++ n :: l)); [done|].
      rewrite !elem_of_app, elem_of_cons. split; [tauto|].
      intros [?|[->|?]]; auto.
    + cbn. rewrite IH. do 2 f_equal.
      rewrite (bool_decide_ext (x ∈ (n :: seen) ++ l) (x ∈ seen ++ n :: l)); [done|].
      rewrite !elem_of_app, !elem_of_cons. tauto.
Qed.

Lemma firstNames_elem (seen l : list string) (x : string) :
  x ∈ firstNames seen l ↔ x ∈ l ∧ x ∉ seen.
Proof.
  revert seen. induction l as [|n l IH]; intros seen; cbn.
  - rewrite !elem_of_nil. tauto.
  - case_bool_decide as Hn.
    + rewrite IH, elem_of_cons. split; [tauto|]. intros [[->|?] ?]; tauto.
    + rewrite elem_of_cons, IH, !elem_of_cons. split.
      * intros [->|[? ?]]; [tauto|]. split; [tauto|]. tauto.
      * intros [[->|?] ?]; [tauto|].
        destruct (decide (x = n)); [tauto|]. right. tauto.
Qed.

Lemma firstNames_NoDup (seen l : list string) : NoDup (firstNames seen l).
Proof.
  revert seen. induction l as [|n l IH]; intros seen; cbn; [constructor|].
  case_bool_decide; [apply IH|]. constructor; [|apply IH].
  rewrite firstNames_elem, elem_of_cons. tauto.
Qed.

Lemma classesNamed_snoc (cs : list TestClass) (x : TestClass) (n : string) :
  classesNamed (cs ++ [x]) n
  = classesNamed cs n ++ (if String.eqb (class_name x) n then [x] else []).
Proof. unfold classesNamed. rewrite List.filter_app. cbn. by destruct (String.eqb _ _). Qed.

Lemma classesNamed_none (cs : list TestClass) (n : string) :
  n ∉ List.map class_name cs → classesNamed cs n = [].
Proof.
  unfold classesNamed. induction cs as [|c cs IH]; [done|]. cbn. intros Hn.
  rewrite not_elem_of_cons in Hn. destruct Hn as [Hne Hn].
  assert (String.eqb (class_name c) n = false) as -> by (apply String.eqb_neq; congruence).
  by apply IH.
Qed.

Lemma combined_other (cs : list TestClass) (x : TestClass) (n : string) :
  class_name x ≠ n → combined (cs ++ [x]) n = combined cs n.
Proof.
  intros Hne. unfold combined. rewrite classesNamed_snoc.
  apply String.eqb_neq in Hne. by rewrite Hne, app_nil_r.
Qed.

Lemma combined_same (cs : list TestClass) (x : TestClass) :
  combined (cs ++ [x]) (class_name x)
  = let item := combined cs (class_name x) in
    {| class_name := class_name item;
       class_location := match class_location item with
                         | Some location => Some location
                         | None => class_location x
                         end;
       class_extension := class_extension item || class_extension x;
       class_functions := class_functions item ++ class_functions x |}.
Proof.
  unfold combined. rewrite classesNamed_snoc, String.eqb_refl. cbn.
  rewrite omap_app, existsb_app, List.map_app, concat_app. cbn.
  rewrite orb_false_r, app_nil_r. f_equal.
  destruct (omap class_location (classesNamed cs (class_name x))); cbn; [|done].
  by destruct (class_location x).
Qed.

Lemma findIndexFrom_map {A B} (f : B → bool) (g : A → B) (l : list A) (i : Z) :
  findIndexFrom f i (List.map g l) = findIndexFrom (λ a, f (g a)) i l.
Proof.
  revert i. induction l as [|a l IH]; intros i; cbn; [done|].
  destruct (f (g a)); [done|apply IH].
Qed.

Lemma alter_map_name (f : TestClass → TestClass) (g : string → TestClass)
    (ns : list string) (i : nat) (a : string) :
  NoDup ns → ns !! i = Some a →
  alter f i (List.map g ns)
  = List.map (λ n, if String.eqb n a then f (g n) else g n) ns.
Proof.
  revert i. induction ns as [|n ns IH]; intros i Hnd Hi; [done|].
  apply NoDup_cons in Hnd as [Hn Hnd]. destruct i as [|i]; cbn in *.
  - injection Hi as ->. rewrite String.eqb_refl. f_equal.
    apply List.map_ext_in. intros n' Hn'.
    destruct (String.eqb n' a) eqn:E; [|done].
    apply String.eqb_eq in E. subst. exfalso. by apply Hn, list_elem_of_In.
  - assert (n ≠ a) as Hne.
    { intros ->. apply Hn. by eapply list_elem_of_lookup_2. }
    apply String.eqb_neq in Hne. rewrite Hne. f_equal. by apply IH.
Qed.

Lemma getTests_fold (cs : list TestClass) :
  fold_left merge cs []
  = List.map (combined cs) (firstNames [] (List.map class_name cs)).
Proof.
  induction cs as [|x cs IH] using rev_ind; [done|].
  rewrite fold_left_app, IH. cbn [fold_left]. rewrite List.map_app. cbn [List.map].
  rewrite firstNames_snoc. cbn [app]. unfold merge.
  unfold findIndex. rewrite findIndexFrom_map. cbn [class_name combined].
  set (names := firstNames [] (List.map class_name cs)).
  destruct (decide (class_name x ∈ [] ++ List.map class_name cs)) as [Hin|Hin].
  - (* the name is there: the entry of that name takes the class in *)
    rewrite (bool_decide_eq_true_2 _ Hin), app_nil_r.
    assert (class_name x ∈ names) as Hnames.
    { apply firstNames_elem. split; [exact Hin|apply not_elem_of_nil]. }
    assert (∃ y, y ∈ names ∧ String.eqb y (class_name x) = true) as Hex.
    { exists (class_name x). split; [done|apply String.eqb_refl]. }
    destruct (findIndex_first (λ n, String.eqb n (class_name x)) names Hex)
      as (Hi & y & Hy & Hyx & _).
    unfold findIndex in Hi, Hy. apply String.eqb_eq in Hyx. subst y.
    rewrite bool_decide_eq_true_2 by lia.
    rewrite (alter_map_name _ _ names _ (class_name x)
               (firstNames_NoDup _ _) Hy).
    apply List.map_ext. intros n. destruct (String.eqb n (class_name x)) eqn:E.
    + apply String.eqb_eq in E. subst n. symmetry. apply combined_same.
    + apply String.eqb_neq in E. symmetry. apply combined_other. congruence.
  - (* a new name: the class is added at the end *)
    rewrite (bool_decide_eq_false_2 _ Hin).
    assert (findIndexFrom (λ n, String.eqb n (class_name x)) 0 names = -1) as ->.
    { apply (findIndex_none (λ n, String.eqb n (class_name x)) names).
      intros n Hn. apply String.eqb_neq. intros ->. apply Hin.
      apply firstNames_elem in Hn as [Hn _]. done. }
    rewrite bool_decide_eq_false_2 by lia. rewrite List.map_app. cbn [List.map].
    f_equal.
    + apply List.map_ext_in. intros n Hn. symmetry. apply combined_other.
      intros Heq. apply Hin. rewrite Heq.
      apply list_elem_of_In, firstNames_elem in Hn as [Hn _]. done.
    + f_equal. rewrite combined_same.
      assert (classesNamed cs (class_name x) = []) as Hnone.
      { apply classesNamed_none. exact Hin. }
      unfold combined. rewrite Hnone. cbn. by destruct x.
Qed.

(** X23. [getTests] gives one test class per name. The symbols of kind
    class or namespace are taken in order; the result has, for each of
    their names, one class, in the order in which the names first appear,
    and no two classes of the result have the same name. The class of a name
    holds the test functions of all the symbols of that name (a class and
    its extensions), in the order of the symbols, and the location of the
    first of them that has one. *)
Theorem getTests_merges_by_name (symbols : list DocumentSymbol) (uri_ : string) :
  let classes :=
    List.map (toTestClass isTestName uri_)
      (List.filter (λ symbol, bool_decide (symbol_kind symbol = ClassKind)
                              || bool_decide (symbol_kind symbol = NamespaceKind))
                   symbols) in
  getTests isTestName symbols uri_
  = List.map (combined classes) (firstNames [] (List.map class_name classes))
  ∧ NoDup (List.map class_name (getTests isTestName symbols uri_))
  ∧ (∀ symbol, In symbol symbols →
       symbol_kind symbol = ClassKind ∨ symbol_kind symbol = NamespaceKind →
       ∃ c, In c (getTests isTestName symbols uri_)
            ∧ class_name c = symbol_name symbol
            ∧ ∀ f, In f (testFunctions isTestName uri_ symbol) →
                   In f (class_functions c)).
Proof.
  intros classes.
  assert (getTests isTestName symbols uri_
          = List.map (combined classes) (firstNames [] (List.map class_name classes)))
    as Heq by apply getTests_fold.
  split; [done|]. split.
  - rewrite Heq, List.map_map. cbn [class_name combined]. rewrite List.map_id.
    apply firstNames_NoDup.
  - intros symbol Hin Hkind.
    assert (In (toTestClass isTestName uri_ symbol) classes) as Hc.
    { apply List.in_map, List.filter_In. split; [done|].
      destruct Hkind as [-> | ->]; done. }
    exists (combined classes (symbol_name symbol)). split; [|split; [done|]].
    + rewrite Heq. apply List.in_map, list_elem_of_In, firstNames_elem.
      split; [|apply not_elem_of_nil].
      apply list_elem_of_In.
      by apply (List.in_map class_name _ (toTestClass isTestName uri_ symbol)).
    + intros f Hf. cbn [class_functions combined]. apply List.in_concat.
      exists (testFunctions isTestName uri_ symbol). split; [|done].
      apply (List.in_map class_functions _ (toTestClass isTestName uri_ symbol)).
      apply List.filter_In. split; [done|]. cbn. apply String.eqb_refl.
Qed.

End GetTestsProperties.

(** ** Symbol-based discovery: the names of the test functions *)

Section FuncNameProperties.

Import DocumentSymbolDiscovery.

Lemma length_append (a b : string) :
  String.length (a +:+ b) = (String.length a + String.length b)%nat.
Proof.
  induction a as [|c a IH]; [done|]. rewrite append_cons. cbn. by rewrite IH.
Qed.

Lemma substring_prefix (a b : string) :
  String.substring 0 (String.length a) (a +:+ b) = a.
Proof.
  induction a as [|c a IH]; [by destruct b|]. rewrite append_cons. cbn. by rewrite IH.
Qed.

Lemma indexOfFrom_found (c : ascii) (a b : string) (i : Z) :
  without c a = true →
  indexOfFrom c i (a +:+ String c b) = i + Z.of_nat (String.length a).
Proof.
  revert i. induction a as [|x a IH]; intros i Ha.
  - rewrite append_nil_l. cbn. rewrite Ascii.eqb_refl. lia.
  - rewrite append_cons. cbn in *. apply andb_true_iff in Ha as [Hx Ha].
    apply negb_true_iff in Hx. rewrite Hx, IH by done. lia.
Qed.

Lemma indexOfFrom_none (c : ascii) (s : string) (i : Z) :
  without c s = true → indexOfFrom c i s = -1.
Proof.
  revert i. induction s as [|x s IH]; intros i Hs; [done|]. cbn in *.
  apply andb_true_iff in Hs as [Hx Hs]. apply negb_true_iff in Hx.
  rewrite Hx. by apply IH.
Qed.

(** X24. The name of a test function is the name of its symbol up to the
    first opening bracket: [testExample] for [testExample()]. A name that
    starts with the bracket is kept whole, the index 0 being falsy. A name
    without any bracket loses its last character, the index -1 being truthy
    and a negative end of a slice counting from the end of the string; the
    empty name stays empty. *)
Theorem funcName_cuts_at_the_bracket (base rest : string) (c : ascii) :
  without "(" base = true →
  (base ≠ "" → funcName (base +:+ String "(" rest) = base)
  ∧ funcName (String "(" rest) = String "(" rest
  ∧ (Ascii.eqb c "(" = false → funcName (base +:+ String c "") = base)
  ∧ funcName "" = "".
Proof.
  intros Hbase. split; [|split; [|split]].
  - intros Hne. unfold funcName, indexOf. rewrite indexOfFrom_found by done.
    rewrite bool_decide_eq_true_2 by (destruct base; [done|cbn; lia]).
    unfold sliceTo. rewrite bool_decide_eq_false_2 by lia.
    rewrite length_append. cbn [String.length].
    replace (Z.to_nat (Z.min (0 + Z.of_nat (String.length base))
                             (Z.of_nat (String.length base + S (String.length rest)))))
      with (String.length base) by lia.
    apply substring_prefix.
  - unfold funcName, indexOf. cbn. done.
  - intros Hc. unfold funcName, indexOf.
    rewrite indexOfFrom_none.
    + rewrite bool_decide_eq_true_2 by lia. unfold sliceTo.
      rewrite bool_decide_eq_true_2 by lia. rewrite length_append. cbn [String.length].
      replace (Z.to_nat (Z.max (Z.of_nat (String.length base + 1) + -1) 0))
        with (String.length base) by lia.
      apply substring_prefix.
    + clear -Hbase Hc. induction base as [|x a IH].
      * rewrite append_nil_l. cbn. by rewrite Hc.
      * rewrite append_cons. cbn in *. apply andb_true_iff in Hbase as [-> Ha].
        by apply IH.
  - done.
Qed.

End FuncNameProperties.

(** ** The output of a process, chunk by chunk *)

Section OutputConversionProperties.

Import TestRunner.

Lemma substring_suffix (a b : string) :
  String.substring (String.length a) (String.length (a +:+ b) - String.length a) (a +:+ b)
  = b.
Proof.
  rewrite length_append.
  replace (String.length a + String.length b - String.length a)%nat
    with (String.length b) by lia.
  induction a as [|c a IH].
  - rewrite append_nil_l. cbn. induction b as [|x b IHb]; [done|]. cbn. by rewrite IHb.
  - rewrite append_cons. cbn. exact IH.
Qed.

Lemma prefix_append (p b : string) : String.prefix p (p +:+ b) = true.
Proof.
  induction p as [|c p IH]; [by destruct b|]. rewrite append_cons. cbn.
  destruct (Ascii.ascii_dec c c); [exact IH|done].
Qed.

Lemma prefix_first (c : ascii) (p s : string) :
  String.prefix (String c p) s = true → ∃ rest, s = String c rest.
Proof.
  destruct s as [|x s]; [done|]. cbn. destruct (Ascii.ascii_dec c x) as [->|]; [|done].
  eauto.
Qed.

Lemma removeFirst_start (p b : string) :
  p ≠ "" → removeFirst p (p +:+ b) = b.
Proof.
  intros Hp. destruct p as [|c p]; [done|]. rewrite append_cons.
  cbn [removeFirst]. rewrite <- append_cons, prefix_append.
  apply (substring_suffix (String c p) b).
Qed.

Lemma removeFirst_absent (c : ascii) (p s : string) :
  without c s = true → removeFirst (String c p) s = s.
Proof.
  induction s as [|x s IH]; [done|]. cbn [without removeFirst].
  intros H. apply andb_true_iff in H as [Hx Hs]. apply negb_true_iff in Hx.
  destruct (String.prefix (String c p) (String x s)) eqn:E.
  - apply prefix_first in E as [rest [= -> _]]. by rewrite Ascii.eqb_refl in Hx.
  - by rewrite IH.
Qed.

Lemma removeFirst_after (c : ascii) (p a b : string) :
  without c a = true →
  removeFirst (String c p) (a +:+ String c p +:+ b) = a +:+ b.
Proof.
  induction a as [|x a IH]; intros Ha.
  - rewrite !append_nil_l. by apply removeFirst_start.
  - rewrite !(append_cons x a). cbn [without] in Ha.
    apply andb_true_iff in Ha as [Hx Ha]. apply negb_true_iff in Hx.
    cbn [removeFirst].
    destruct (String.prefix (String c p) (String x (a +:+ String c p +:+ b))) eqn:E.
    + apply prefix_first in E as [rest [= -> _]]. by rewrite Ascii.eqb_refl in Hx.
    + by rewrite IH.
Qed.

Lemma crlf_append (a b : string) : crlf (a +:+ b) = crlf a +:+ crlf b.
Proof.
  induction a as [|c a IH]; [done|]. rewrite append_cons. cbn [crlf].
  destruct (Ascii.eqb c "010"); rewrite IH, ?append_cons; done.
Qed.

(** X25. How the output of a process is rewritten, chunk by chunk. The
    conversion of line ends does not depend on the chunks: converting two
    chunks one after the other gives what converting them as one text gives,
    and a text without line feed is unchanged. The removal of the planning
    line works on each chunk by itself and once: the first
    ["[1/1] Planning build"] of a chunk is removed, a second one in the same
    chunk stays, and a chunk without an opening square bracket is
    unchanged. *)
Theorem output_is_rewritten_chunk_by_chunk (a b : string) :
  crlf (a +:+ b) = crlf a +:+ crlf b
  ∧ (without "010" a = true → crlf a = a)
  ∧ removeFirst "[1/1] Planning build" ("[1/1] Planning build" +:+ b) = b
  ∧ (without "[" a = true →
     removeFirst "[1/1] Planning build" (a +:+ "[1/1] Planning build" +:+ b) = a +:+ b
     ∧ removeFirst "[1/1] Planning build" a = a)
  ∧ removeFirst "[1/1] Planning build"
      ("[1/1] Planning build" +:+ "[1/1] Planning build" +:+ b)
    = "[1/1] Planning build" +:+ b.
Proof.
  split; [apply crlf_append|]. split; [|split; [|split]].
  - induction a as [|c a IH]; [done|]. cbn. intros H.
    apply andb_true_iff in H as [Hc Ha]. apply negb_true_iff in Hc.
    rewrite Hc. by rewrite IH.
  - by apply removeFirst_start.
  - intros Ha. split; [by apply removeFirst_after|by apply removeFirst_absent].
  - by apply removeFirst_start.
Qed.

End OutputConversionProperties.

(** * The further properties on sample data *)

Lemma Sample2_controller_uniqueIds : uniqueIds (items Sample2.controller).
Proof.
  constructor; [apply NoDup_singleton|].
  constructor; [|constructor].
  constructor; [apply NoDup_singleton|].
  constructor; [|constructor].
  constructor; constructor.
Qed.

Lemma xunit_results_find_their_test_witness :
  TestRunner.applyXUnitCall Sample4.env [Sample.testItem]
    (TestRunner.PassTest "PassingXCTestSuite/testPassing" 0.5%float)
    (TestRunProxy.create [Sample.testItem])
  = TestRunProxy.passed (Some Sample.testItem) 0.5%float
      (TestRunProxy.create [Sample.testItem]).
Proof.
  apply (proj2 (xunit_results_find_their_test Sample.parent Sample.path_join
                  Sample.path_relative "/pkg" Sample.package Sample4.env
                  [Sample.testItem] "PassingXCTestSuite/testPassing" 0.5%float None
                  (TestRunProxy.create [Sample.testItem])
                  ltac:(intros; reflexivity)) 0 Sample.testItem).
  - split; [lia|]. exists Sample.testItem.
    split; [reflexivity|]. split; [vm_compute; reflexivity|].
    intros j y Hj. simpl in Hj. lia.
  - reflexivity.
Defined.

Lemma unfiltered_pass_leaves_no_stale_item_witness :
  uniqueIds (items Sample2.controller)
  ∧ Forall (Everywhere (λ e, ∃ t, In t (flat_map incoming [Sample2.incomingSuite])
                                  ∧ tc_id t = id e))
           (items (TestDiscovery.updateTests Sample2.controller
                     [Sample2.incomingSuite] None).1).
Proof.
  split; [exact Sample2_controller_uniqueIds|].
  exact (proj1 (unfiltered_pass_leaves_no_stale_item Sample2.controller
                  [Sample2.incomingSuite] Sample2_controller_uniqueIds)).
Defined.

Lemma pass_covers_the_snapshot_witness :
  uniqueIds (items Sample2.controller)
  ∧ Forall (λ t, covers t (items (TestDiscovery.updateTests Sample2.controller
                                    [Sample2.incomingSuite; Sample2.swiftTestingItem]
                                    (Some Sample2.fileA)).1))
           [Sample2.incomingSuite; Sample2.swiftTestingItem].
Proof.
  split; [exact Sample2_controller_uniqueIds|].
  exact (proj1 (pass_covers_the_snapshot Sample2.controller
                  [Sample2.incomingSuite; Sample2.swiftTestingItem]
                  (Some Sample2.fileA) Sample2_controller_uniqueIds)).
Defined.

Lemma upsert_then_get_witness :
  tc_style Sample2.incomingSuite ≠ "swift-testing"
  ∧ List.map id (TestDiscovery.upsertTestItem Sample2.incomingSuite
                   (items Sample2.controller, 2%nat)).1
    = List.map id (items Sample2.controller).
Proof.
  split; [discriminate|].
  exact (proj2 (proj2 (upsert_then_get Sample2.incomingSuite
                         (items Sample2.controller) 2%nat ltac:(discriminate)))).
Defined.

Lemma updateTestsFromClasses_shows_the_test_targets_witness :
  List.map id
    (items (TestDiscovery.updateTestsFromClasses Sample.getTarget Sample.package
              Sample4.emptyController [Sample4.passingSuite]).1)
  = ["PackageTests"].
Proof.
  apply (proj2 (updateTestsFromClasses_shows_the_test_targets Sample.getTarget
                  Sample.package Sample4.emptyController [Sample4.passingSuite]
                  uniqueIds_nil)).
  - reflexivity.
  - vm_compute. apply NoDup_singleton.
Defined.

Lemma discovery_mirrors_the_server_witness :
  ∃ ts,
    LSPTestDiscovery.getDocumentTests "textDocument/tests" Sample4.asLocation
      Sample.getTarget (Sample.clientWithVersion "textDocument/tests" 2)
      (Returned [Sample.lspItem]) Sample.package = Returned ts
    ∧ Forall2 (mirrors Sample4.asLocation) [Sample.lspItem] ts.
Proof.
  apply (proj1 (proj1 (discovery_mirrors_the_server "textDocument/tests"
                         "workspace/tests" Sample4.asLocation Sample.getTarget
                         Sample.path_relative
                         (Sample.clientWithVersion "textDocument/tests" 2)
                         Sample.package "/pkg" 2 ltac:(lia))
                 ltac:(by eexists; split; [vm_compute; reflexivity|reflexivity]))).
Defined.

Lemma transformId_outside_the_test_targets_witness :
  LSPTestDiscovery.transformId Sample.getTarget Sample4.strayItem
    Sample4.strayLocation Sample.package
  = "StrayTests/testStray".
Proof.
  apply (proj1 (transformId_outside_the_test_targets Sample.getTarget
                  Sample4.strayItem Sample4.strayLocation Sample.package
                  ltac:(reflexivity) ltac:(intros i t H; discriminate H))).
Defined.

Lemma debugSession_needs_swift_testing_tests_witness :
  TestRunner.debugSession (Sample3.env (Some 0) [])
    (TestRunner.initial [Sample.testItem])
  = (TestRunner.Resolved (), TestRunner.initial [Sample.testItem]).
Proof.
  apply (proj1 (proj1 (debugSession_needs_swift_testing_tests
                         (Sample3.env (Some 0) []) [Sample.testItem]
                         TestRunner.standard (TestRunner.initial [Sample.testItem])
                         ltac:(right; reflexivity))
                 ltac:(reflexivity))).
Defined.

Lemma Sample3_parserNeverThrows (build : option Z)
    (process : list TestRunner.SessionEvent) :
  parserNeverThrows (Sample3.env build process).
Proof.
  intros text s. cbn [TestRunner.xcTestParse Sample3.env].
  by destruct (String.eqb text "passed").
Qed.

Lemma process_output_reaches_the_run_witness :
  outputs (proxy (TestRunner.runStandardSession (Sample3.env (Some 0) [])
                    (TestRunner.parsedOutputStream (Sample3.env (Some 0) []))
                    [TestRunner.DidWrite "[1/1] Planning build";
                     TestRunner.DidWrite ("Test Suite started" +:+ String "010" "");
                     TestRunner.DidClose (Some 0)]
                    (TestRunner.initial [Sample.testItem])).2)
  = [""; "Test Suite started" +:+ TestRunner.CRLF].
Proof.
  apply (proj1 (proj2 (proj2
           (process_output_reaches_the_run (Sample3.env (Some 0) [])
              [Sample.testItem]
              [TestRunner.DidWrite "[1/1] Planning build";
               TestRunner.DidWrite ("Test Suite started" +:+ String "010" "");
               TestRunner.DidClose (Some 0)]
              (TestRunner.initial [Sample.testItem])
              ltac:(split; [reflexivity|intros H; discriminate H]))))).
  apply Sample3_parserNeverThrows.
Defined.

(** A parser whose second chunk makes a call that throws: the chunk is
    shown, the chunks after it are not, and the test they report as passed
    is never reported. *)
Example output_after_a_throwing_chunk :
  let r := TestRunner.runStandardSession Sample4.throwingEnv
             (TestRunner.parsedOutputStream Sample4.throwingEnv)
             [TestRunner.DidWrite "first"; TestRunner.DidWrite "bad";
              TestRunner.DidWrite "passed"; TestRunner.DidClose (Some 0)]
             (TestRunner.initial [Sample.testItem]) in
  r.1 = TestRunner.Resolved ()
  ∧ outputs (proxy r.2) = ["first"; "bad"]
  ∧ passedItems (proxy r.2) = [].
Proof. repeat split; reflexivity. Qed.

Lemma Sample4_lines_wellFormed : Forall wellFormed Sample4.lines.
Proof. repeat constructor; cbn; lia. Qed.

Lemma combineRanges_keeps_the_lines_witness :
  Forall wellFormed Sample4.lines
  ∧ (coversLine (TestCoverageRenderer.combineRanges Sample4.lines) 2
     ↔ coversLine Sample4.lines 2).
Proof.
  split; [exact Sample4_lines_wellFormed|].
  exact (proj1 (combineRanges_keeps_the_lines Sample4.lines 2
                  Sample4_lines_wellFormed)).
Defined.

Lemma combineRanges_joins_neighbours_witness :
  Forall wellFormed Sample4.lines
  ∧ apart (TestCoverageRenderer.combineRanges Sample4.lines).
Proof.
  split; [exact Sample4_lines_wellFormed|].
  exact (proj1 (combineRanges_joins_neighbours Sample4.lines
                  Sample4_lines_wellFormed)).
Defined.

Example combineRanges_sample :
  TestCoverageRenderer.combineRanges Sample4.lines
  = [{| range_start := {| line := 1; character := 0 |};
        range_end := {| line := 2; character := 0 |} |};
     lineRange 4].
Proof. reflexivity. Qed.

Lemma getRepositoryName_is_the_base_name_witness :
  Utilities.getRepositoryName "https://github.com/apple/swift-nio.git" = "swift-nio".
Proof.
  apply (proj1 (getRepositoryName_is_the_base_name "https://github.com/apple"
                  "swift-nio" ltac:(reflexivity))).
Defined.

Example getRepositoryName_samples :
  Utilities.getRepositoryName "https://github.com/apple/swift-nio.git/" = "swift-nio"
  ∧ Utilities.getRepositoryName "../swift-nio" = "swift-nio"
  ∧ Utilities.getRepositoryName "https://github.com/apple/swift-nio//" = ""
  ∧ Utilities.getRepositoryName "" = "".
Proof. repeat split; reflexivity. Qed.

Lemma funcName_cuts_at_the_bracket_witness :
  DocumentSymbolDiscovery.funcName "testExample()" = "testExample"
  ∧ DocumentSymbolDiscovery.funcName "testExample" = "testExampl".
Proof.
  pose proof (funcName_cuts_at_the_bracket "testExample" ")" "e"
                ltac:(reflexivity)) as (H1 & _ & _).
  pose proof (funcName_cuts_at_the_bracket "testExampl" "" "e"
                ltac:(reflexivity)) as (_ & _ & H3 & _).
  split; [apply H1; discriminate|apply H3; reflexivity].
Defined.

Example loadPackage_samples :
  PackageState.skipToBrace 5 ("warning: ignored" +:+ String "010" "{}") = Some "{}"
  ∧ PackageState.skipToBrace 5 "warning: ignored" = None
  ∧ PackageState.skipToBrace 5 (String "010" "") = None.
Proof. repeat split; reflexivity. Qed.
